(** * deej mixer firmware (arduino/src/main.cpp): a shallow embedding

    The firmware polls six rotary encoders and ten push buttons, keeps a
    per-channel volume detent, drives 96 RGB LEDs through LP50xx chips on
    two multiplexed I2C banks and talks to the host over a line-based
    serial protocol.

    Conventions of the embedding
    - [int], [long] and [unsigned long] are 32 bits wide (ESP32); they are
      [Z] with the wrap-around written out.
    - [float] is IEEE binary32 and [double] is IEEE binary64, both carried
      by [spec_float] with the operations of the standard library's
      [SpecFloat]; comparisons and conversions to integers go through the
      exact rational value.
    - the I2C bus and the serial line are output traces kept in the state.
    - the two places where the C++ has no defined behaviour that the
      firmware itself guards or fails to guard (a division by zero, a read
      past the end of a wiring table) are faults of the [result] monad. *)

From Stdlib Require Import ZArith List String Ascii Bool Lia QArith Qround Lqa.
From Stdlib Require Import Floats.SpecFloat.
From Stdlib Require Import DecimalString.
Import ListNotations.

Local Open Scope Z_scope.

(** ** Machine integers *)

Module Int.

(** Two's complement wrap-around of a signed 32-bit [int] / [long]. *)
Definition wrap32 (z : Z) : Z := (z + 2 ^ 31) mod 2 ^ 32 - 2 ^ 31.

(** Wrap-around of an [unsigned long]. *)
Definition wrapU32 (z : Z) : Z := z mod 2 ^ 32.

(** Wrap-around of a signed 64-bit integer. *)
Definition wrap64 (z : Z) : Z := (z + 2 ^ 63) mod 2 ^ 64 - 2 ^ 63.

(** A [byte] (uint8_t). *)
Definition wrap8 (z : Z) : Z := z mod 256.

Definition LONG_MAX : Z := 2 ^ 31 - 1.
Definition LONG_MIN : Z := - 2 ^ 31.

Definition in_long (z : Z) : Prop := LONG_MIN <= z <= LONG_MAX.

(** Saturation to the range of [long]. *)
Definition saturate32 (z : Z) : Z := Z.max LONG_MIN (Z.min LONG_MAX z).

End Int.

(** ** IEEE 754 arithmetic *)

Module IEEE.

Definition prec32 : Z := 24.
Definition emax32 : Z := 128.
Definition prec64 : Z := 53.
Definition emax64 : Z := 1024.

(** Integer to [float] / [double] conversion, round to nearest even. *)
Definition f32_of_Z (n : Z) : spec_float := binary_normalize prec32 emax32 n 0 false.
Definition f64_of_Z (n : Z) : spec_float := binary_normalize prec64 emax64 n 0 false.

(** [float] to [double] (exact) and [double] to [float] (rounding). *)
Definition f64_of_f32 (x : spec_float) : spec_float :=
  match x with
  | S754_finite s m e => binary_normalize prec64 emax64 (cond_Zopp s (Zpos m)) e s
  | _ => x
  end.

Definition f32_of_f64 (x : spec_float) : spec_float :=
  match x with
  | S754_finite s m e => binary_normalize prec32 emax32 (cond_Zopp s (Zpos m)) e s
  | _ => x
  end.

Definition f32_mul := SFmul prec32 emax32.
Definition f32_div := SFdiv prec32 emax32.
Definition f32_add := SFadd prec32 emax32.
Definition f64_div := SFdiv prec64 emax64.

(** The exact value of a finite number (0 for the others). *)
Definition F2Q (x : spec_float) : Q :=
  match x with
  | S754_finite s m e =>
      if 0 <=? e then inject_Z (cond_Zopp s (Zpos m) * 2 ^ e)
      else Qmake (cond_Zopp s (Zpos m)) (Z.to_pos (2 ^ (- e)))
  | _ => 0%Q
  end.

(** IEEE comparison: unordered ([None]) when a NaN is involved, by value
    otherwise. [SFcompare] reads the order off the exponents and is only
    meaningful on canonical mantissas; this one holds for every
    representation. *)
Definition Fcompare (x y : spec_float) : option comparison :=
  match x, y with
  | S754_nan, _ | _, S754_nan => None
  | S754_infinity sx, S754_infinity sy =>
      Some (match sx, sy with
            | true, false => Lt
            | false, true => Gt
            | _, _ => Eq
            end)
  | S754_infinity sx, _ => Some (if sx then Lt else Gt)
  | _, S754_infinity sy => Some (if sy then Gt else Lt)
  | _, _ => Some (Qcompare (F2Q x) (F2Q y))
  end.

Definition Flt (x y : spec_float) : bool :=
  match Fcompare x y with Some Lt => true | _ => false end.
Definition Fle (x y : spec_float) : bool :=
  match Fcompare x y with Some (Lt | Eq) => true | _ => false end.
Definition Fgt (x y : spec_float) : bool := Flt y x.
Definition Feq (x y : spec_float) : bool :=
  match Fcompare x y with Some Eq => true | _ => false end.
(** C's [!=]: true when unordered. *)
Definition Fne (x y : spec_float) : bool := negb (Feq x y).

Definition is_zero (x : spec_float) : bool :=
  match x with S754_zero _ => true | _ => false end.

(** Rounding of a rational to the nearest integer, halves away from
    zero: C's [round]. *)
Definition Qround_away (q : Q) : Z :=
  if Qle_bool 0 q then Qfloor (q + (1 # 2)) else - Qfloor (- q + (1 # 2)).

(** Truncation of a rational toward zero: C's float to integer cast. *)
Definition Qtrunc (q : Q) : Z :=
  if Qle_bool 0 q then Qfloor q else - Qfloor (- q).

(** [(long)round(x)], with C's [round] (halves away from zero). A value
    outside the range of [long] has no defined conversion in C++; the
    embedding saturates, and sends NaN to 0. *)
Definition lround (x : spec_float) : Z :=
  match x with
  | S754_nan => 0
  | S754_infinity s => if s then Int.LONG_MIN else Int.LONG_MAX
  | _ => Int.saturate32 (Qround_away (F2Q x))
  end.

(** [(byte)x]: truncation, then reduction modulo 256 (NaN and the
    infinities to 0). *)
Definition byte_of_float (x : spec_float) : Z :=
  match x with
  | S754_finite _ _ _ => Int.wrap8 (Qtrunc (F2Q x))
  | _ => 0
  end.

End IEEE.

Import IEEE.

(** ** The Arduino [String] class and the C library calls it wraps *)

Module AString.

Definition NUL : ascii := Ascii.zero.
Definition LF : ascii := "010"%char.
Definition CR : ascii := "013"%char.
Definition CRLF : string := String CR (String LF EmptyString).

Definition len (s : string) : Z := Z.of_nat (String.length s).

Fixpoint indexOfFrom (c : ascii) (s : string) (pos : Z) : Z :=
  match s with
  | EmptyString => -1
  | String a rest => if Ascii.eqb a c then pos else indexOfFrom c rest (pos + 1)
  end.

(** [s.indexOf(c)]: position of the first [c], or -1. *)
Definition indexOf (c : ascii) (s : string) : Z := indexOfFrom c s 0.

Fixpoint lastIndexOfFrom (c : ascii) (s : string) (pos found : Z) : Z :=
  match s with
  | EmptyString => found
  | String a rest =>
      lastIndexOfFrom c rest (pos + 1) (if Ascii.eqb a c then pos else found)
  end.

(** [s.lastIndexOf(c)]: position of the last [c], or -1. *)
Definition lastIndexOf (c : ascii) (s : string) : Z := lastIndexOfFrom c s 0 (-1).

(** [s.charAt(i)]: NUL outside the string. *)
Definition charAt (i : Z) (s : string) : ascii :=
  if i <? 0 then NUL
  else match String.get (Z.to_nat i) s with Some c => c | None => NUL end.

(** [s.substring(left, right)]: the bounds are unsigned, swapped when
    out of order and cut at the length. *)
Definition substring (left right : Z) (s : string) : string :=
  let l := Int.wrapU32 left in
  let r := Int.wrapU32 right in
  let '(l, r) := if r <? l then (r, l) else (l, r) in
  if len s <=? l then EmptyString
  else
    let r := if len s <? r then len s else r in
    String.substring (Z.to_nat l) (Z.to_nat (r - l)) s.

(** [s.substring(left)]. *)
Definition substringFrom (left : Z) (s : string) : string :=
  substring left (len s) s.

Definition startsWith (p s : string) : bool := String.prefix p s.

(** [s.remove(0, count)]. *)
Definition removeFront (count : Z) (s : string) : string :=
  if count <=? 0 then s else substringFrom count s.

Definition tolower (c : ascii) : ascii :=
  let n := Z.of_N (N_of_ascii c) in
  if (65 <=? n) && (n <=? 90) then ascii_of_N (Z.to_N (n + 32)) else c.

Fixpoint equalsIgnoreCase (a b : string) : bool :=
  match a, b with
  | EmptyString, EmptyString => true
  | String x a', String y b' =>
      Ascii.eqb (tolower x) (tolower y) && equalsIgnoreCase a' b'
  | _, _ => false
  end.

Definition isspace (c : ascii) : bool :=
  let n := Z.of_N (N_of_ascii c) in
  (n =? 32) || ((9 <=? n) && (n <=? 13)).

Fixpoint skipSpace (s : string) : string :=
  match s with
  | String c rest => if isspace c then skipSpace rest else s
  | EmptyString => s
  end.

(** Value of a digit in the given base, as [strtol] reads it. *)
Definition digitValue (base : Z) (c : ascii) : option Z :=
  let n := Z.of_N (N_of_ascii c) in
  let v :=
    if (48 <=? n) && (n <=? 57) then n - 48
    else if (97 <=? n) && (n <=? 122) then n - 97 + 10
    else if (65 <=? n) && (n <=? 90) then n - 65 + 10
    else 36 in
  if v <? base then Some v else None.

(** The longest prefix of digits: its value, how many digits it has,
    and what follows it. *)
Fixpoint digits (base : Z) (s : string) (acc count : Z) : Z * Z * string :=
  match s with
  | String c rest =>
      match digitValue base c with
      | Some d => digits base rest (acc * base + d) (count + 1)
      | None => (acc, count, s)
      end
  | EmptyString => (acc, count, s)
  end.

(** An optional sign: [true] for a minus. *)
Definition sign (s : string) : bool * string :=
  match s with
  | String "-" rest => (true, rest)
  | String "+" rest => (false, rest)
  | _ => (false, s)
  end.

(** [strtol(s, NULL, base)] for base 10 or 16: white space, sign, an
    optional 0x prefix in base 16, digits; saturating at the bounds of
    [long]. *)
Definition strtol (base : Z) (s : string) : Z :=
  let '(neg, s) := sign (skipSpace s) in
  let s :=
    if base =? 16 then
      match s with
      | String "0" (String "x" rest) => rest
      | String "0" (String "X" rest) => rest
      | _ => s
      end
    else s in
  let '(v, _, _) := digits base s 0 0 in
  Int.saturate32 (if neg then - v else v).

(** [s.toInt()] is [atol]. *)
Definition toInt (s : string) : Z := strtol 10 s.

(** The double nearest to [m * 10 ^ e10]. *)
Definition decimalToDouble (neg : bool) (m e10 : Z) : spec_float :=
  match m with
  | Zpos p =>
      if 0 <=? e10 then binary_normalize prec64 emax64 (cond_Zopp neg (m * 10 ^ e10)) 0 neg
      else SFdiv prec64 emax64 (S754_finite neg p 0)
                 (S754_finite false (Z.to_pos (10 ^ (- e10))) 0)
  | _ => S754_zero neg
  end.

(** An optional exponent part introduced by [marker] (in lower case). *)
Definition exponent (marker : ascii) (s : string) : Z :=
  match s with
  | String c rest =>
      if Ascii.eqb (tolower c) marker then
        let '(neg, rest) := sign rest in
        let '(v, _, _) := digits 10 rest 0 0 in
        if neg then - v else v
      else 0
  | EmptyString => 0
  end.

(** [strtod(s, NULL)]: white space, sign, then a decimal literal
    (digits, optional fraction, optional exponent), a hexadecimal one,
    [inf] or [nan]; 0 when there is nothing to convert. The result is
    correctly rounded. *)
Definition strtod (s : string) : spec_float :=
  let '(neg, s) := sign (skipSpace s) in
  let lower := String.substring 0 3 s in
  if equalsIgnoreCase lower "inf"%string then S754_infinity neg
  else if equalsIgnoreCase lower "nan"%string then S754_nan
  else
    let hex :=
      match s with
      | String "0" (String x (String d rest)) =>
          if Ascii.eqb (tolower x) "x"%char
          then match digitValue 16 d with
               | Some _ => Some (String d rest)
               | None =>
                   if Ascii.eqb d "."%char
                   then match digitValue 16 (charAt 0 rest) with
                        | Some _ => Some (String d rest)
                        | None => None
                        end
                   else None
               end
          else None
      | _ => None
      end in
    match hex with
    | Some body =>
        let '(ip, _, rest) := digits 16 body 0 0 in
        let '(m, fc, rest) :=
          match rest with
          | String "." frac => digits 16 frac ip 0
          | _ => (ip, 0, rest)
          end in
        binary_normalize prec64 emax64 (cond_Zopp neg m)
                         (exponent "p"%char rest - 4 * fc) neg
    | None =>
        let '(ip, ic, rest) := digits 10 s 0 0 in
        let '(m, fc, rest) :=
          match rest with
          | String "." frac => digits 10 frac ip 0
          | _ => (ip, 0, rest)
          end in
        if ic + fc =? 0 then S754_zero false
        else decimalToDouble neg m (exponent "e"%char rest - fc)
    end.

(** [s.toFloat()] is [(float)atof]. *)
Definition toFloat (s : string) : spec_float := f32_of_f64 (strtod s).

(** [String(n)] for an [int]: decimal, with a minus sign if negative. *)
Definition ofInt (n : Z) : string := NilEmpty.string_of_int (Z.to_int n).

End AString.

(** ** Faults *)

Inductive fault : Type :=
| DivisionByZero    (* a [/] whose divisor is zero *)
| OutOfBounds.      (* a read past the end of an array *)

Inductive result (A : Type) : Type :=
| Ok (a : A)
| Fault (f : fault).

Arguments Ok {A} a.
Arguments Fault {A} f.

Definition bind {A B : Type} (m : result A) (k : A -> result B) : result B :=
  match m with
  | Ok a => k a
  | Fault f => Fault f
  end.

Notation "x <- m ;; k" := (bind m (fun x => k))
  (at level 61, m at next level, right associativity).

(** [for (i = lo; i < hi; i++) body(i)] over a threaded state. *)
Fixpoint iterate {S : Type} (n : nat) (i : Z) (body : Z -> S -> result S) (s : S)
  : result S :=
  match n with
  | O => Ok s
  | S n' => s' <- body i s ;; iterate n' (i + 1) body s'
  end.

Definition for_range {S : Type} (lo hi : Z) (body : Z -> S -> result S) (s : S)
  : result S :=
  iterate (Z.to_nat (hi - lo)) lo body s.

(** The indices [lo], [lo + 1], ..., [hi - 1]. *)
Definition range (lo hi : Z) : list Z :=
  map (fun k => lo + Z.of_nat k) (seq 0 (Z.to_nat (hi - lo))).

(** Element [i] of a fixed-size array whose index the caller has checked. *)
Definition at_index {A : Type} (d : A) (l : list A) (i : Z) : A :=
  nth (Z.to_nat i) l d.

(** [l[i] = f(l[i])]. *)
Fixpoint update_nth {A : Type} (n : nat) (f : A -> A) (l : list A) : list A :=
  match l, n with
  | [], _ => []
  | x :: l', O => f x :: l'
  | x :: l', S n' => x :: update_nth n' f l'
  end.

Definition update_at {A : Type} (i : Z) (f : A -> A) (l : list A) : list A :=
  if i <? 0 then l else update_nth (Z.to_nat i) f l.

(** A read with no bounds check: a fault outside the array. *)
Definition read_unchecked {A : Type} (l : list A) (i : Z) : result A :=
  if i <? 0 then Fault OutOfBounds
  else match nth_error l (Z.to_nat i) with
       | Some a => Ok a
       | None => Fault OutOfBounds
       end.

(** ** System configuration (the constants of main.cpp) *)

Definition DEBOUNCE_DELAY : Z := 50.
Definition MAX_ENCODER_VALUE : Z := 100.

(** [0.5f]. *)
Definition ENCODER_VOLUME_PER_COUNT : spec_float := S754_finite false 8388608 (-24).

Definition SERIAL_BAUD_RATE : Z := 9600.

Record Color : Type := mkColor { r : Z; g : Z; b : Z }.

Definition lerp (from to : Color) (t : spec_float) : Color :=
  let channel (x y : Z) : Z :=
    byte_of_float (f32_add (f32_of_Z x) (f32_mul (f32_of_Z (y - x)) t)) in
  mkColor (channel (r from) (r to)) (channel (g from) (g to)) (channel (b from) (b to)).

Definition BLACK : Color := mkColor 0 0 0.
Definition MUTED_COLOR : Color := mkColor 50 0 0.

Definition LEDS_PER_CHIP : Z := 12.
Definition LED_CHIP_ADDRESSES : list Z := [0x30; 0x31; 0x32; 0x33].
Definition NUM_CHIPS_PER_BANK : Z := Z.of_nat (List.length LED_CHIP_ADDRESSES).
Definition LEDS_PER_BANK : Z := NUM_CHIPS_PER_BANK * LEDS_PER_CHIP.
Definition TOTAL_LEDS : Z := 96.
Definition ENCODER_LED_COUNT : Z := 10.
Definition ENCODER_LED_ORDER_E1 : list Z := [10; 8; 6; 4; 1; 2; 3; 5; 7; 9].
Definition ENCODER_LED_ORDER_E2 : list Z := [1; 2; 10; 8; 6; 4; 3; 5; 7; 9].
Definition ENCODER_LED_ORDER_E3 : list Z := [1; 2; 3; 4; 8; 5; 6; 7; 9; 10].
Definition ENCODER_LED_ORDER_E4 : list Z := [1; 2; 3; 4; 5; 6; 7; 8; 9; 10].
Definition ENCODER_LED_ORDER_E5 : list Z := [2; 4; 6; 7; 8; 5; 3; 1; 9; 10].
Definition ENCODER_LED_ORDER_E6 : list Z := [2; 4; 6; 8; 9; 10; 7; 5; 3; 1].

Definition BACKLIGHT_FIRST_LED : Z := 65.
Definition BACKLIGHT_LAST_LED : Z := 96.
Definition BACKLIGHT_LED_COUNT : Z := BACKLIGHT_LAST_LED - BACKLIGHT_FIRST_LED + 1.

Inductive BackgroundMode : Type := BG_OFF | BG_SOLID | BG_RGB.

Definition BUTTON_ACTIVE_COLOR : Color := mkColor 50 50 50.
Definition BUTTON_INACTIVE_COLOR : Color := mkColor 0 0 0.

Definition DEVICE_CONFIG0 : Z := 0x00.
Definition OUT0_COLOR_ADDR : Z := 0x14.

Definition SDA_PIN : Z := 8.
Definition SCL_PIN : Z := 9.
Definition MUX_SELECT_PIN : Z := 42.

(** ** Hardware seen from the firmware *)

Inductive PinLevel : Type := LOW | HIGH.

Definition PinLevel_eqb (x y : PinLevel) : bool :=
  match x, y with
  | LOW, LOW | HIGH, HIGH => true
  | _, _ => false
  end.

(** What leaves the firmware toward the LED hardware: a level driven on a
    pin, or one I2C transmission ([beginTransmission(address)], the bytes
    written, [endTransmission]). *)
Inductive BusEvent : Type :=
| DigitalWrite (pin : Z) (level : PinLevel)
| WireTransmission (address : Z) (data : list Z).

(** ** Input devices *)

Module EncoderInfo.
Record t : Type := mk {
  name : string;
  btn_pin : Z;
  rotA_pin : Z;
  rotB_pin : Z;
  startLed : Z;
  ledOrder : option (list Z);       (* [None] is the null pointer *)
  ledOrderLength : Z;
  count : Z;                        (* [driver.count], an int64_t *)
  lastDetentPosition : Z;
  isPressed : bool;
  isMuted : bool;
  lastButtonState : PinLevel;
  lastDebounceTime : Z;
  zeroColor : Color;
  fullColor : Color
}.

(** The constructor of the struct. *)
Definition make (n : string) (bp ra rb sLed : Z) (order : list Z) (orderLen : Z) : t :=
  mk n bp ra rb sLed (Some order) orderLen 0 0 false false HIGH 0
     (mkColor 50 0 0) (mkColor 0 50 0).

Definition set_count (v : Z) (e : t) : t :=
  mk (name e) (btn_pin e) (rotA_pin e) (rotB_pin e) (startLed e) (ledOrder e)
     (ledOrderLength e) v (lastDetentPosition e) (isPressed e) (isMuted e)
     (lastButtonState e) (lastDebounceTime e) (zeroColor e) (fullColor e).

Definition set_lastDetentPosition (v : Z) (e : t) : t :=
  mk (name e) (btn_pin e) (rotA_pin e) (rotB_pin e) (startLed e) (ledOrder e)
     (ledOrderLength e) (count e) v (isPressed e) (isMuted e)
     (lastButtonState e) (lastDebounceTime e) (zeroColor e) (fullColor e).

Definition set_isMuted (v : bool) (e : t) : t :=
  mk (name e) (btn_pin e) (rotA_pin e) (rotB_pin e) (startLed e) (ledOrder e)
     (ledOrderLength e) (count e) (lastDetentPosition e) (isPressed e) v
     (lastButtonState e) (lastDebounceTime e) (zeroColor e) (fullColor e).

Definition set_debounce (state : PinLevel) (time : Z) (e : t) : t :=
  mk (name e) (btn_pin e) (rotA_pin e) (rotB_pin e) (startLed e) (ledOrder e)
     (ledOrderLength e) (count e) (lastDetentPosition e) (isPressed e) (isMuted e)
     state time (zeroColor e) (fullColor e).

Definition set_colors (zero full : Color) (e : t) : t :=
  mk (name e) (btn_pin e) (rotA_pin e) (rotB_pin e) (startLed e) (ledOrder e)
     (ledOrderLength e) (count e) (lastDetentPosition e) (isPressed e) (isMuted e)
     (lastButtonState e) (lastDebounceTime e) zero full.

(** [InterruptEncoder::read()] reports twice the detent count. *)
Definition driver_read (e : t) : Z := Int.wrap64 (count e * 2).

(** [getRawCount()], narrowed to [long]. *)
Definition getRawCount (e : t) : Z := Int.wrap32 (Z.quot (driver_read e) 2).

Definition setRawCount (value : Z) (e : t) : t := set_count value e.
End EncoderInfo.

Module ButtonInfo.
Record t : Type := mk {
  name : string;
  pin : Z;
  ledNum : Z;
  lastState : PinLevel;
  lastDebounceTime : Z
}.

Definition make (n : string) (p ln : Z) : t := mk n p ln HIGH 0.

Definition set_debounce (state : PinLevel) (time : Z) (x : t) : t :=
  mk (name x) (pin x) (ledNum x) state time.
End ButtonInfo.

Definition encoders_init : list EncoderInfo.t :=
  [ EncoderInfo.make "E1" 4 5 6 1 ENCODER_LED_ORDER_E1 ENCODER_LED_COUNT;
    EncoderInfo.make "E2" 7 10 11 11 ENCODER_LED_ORDER_E2 ENCODER_LED_COUNT;
    EncoderInfo.make "E3" 12 13 14 21 ENCODER_LED_ORDER_E3 ENCODER_LED_COUNT;
    EncoderInfo.make "E4" 15 16 17 31 ENCODER_LED_ORDER_E4 ENCODER_LED_COUNT;
    EncoderInfo.make "E5" 18 1 2 41 ENCODER_LED_ORDER_E5 ENCODER_LED_COUNT;
    EncoderInfo.make "E6" 21 35 36 51 ENCODER_LED_ORDER_E6 ENCODER_LED_COUNT ].

Definition buttons_init : list ButtonInfo.t :=
  [ ButtonInfo.make "Ror" 38 61; ButtonInfo.make "Rol" 37 62;
    ButtonInfo.make "Rur" 40 63; ButtonInfo.make "Rul" 41 64 ].

Definition numEncoders : Z := Z.of_nat (List.length encoders_init).
Definition numButtons : Z := Z.of_nat (List.length buttons_init).

Definition noEncoder : EncoderInfo.t := EncoderInfo.make "" 0 0 0 0 [] 0.
Definition noButton : ButtonInfo.t := ButtonInfo.make "" 0 0.

(** ** The state of the program: its globals and what it has sent *)

Record State : Type := mkState {
  encoders : list EncoderInfo.t;
  buttons : list ButtonInfo.t;
  selectedOutputIndex : Z;
  backgroundMode : BackgroundMode;
  backgroundSolidColor : Color;
  rainbowHue : Z;
  serialBuffer : string;
  wire : list BusEvent;      (* pin writes and I2C transmissions, oldest first *)
  serialTx : string          (* everything printed on [Serial] *)
}.

Definition set_encoders (v : list EncoderInfo.t) (s : State) : State :=
  mkState v (buttons s) (selectedOutputIndex s) (backgroundMode s)
          (backgroundSolidColor s) (rainbowHue s) (serialBuffer s) (wire s) (serialTx s).
Definition set_buttons (v : list ButtonInfo.t) (s : State) : State :=
  mkState (encoders s) v (selectedOutputIndex s) (backgroundMode s)
          (backgroundSolidColor s) (rainbowHue s) (serialBuffer s) (wire s) (serialTx s).
Definition set_selectedOutputIndex (v : Z) (s : State) : State :=
  mkState (encoders s) (buttons s) v (backgroundMode s)
          (backgroundSolidColor s) (rainbowHue s) (serialBuffer s) (wire s) (serialTx s).
Definition set_background (m : BackgroundMode) (c : Color) (s : State) : State :=
  mkState (encoders s) (buttons s) (selectedOutputIndex s) m
          c (rainbowHue s) (serialBuffer s) (wire s) (serialTx s).
Definition set_rainbowHue (v : Z) (s : State) : State :=
  mkState (encoders s) (buttons s) (selectedOutputIndex s) (backgroundMode s)
          (backgroundSolidColor s) v (serialBuffer s) (wire s) (serialTx s).
Definition set_serialBuffer (v : string) (s : State) : State :=
  mkState (encoders s) (buttons s) (selectedOutputIndex s) (backgroundMode s)
          (backgroundSolidColor s) (rainbowHue s) v (wire s) (serialTx s).

(** [digitalWrite] and a complete [Wire] transmission. *)
Definition emit (events : list BusEvent) (s : State) : State :=
  mkState (encoders s) (buttons s) (selectedOutputIndex s) (backgroundMode s)
          (backgroundSolidColor s) (rainbowHue s) (serialBuffer s)
          (wire s ++ events) (serialTx s).

(** [Serial.print]. *)
Definition Serial_print (text : string) (s : State) : State :=
  mkState (encoders s) (buttons s) (selectedOutputIndex s) (backgroundMode s)
          (backgroundSolidColor s) (rainbowHue s) (serialBuffer s)
          (wire s) (serialTx s ++ text)%string.

(** [Serial.println]. *)
Definition Serial_println (text : string) (s : State) : State :=
  Serial_print (text ++ AString.CRLF)%string s.

Definition encoder (s : State) (i : Z) : EncoderInfo.t := at_index noEncoder (encoders s) i.
Definition button (s : State) (i : Z) : ButtonInfo.t := at_index noButton (buttons s) i.

Definition update_encoder (i : Z) (f : EncoderInfo.t -> EncoderInfo.t) (s : State) : State :=
  set_encoders (update_at i f (encoders s)) s.
Definition update_button (i : Z) (f : ButtonInfo.t -> ButtonInfo.t) (s : State) : State :=
  set_buttons (update_at i f (buttons s)) s.

(** ** Arduino core helpers *)

Module Arduino.

(** [map(x, in_min, in_max, out_min, out_max)] of the Arduino core:
    [(x - in_min) * (out_max - out_min) / (in_max - in_min) + out_min] in
    [long] arithmetic, the quotient truncated toward zero; -1 for an empty
    input range. *)
Definition map (x in_min in_max out_min out_max : Z) : Z :=
  let run := Int.wrap32 (in_max - in_min) in
  if run =? 0 then -1
  else
    let rise := Int.wrap32 (out_max - out_min) in
    let delta := Int.wrap32 (x - in_min) in
    Int.wrap32 (Z.quot (Int.wrap32 (delta * rise)) run + out_min).

(** The [constrain(amt, low, high)] macro on doubles. *)
Definition constrain (amt low high : spec_float) : spec_float :=
  if Flt amt low then low else if Fgt amt high then high else amt.

End Arduino.

(** ** LED control *)

Definition setSingleLedColor (ledNum : Z) (c : Color) (s : State) : State :=
  if (ledNum <? 1) || (ledNum >? TOTAL_LEDS) then s
  else
    let bankIndex := Z.quot (ledNum - 1) LEDS_PER_BANK in
    let s := emit [DigitalWrite MUX_SELECT_PIN (if bankIndex =? 0 then LOW else HIGH)] s in
    let ledNumInBank := Z.rem (ledNum - 1) LEDS_PER_BANK in
    let chipIndexInBank := Z.quot ledNumInBank LEDS_PER_CHIP in
    let chipAddress := at_index 0 LED_CHIP_ADDRESSES chipIndexInBank in
    let ledNumOnChip := Z.rem ledNumInBank LEDS_PER_CHIP in
    let baseOutput := ledNumOnChip * 3 in
    emit [WireTransmission chipAddress
            [Int.wrap8 (OUT0_COLOR_ADDR + baseOutput); r c; g c; b c]] s.

(** A run of [setSingleLedColor] calls, in order. *)
Definition paint (pixels : list (Z * Color)) (s : State) : State :=
  fold_left (fun s p => setSingleLedColor (fst p) (snd p) s) pixels s.

Fixpoint mapM {A B : Type} (f : A -> result B) (l : list A) : result (list B) :=
  match l with
  | [] => Ok []
  | x :: l' => y <- f x ;; ys <- mapM f l' ;; Ok (y :: ys)
  end.

(** [int ledsToLight = round(volumePercent * ENCODER_LED_COUNT)]. *)
Definition ledsToLight (enc : EncoderInfo.t) : Z :=
  let volumePercent :=
    f32_div (f32_of_Z (EncoderInfo.lastDetentPosition enc)) (f32_of_Z MAX_ENCODER_VALUE) in
  lround (f64_of_f32 (f32_mul volumePercent (f32_of_Z ENCODER_LED_COUNT))).

(** [enc.ledOrder ? enc.ledOrder[i] : (i + 1)]; the table is read without
    a bounds check. *)
Definition localLedIndex (enc : EncoderInfo.t) (i : Z) : result Z :=
  match EncoderInfo.ledOrder enc with
  | Some order => read_unchecked order i
  | None => Ok (i + 1)
  end.

(** The first loop of [updateEncoderLedDisplay]: the whole segment off. *)
Definition clearedPixels (enc : EncoderInfo.t) : list (Z * Color) :=
  List.map (fun i => (EncoderInfo.startLed enc + i - 1, BLACK))
           (range 1 (ENCODER_LED_COUNT + 1)).

Definition mutedPixel (enc : EncoderInfo.t) (i : Z) : result (Z * Color) :=
  localLed <- localLedIndex enc i ;;
  Ok (EncoderInfo.startLed enc + localLed - 1, MUTED_COLOR).

Definition gradientPixel (enc : EncoderInfo.t) (lit i : Z) : result (Z * Color) :=
  localLed <- localLedIndex enc i ;;
  let segmentPercent :=
    if lit =? 1 then S754_zero false
    else f32_div (f32_of_Z i) (f32_of_Z (ENCODER_LED_COUNT - 1)) in
  Ok (EncoderInfo.startLed enc + localLed - 1,
      lerp (EncoderInfo.zeroColor enc) (EncoderInfo.fullColor enc) segmentPercent).

(** The LEDs lit by the second (muted) or third (gradient) loop. *)
Definition litPixels (enc : EncoderInfo.t) : result (list (Z * Color)) :=
  let lit := ledsToLight enc in
  if EncoderInfo.isMuted enc then mapM (mutedPixel enc) (range 0 lit)
  else mapM (gradientPixel enc lit) (range 0 lit).

Definition updateEncoderLedDisplay (encoderIndex : Z) (s : State) : result State :=
  let enc := encoder s encoderIndex in
  lit <- litPixels enc ;;
  Ok (paint (clearedPixels enc ++ lit) s).

Definition Wheel (WheelPos : Z) : Color :=
  let WheelPos := Int.wrap8 (255 - WheelPos) in
  if WheelPos <? 85 then
    mkColor (Int.wrap8 (255 - WheelPos * 3)) 0 (Int.wrap8 (WheelPos * 3))
  else if WheelPos <? 170 then
    let WheelPos := Int.wrap8 (WheelPos - 85) in
    mkColor 0 (Int.wrap8 (WheelPos * 3)) (Int.wrap8 (255 - WheelPos * 3))
  else
    let WheelPos := Int.wrap8 (WheelPos - 170) in
    mkColor (Int.wrap8 (WheelPos * 3)) (Int.wrap8 (255 - WheelPos * 3)) 0.

Definition backlight (color : Z -> Color) : list (Z * Color) :=
  List.map (fun i => (BACKLIGHT_FIRST_LED + i, color i)) (range 0 BACKLIGHT_LED_COUNT).

Definition updateBackgroundLighting (s : State) : State :=
  match backgroundMode s with
  | BG_RGB =>
      let hue := rainbowHue s in
      let s :=
        paint (backlight (fun i =>
                 Wheel (Z.land (Z.quot (i * 256) BACKLIGHT_LED_COUNT + hue) 255))) s in
      let hue := Int.wrap32 (hue + 1) in
      set_rainbowHue (if hue >=? 256 * 5 then 0 else hue) s
  | BG_SOLID => paint (backlight (fun _ => backgroundSolidColor s)) s
  | BG_OFF => paint (backlight (fun _ => BLACK)) s
  end.

Definition hexToColor (hex : string) : Color :=
  let hex := AString.removeFront (if AString.startsWith "#" hex then 1 else 0) hex in
  let number := AString.strtol 16 hex in
  mkColor (Z.land (Z.shiftr number 16) 255)
          (Z.land (Z.shiftr number 8) 255)
          (Z.land number 255).

(** ** Output selection *)

Definition applyOutputSelection (index : Z) (notifySerial : bool) (s : State) : State :=
  if (index <? 0) || (index >=? numButtons) then s
  else
    let previousIndex := selectedOutputIndex s in
    let s := set_selectedOutputIndex index s in
    let selected := selectedOutputIndex s in
    let s :=
      paint (List.map (fun i => (ButtonInfo.ledNum (button s i),
                                 if i =? selected then BUTTON_ACTIVE_COLOR
                                 else BUTTON_INACTIVE_COLOR))
                      (range 0 numButtons)) s in
    if notifySerial && negb (previousIndex =? selected) then
      Serial_println (AString.ofInt (Int.wrap32 (selected + 1))) (Serial_print "O:" s)
    else s.

(** ** Telemetry *)

Definition deejValue (enc : EncoderInfo.t) : Z :=
  let valueToSend :=
    if EncoderInfo.isMuted enc then 0 else Int.wrap32 (EncoderInfo.lastDetentPosition enc) in
  Arduino.map valueToSend 0 MAX_ENCODER_VALUE 0 1023.

(** The string built by the loop of [sendEncoderValues]. *)
Definition builtString (s : State) : string :=
  fold_left (fun (acc : string) (i : Z) =>
               let acc := (acc ++ AString.ofInt (deejValue (encoder s i)))%string in
               if i <? numEncoders - 1 then (acc ++ "|")%string else acc)
            (range 0 numEncoders) EmptyString.

Definition sendEncoderValues (s : State) : State := Serial_println (builtString s) s.

(** ** What the environment supplies during one pass of [loop] *)

(** One debounced input as [loop] sees it: the level [digitalRead]
    returns, the value of [millis()] in the test and its value when the
    transition is stamped. *)
Record Poll : Type := mkPoll {
  reading : PinLevel;
  millisAtTest : Z;
  millisAtStamp : Z
}.

Record Inputs : Type := mkInputs {
  turns : Z -> Z;           (* detents counted by the interrupt handler of encoder [i] since the last pass *)
  encoderPoll : Z -> Poll;  (* the push button of encoder [i] *)
  buttonPoll : Z -> Poll;   (* output button [i] *)
  rx : string               (* the bytes [Serial.read()] returns in this pass *)
}.

(** [millis() - last > DEBOUNCE_DELAY] on [unsigned long]. *)
Definition debounced (now last : Z) : bool :=
  Int.wrapU32 (Int.wrapU32 now - last) >? DEBOUNCE_DELAY.

(** The test of both button loops. *)
Definition accepts (p : Poll) (lastState : PinLevel) (lastTime : Z) : bool :=
  negb (PinLevel_eqb (reading p) lastState) && debounced (millisAtTest p) lastTime.

(** The interrupt handlers have moved the counters. *)
Definition encoderInterrupts (turn : Z -> Z) (s : State) : State :=
  fold_left (fun s i =>
               update_encoder i (fun e =>
                 EncoderInfo.set_count (Int.wrap64 (EncoderInfo.count e + turn i)) e) s)
            (range 0 numEncoders) s.

Section Firmware.

(** The per-detent scale factor, [K] in the specification; the shipped
    firmware has [K = ENCODER_VOLUME_PER_COUNT]. *)
Variable K : spec_float.

(** *** Volume mapping *)

Definition encoderCountToVolume (rawCount : Z) : spec_float :=
  f64_of_f32 (f32_mul (f32_of_Z (Int.wrap32 (- rawCount))) K).

(** Division of doubles; C++ leaves a zero divisor undefined. *)
Definition divide (x y : spec_float) : result spec_float :=
  if is_zero y then Fault DivisionByZero else Ok (f64_div x y).

Definition volumeToEncoderCount (volume : spec_float) : result Z :=
  if Fle K (S754_zero false) then Ok 0
  else
    counts <- divide (SFopp volume) (f64_of_f32 K) ;;
    Ok (lround counts).

(** *** The three polling loops of [loop] *)

Definition pollEncoder (i : Z) (s : State) : result State :=
  if Fle K (S754_zero false) then Ok s
  else
    let rawCount := EncoderInfo.getRawCount (encoder s i) in
    let requestedVolume := encoderCountToVolume rawCount in
    let clampedVolume :=
      Arduino.constrain requestedVolume (S754_zero false) (f64_of_Z MAX_ENCODER_VALUE) in
    s <- (if Fne requestedVolume clampedVolume then
            c <- volumeToEncoderCount clampedVolume ;;
            Ok (update_encoder i (EncoderInfo.setRawCount c) s)
          else Ok s) ;;
    let currentDetentPosition := lround clampedVolume in
    if negb (currentDetentPosition =? EncoderInfo.lastDetentPosition (encoder s i)) then
      updateEncoderLedDisplay i
        (update_encoder i (EncoderInfo.set_lastDetentPosition currentDetentPosition) s)
    else Ok s.

Definition pollEncoderButton (p : Poll) (i : Z) (s : State) : result State :=
  let enc := encoder s i in
  if accepts p (EncoderInfo.lastButtonState enc) (EncoderInfo.lastDebounceTime enc) then
    let s :=
      update_encoder i
        (EncoderInfo.set_debounce (reading p) (Int.wrapU32 (millisAtStamp p))) s in
    match reading p with
    | LOW =>
        updateEncoderLedDisplay i
          (update_encoder i
             (fun e => EncoderInfo.set_isMuted (negb (EncoderInfo.isMuted e)) e) s)
    | HIGH => Ok s
    end
  else Ok s.

Definition pollOutputButton (p : Poll) (i : Z) (s : State) : State :=
  let btn := button s i in
  if accepts p (ButtonInfo.lastState btn) (ButtonInfo.lastDebounceTime btn) then
    let s :=
      update_button i
        (ButtonInfo.set_debounce (reading p) (Int.wrapU32 (millisAtStamp p))) s in
    match reading p with
    | LOW => applyOutputSelection i true s
    | HIGH => s
    end
  else s.

(** *** Serial commands *)

(** [V:encoderIndex:volume]. *)
Definition commandV (payload : string) (s : State) : result State :=
  let secondColonPos := AString.indexOf ":" payload in
  if secondColonPos >? 0 then
    let encoderIndex := AString.toInt (AString.substring 0 secondColonPos payload) in
    let volume := AString.toFloat (AString.substringFrom (secondColonPos + 1) payload) in
    if (encoderIndex >=? 0) && (encoderIndex <? numEncoders) then
      let s :=
        update_encoder encoderIndex
          (EncoderInfo.set_lastDetentPosition
             (lround (f64_of_f32 (f32_mul volume (f32_of_Z MAX_ENCODER_VALUE))))) s in
      c <- volumeToEncoderCount
             (f64_of_Z (EncoderInfo.lastDetentPosition (encoder s encoderIndex))) ;;
      updateEncoderLedDisplay encoderIndex
        (update_encoder encoderIndex (EncoderInfo.setRawCount c) s)
    else Ok s
  else Ok s.

(** [C:encoderIndex:zeroHex:fullHex]. *)
Definition commandC (payload : string) (s : State) : result State :=
  let secondColonPos := AString.indexOf ":" payload in
  let thirdColonPos := AString.lastIndexOf ":" payload in
  if (secondColonPos >? 0) && (thirdColonPos >? secondColonPos) then
    let encoderIndex := AString.toInt (AString.substring 0 secondColonPos payload) in
    let zeroHex := AString.substring (secondColonPos + 1) thirdColonPos payload in
    let fullHex := AString.substringFrom (thirdColonPos + 1) payload in
    if (encoderIndex >=? 0) && (encoderIndex <? numEncoders) then
      updateEncoderLedDisplay encoderIndex
        (update_encoder encoderIndex
           (EncoderInfo.set_colors (hexToColor zeroHex) (hexToColor fullHex)) s)
    else Ok s
  else Ok s.

(** [B:rgb] or [B:hexcolor]. *)
Definition commandB (payload : string) (s : State) : State :=
  if AString.equalsIgnoreCase payload "rgb" then
    set_background BG_RGB (backgroundSolidColor s) s
  else set_background BG_SOLID (hexToColor payload) s.

(** [O:index], one-based. *)
Definition commandO (payload : string) (s : State) : State :=
  let requestedIndex := Int.wrap32 (AString.toInt payload - 1) in
  if (requestedIndex >=? 0) && (requestedIndex <? numButtons) then
    applyOutputSelection requestedIndex false s
  else s.

(** The newline branch of [handleSerialCommands]: the buffered line is
    interpreted, then the buffer is emptied. *)
Definition processLine (s : State) : result State :=
  let line := serialBuffer s in
  let colonPos := AString.indexOf ":" line in
  s <- (if colonPos >? 0 then
          let commandID := AString.charAt 0 line in
          let payload := AString.substringFrom (colonPos + 1) line in
          if Ascii.eqb commandID "V" then commandV payload s
          else if Ascii.eqb commandID "C" then commandC payload s
          else if Ascii.eqb commandID "B" then Ok (commandB payload s)
          else if Ascii.eqb commandID "O" then Ok (commandO payload s)
          else Ok s
        else Ok s) ;;
  Ok (set_serialBuffer EmptyString s).

(** One turn of the [while (Serial.available() > 0)] loop. *)
Definition receive (c : ascii) (s : State) : result State :=
  if Ascii.eqb c AString.LF then processLine s
  else Ok (set_serialBuffer (serialBuffer s ++ String c EmptyString)%string s).

Fixpoint handleSerialCommands (available : string) (s : State) : result State :=
  match available with
  | EmptyString => Ok s
  | String c rest => s' <- receive c s ;; handleSerialCommands rest s'
  end.

(** *** [loop] and [setup] *)

Definition loop (inp : Inputs) (s : State) : result State :=
  let s := encoderInterrupts (turns inp) s in
  s <- for_range 0 numEncoders pollEncoder s ;;
  s <- for_range 0 numEncoders (fun i => pollEncoderButton (encoderPoll inp i) i) s ;;
  s <- for_range 0 numButtons (fun i s => Ok (pollOutputButton (buttonPoll inp i) i s)) s ;;
  s <- handleSerialCommands (rx inp) s ;;
  Ok (sendEncoderValues (updateBackgroundLighting s)).

End Firmware.

(** The globals as their initialisers leave them. *)
Definition power_on : State :=
  mkState encoders_init buttons_init (-1) BG_SOLID (mkColor 0 50 0) 0
          EmptyString [] EmptyString.

Definition BOOT_BANNER : string :=
  ("=== deej boot (Serial " ++ AString.ofInt SERIAL_BAUD_RATE ++ ") ===")%string.

Definition setup : result State :=
  let s := Serial_println BOOT_BANNER power_on in
  let s :=
    fold_left (fun s bank =>
      let s := emit [DigitalWrite MUX_SELECT_PIN (if bank =? 0 then LOW else HIGH)] s in
      fold_left (fun s address =>
                   emit [WireTransmission address [DEVICE_CONFIG0; 0x40]] s)
                LED_CHIP_ADDRESSES s)
      (range 0 2) s in
  let s := emit [DigitalWrite MUX_SELECT_PIN LOW] s in
  let s := paint (List.map (fun i => (i, BLACK)) (range 1 (TOTAL_LEDS + 1))) s in
  s <- for_range 0 numEncoders
         (fun i s =>
            updateEncoderLedDisplay i
              (update_encoder i (fun e => EncoderInfo.setRawCount 0 (EncoderInfo.set_count 0 e)) s))
         s ;;
  Ok (applyOutputSelection 0 true s).

(** An idle pass: nothing turned, nothing pressed, nothing received. *)
Definition idle : Inputs :=
  mkInputs (fun _ => 0) (fun _ => mkPoll HIGH 0 0) (fun _ => mkPoll HIGH 0 0) EmptyString.

(** An idle pass during which the given bytes arrive. *)
Definition receiving (bytes : string) : Inputs :=
  mkInputs (fun _ => 0) (fun _ => mkPoll HIGH 0 0) (fun _ => mkPoll HIGH 0 0) bytes.

(** The program runs [setup] once and [loop] forever after. *)
Inductive reachable (K : spec_float) : State -> Prop :=
| reach_setup : forall s, setup = Ok s -> reachable K s
| reach_loop : forall inp s s',
    reachable K s -> loop K inp s = Ok s' -> reachable K s'.

(** * Vocabulary of the properties *)

(** The addressing map as the specification words it (section 4.3), with
    floor division and modulus. *)
Definition addressOf (n : Z) : option (Z * Z * Z) :=
  if (1 <=? n) && (n <=? TOTAL_LEDS) then
    let bank := (n - 1) / LEDS_PER_BANK in
    let chip := ((n - 1) mod LEDS_PER_BANK) / LEDS_PER_CHIP in
    let offsetInChip := ((n - 1) mod LEDS_PER_BANK) mod LEDS_PER_CHIP in
    match nth_error LED_CHIP_ADDRESSES (Z.to_nat chip) with
    | Some chipAddress => Some (bank, chipAddress, OUT0_COLOR_ADDR + 3 * offsetInChip)
    | None => None
    end
  else None.

(** The bus traffic of one [setSingleLedColor] call. *)
Definition ledEvents (n : Z) (c : Color) : list BusEvent :=
  match addressOf n with
  | None => []
  | Some (bank, chipAddress, register) =>
      [ DigitalWrite MUX_SELECT_PIN (if bank =? 0 then LOW else HIGH);
        WireTransmission chipAddress [register; r c; g c; b c] ]
  end.

(** The bus traffic of a run of [setSingleLedColor] calls. *)
Definition paintEvents (pixels : list (Z * Color)) : list BusEvent :=
  flat_map (fun p => ledEvents (fst p) (snd p)) pixels.

(** Equality of colours, channel by channel. *)
Definition Color_eqb (x y : Color) : bool :=
  (r x =? r y) && (g x =? g y) && (b x =? b y).

(** The colour each output button LED receives when output [i] is selected. *)
Definition selectionPixels (s : State) (i : Z) : list (Z * Color) :=
  List.map (fun j => (ButtonInfo.ledNum (button s j),
                      if j =? i then BUTTON_ACTIVE_COLOR else BUTTON_INACTIVE_COLOR))
           (range 0 numButtons).

(** What [Serial] receives when output [i] is selected from state [s]. *)
Definition selectionNotice (s : State) (i : Z) (notify : bool) : string :=
  if notify && negb (selectedOutputIndex s =? i)
  then ("O:" ++ AString.ofInt (i + 1) ++ AString.CRLF)%string
  else EmptyString.

(** The state of the example: detents 0, 100, 50, 0, 0, 0 and channel 1
    muted, everything else as after power-on. *)
Definition telemetry_example : State :=
  set_encoders
    (List.map (fun p => EncoderInfo.set_isMuted (snd (fst p))
                          (EncoderInfo.set_lastDetentPosition (snd p) (fst (fst p))))
       (combine (combine encoders_init [false; true; false; false; false; false])
                [0; 100; 50; 0; 0; 0]))
    power_on.

(** The background is not in the Off mode. *)
Definition backlit (s : State) : Prop := backgroundMode s <> BG_OFF.

(** The character occurs in the string. *)
Fixpoint hasChar (c : ascii) (s : string) : bool :=
  match s with
  | EmptyString => false
  | String a rest => Ascii.eqb a c || hasChar c rest
  end.

(** The identifiers the handler knows. *)
Definition knownCommand (c : ascii) : bool :=
  Ascii.eqb c "V" || Ascii.eqb c "C" || Ascii.eqb c "B" || Ascii.eqb c "O".

(** A line the handler discards: no colon, a colon in first position (an
    empty identifier), or an identifier other than V, C, B, O. *)
Definition notACommand (line : string) : bool :=
  negb (hasChar ":" line)
  || match line with String ":" _ => true | _ => false end
  || negb (knownCommand (AString.charAt 0 line)).

(** The computation did not stop on a division by zero. *)
Definition undivided {A : Type} (m : result A) : Prop := m <> Fault DivisionByZero.

(** The debouncer both button loops implement, on the pair of the last
    accepted level and the time of its acceptance. *)
Definition debounce (p : Poll) (d : PinLevel * Z) : PinLevel * Z :=
  if accepts p (fst d) (snd d) then (reading p, Int.wrapU32 (millisAtStamp p)) else d.

(** The reading is the press that triggers the action. *)
Definition fires (p : Poll) (d : PinLevel * Z) : bool :=
  accepts p (fst d) (snd d) && PinLevel_eqb (reading p) LOW.

(** The debouncer state of encoder button [i] and of output button [i]. *)
Definition encoderDebounce (s : State) (i : Z) : PinLevel * Z :=
  (EncoderInfo.lastButtonState (encoder s i), EncoderInfo.lastDebounceTime (encoder s i)).

Definition buttonDebounce (s : State) (i : Z) : PinLevel * Z :=
  (ButtonInfo.lastState (button s i), ButtonInfo.lastDebounceTime (button s i)).

(** The count of lit LEDs as the specification words it (section 4.4):
    round((v / V_MAX) * L), in exact arithmetic. *)
Definition litCount (v : Z) : Z :=
  Qround_away (inject_Z v / inject_Z MAX_ENCODER_VALUE * inject_Z ENCODER_LED_COUNT).

(** A channel at detent [v]. *)
Definition atDetent (v : Z) : EncoderInfo.t :=
  EncoderInfo.set_lastDetentPosition v noEncoder.

(** The state [setup] leaves. *)
Definition booted : State :=
  match setup with
  | Ok s => s
  | Fault _ => power_on
  end.

(** The detent is one the volume engine produces. *)
Definition detentInRange (e : EncoderInfo.t) : Prop :=
  0 <= EncoderInfo.lastDetentPosition e <= MAX_ENCODER_VALUE.

(** Every channel has its detent in 0..MAX_ENCODER_VALUE. *)
Definition detentsInRange (s : State) : Prop := Forall detentInRange (encoders s).

(** A colour whose channels are bytes. *)
Definition byteColor (c : Color) : Prop :=
  0 <= r c <= 255 /\ 0 <= g c <= 255 /\ 0 <= b c <= 255.

(** The LED a select-then-transmit pair addresses, and the colour it
    carries: the inverse of the addressing of [setSingleLedColor]. *)
Definition decodeWrite (events : list BusEvent) : option (Z * Color) :=
  match events with
  | [DigitalWrite pin level; WireTransmission address [register; red; green; blue]] =>
      if pin =? MUX_SELECT_PIN then
        let bank := match level with LOW => 0 | HIGH => 1 end in
        let chip := address - 0x30 in
        let slot := (register - OUT0_COLOR_ADDR) / 3 in
        Some (bank * LEDS_PER_BANK + chip * LEDS_PER_CHIP + slot + 1,
              mkColor red green blue)
      else None
  | _ => None
  end.

(** [1.0f], as the gradient computes it for the last position: 9 / 9. *)
Definition lastSegmentPercent : spec_float :=
  f32_div (f32_of_Z (ENCODER_LED_COUNT - 1)) (f32_of_Z (ENCODER_LED_COUNT - 1)).

(** The hexadecimal digit of a value in 0..15, in upper or lower case. *)
Definition hexDigit (upper : bool) (n : Z) : ascii :=
  AString.charAt n (if upper then "0123456789ABCDEF" else "0123456789abcdef")%string.

Definition hexByte (upper : bool) (v : Z) : string :=
  String (hexDigit upper (v / 16)) (String (hexDigit upper (v mod 16)) EmptyString).

(** The six-digit notation RRGGBB of a colour. *)
Definition toHex (upper : bool) (c : Color) : string :=
  (hexByte upper (r c) ++ hexByte upper (g c) ++ hexByte upper (b c))%string.

(** The fields of an encoder and of a button that describe the board. *)
Definition encoderWiring (e : EncoderInfo.t) :=
  (EncoderInfo.name e, EncoderInfo.btn_pin e, EncoderInfo.rotA_pin e, EncoderInfo.rotB_pin e,
   EncoderInfo.startLed e, EncoderInfo.ledOrder e, EncoderInfo.ledOrderLength e).

Definition buttonWiring (x : ButtonInfo.t) :=
  (ButtonInfo.name x, ButtonInfo.pin x, ButtonInfo.ledNum x).

(** The arrays have their sizes and describe the board as at power-on. *)
Definition wired (s : State) : Prop :=
  List.map encoderWiring (encoders s) = List.map encoderWiring encoders_init /\
  List.map buttonWiring (buttons s) = List.map buttonWiring buttons_init.

Definition byteStops (e : EncoderInfo.t) : Prop :=
  byteColor (EncoderInfo.zeroColor e) /\ byteColor (EncoderInfo.fullColor e).

(** The part of the invariant that the serial buffer does not enter. *)
Definition settled (s : State) : Prop :=
  wired s /\
  0 <= selectedOutputIndex s < numButtons /\
  0 <= rainbowHue s < 256 * 5 /\
  Forall byteStops (encoders s) /\
  byteColor (backgroundSolidColor s).

(** The buffer holds no newline: a newline is acted on, never stored. *)
Definition lineOpen (s : State) : Prop := hasChar AString.LF (serialBuffer s) = false.

(** The lines "O:k" printed for the outputs [ks], in order. *)
Definition notices (ks : list Z) : string :=
  fold_right (fun k rest => ("O:" ++ AString.ofInt k ++ AString.CRLF ++ rest)%string)
             EmptyString ks.

(** Only the encoder array and the bus trace differ. *)
Definition encodersAndBus (s s' : State) : Prop :=
  exists l events, s' = emit events (set_encoders l s).

(** The encoders, the background and the buffer are as before; the bus
    trace has grown and the outputs [ks] have been announced. *)
Definition selectionStep (ks : list Z) (s s' : State) : Prop :=
  exists bl sel events,
    s' = mkState (encoders s) bl sel (backgroundMode s) (backgroundSolidColor s)
                 (rainbowHue s) (serialBuffer s) (wire s ++ events)
                 (serialTx s ++ notices ks)%string.

(** The buttons, the rainbow phase and the serial output are as before;
    the bus trace has grown. *)
Definition commandStep (s s' : State) : Prop :=
  exists l sel m c buf events,
    s' = mkState l (buttons s) sel m c (rainbowHue s) buf (wire s ++ events) (serialTx s).

(** A state from which the rendering calls of a pass cannot fail. *)
Definition sound (s : State) : Prop := settled s /\ detentsInRange s.

(** The counter of the channel stands for a volume within the range and
    the detent is that volume, rounded: what [pollEncoder] looks for. *)
Definition atRest (K : spec_float) (e : EncoderInfo.t) : Prop :=
  let requested := encoderCountToVolume K (EncoderInfo.getRawCount e) in
  let clamped :=
    Arduino.constrain requested (S754_zero false) (f64_of_Z MAX_ENCODER_VALUE) in
  Fne requested clamped = false /\
  lround clamped = EncoderInfo.lastDetentPosition e.

(** Every character of the string satisfies the test. *)
Fixpoint allChars (test : ascii -> bool) (s : string) : bool :=
  match s with
  | EmptyString => true
  | String a rest => test a && allChars test rest
  end.

(** The number of occurrences of a character. *)
Fixpoint countChar (c : ascii) (s : string) : Z :=
  match s with
  | EmptyString => 0
  | String a rest => (if Ascii.eqb a c then 1 else 0) + countChar c rest
  end.

Definition isDecimalDigit (c : ascii) : bool :=
  (Ascii.leb "0" c && Ascii.leb c "9")%char.

(** A non-empty string of decimal digits. *)
Definition isField (s : string) : bool :=
  negb (String.eqb s EmptyString) && allChars isDecimalDigit s.

(** What a telemetry line is made of. *)
Definition telemetryChar (c : ascii) : bool := isDecimalDigit c || Ascii.eqb c "|".

(** A volume in hundredths as a host writes it: "0.00", ..., "1.00". *)
Definition hundredths (k : Z) : string :=
  String (hexDigit false (k / 100))
    (String "." (String (hexDigit false (k / 10 mod 10))
       (String (hexDigit false (k mod 10)) EmptyString))).

(** The line "V:i:x.xx". *)
Definition volumeLine (i k : Z) : string :=
  ("V:" ++ AString.ofInt i ++ ":" ++ hundredths k)%string.

(** What [processLine] and [commandV] read off the line "V:i:x.xx": a V
    command for channel [i] whose volume scales to the detent [k]. *)
Definition volumeLineParses (i k : Z) : bool :=
  let line := volumeLine i k in
  let colonPos := AString.indexOf ":" line in
  let payload := AString.substringFrom (colonPos + 1) line in
  let secondColonPos := AString.indexOf ":" payload in
  (colonPos >? 0)
  && Ascii.eqb (AString.charAt 0 line) "V"
  && (secondColonPos >? 0)
  && (AString.toInt (AString.substring 0 secondColonPos payload) =? i)
  && (lround (f64_of_f32
               (f32_mul (AString.toFloat (AString.substringFrom (secondColonPos + 1) payload))
                        (f32_of_Z MAX_ENCODER_VALUE))) =? k).

(** [atRest] as a test. *)
Definition atRestb (K : spec_float) (e : EncoderInfo.t) : bool :=
  negb (Fne (encoderCountToVolume K (EncoderInfo.getRawCount e))
            (Arduino.constrain (encoderCountToVolume K (EncoderInfo.getRawCount e))
               (S754_zero false) (f64_of_Z MAX_ENCODER_VALUE)))
  && (lround (Arduino.constrain (encoderCountToVolume K (EncoderInfo.getRawCount e))
                (S754_zero false) (f64_of_Z MAX_ENCODER_VALUE))
      =? EncoderInfo.lastDetentPosition e).

(** Six characters. *)
Definition six (a b c d e f : ascii) : string :=
  String a (String b (String c (String d (String e (String f EmptyString))))).

(** The line "C:i:RRGGBB:RRGGBB". *)
Definition colourLine (upper : bool) (i : Z) (zero full : Color) : string :=
  ("C:" ++ AString.ofInt i ++ ":" ++ toHex upper zero ++ ":" ++ toHex upper full)%string.

(** The payload "i:RRGGBB:RRGGBB", character by character. *)
Definition colourPayload (d h1 h2 h3 h4 h5 h6 h7 h8 h9 h10 h11 h12 : ascii) : string :=
  String d (String ":" (six h1 h2 h3 h4 h5 h6 ++ String ":" (six h7 h8 h9 h10 h11 h12))).

(** Two renderings light the same LEDs, the first one in the mute colour,
    or both read past the wiring table. *)
Definition sameLevelDimmed (dimmed lit : result (list (Z * Color))) : Prop :=
  match dimmed, lit with
  | Ok dimmed, Ok lit =>
      List.map fst dimmed = List.map fst lit /\
      Forall (fun px => snd px = MUTED_COLOR) dimmed
  | Fault _, Fault _ => True
  | _, _ => False
  end.

(** * Properties *)

(** ** Basic facts about the traces and the monad *)

Lemma emit_emit (xs ys : list BusEvent) (s : State) :
  emit ys (emit xs s) = emit (xs ++ ys) s.
Proof.
  unfold emit; cbn. now rewrite app_assoc.
Qed.

Lemma bind_Ok_inv {A B : Type} (m : result A) (k : A -> result B) (b : B) :
  bind m k = Ok b -> exists a, m = Ok a /\ k a = Ok b.
Proof.
  destruct m as [a | f]; cbn; intros H; [now exists a | discriminate].
Qed.

Lemma in_range (lo hi x : Z) : In x (range lo hi) <-> lo <= x < hi.
Proof.
  unfold range. rewrite in_map_iff. split.
  - intros (k & <- & Hk). apply in_seq in Hk. lia.
  - intros H. exists (Z.to_nat (x - lo)). split; [lia |]. apply in_seq. lia.
Qed.

(** ** LED addressing *)

Lemma chip_index_in_table (n : Z) :
  1 <= n <= TOTAL_LEDS ->
  0 <= ((n - 1) mod LEDS_PER_BANK) / LEDS_PER_CHIP < NUM_CHIPS_PER_BANK.
Proof.
  intros H. change LEDS_PER_BANK with 48. change LEDS_PER_CHIP with 12.
  change NUM_CHIPS_PER_BANK with 4.
  pose proof (Z.mod_pos_bound (n - 1) 48 ltac:(lia)) as Hm.
  split; [apply Z.div_pos; lia | apply Z.div_lt_upper_bound; lia].
Qed.

Lemma setSingleLedColor_addressOf (n : Z) (c : Color) (s : State) :
  (addressOf n = None <-> n < 1 \/ TOTAL_LEDS < n) /\
  setSingleLedColor n c s =
    match addressOf n with
    | None => s
    | Some (bank, chipAddress, register) =>
        emit [ DigitalWrite MUX_SELECT_PIN (if bank =? 0 then LOW else HIGH);
               WireTransmission chipAddress [register; r c; g c; b c] ] s
    end.
Proof.
  unfold addressOf, setSingleLedColor.
  destruct (Z.ltb_spec n 1) as [Hlo | Hlo].
  { replace (1 <=? n) with false by (symmetry; apply Z.leb_gt; lia).
    cbn. split; [split; [lia | reflexivity] | reflexivity]. }
  destruct (Z.leb_spec n TOTAL_LEDS) as [Hhi | Hhi].
  2:{ replace (n >? TOTAL_LEDS) with true by (symmetry; apply Z.gtb_lt; lia).
      rewrite andb_false_r, orb_true_r.
      split; [split; [lia | reflexivity] | reflexivity]. }
  replace (1 <=? n) with true by (symmetry; apply Z.leb_le; lia).
  replace (n >? TOTAL_LEDS) with false by (rewrite Z.gtb_ltb; symmetry; apply Z.ltb_ge; lia).
  cbn [andb orb].
  pose proof (chip_index_in_table n (conj Hlo Hhi)) as Hchip.
  assert (Hq : Z.quot (n - 1) LEDS_PER_BANK = (n - 1) / LEDS_PER_BANK)
    by (apply Z.quot_div_nonneg; [lia | reflexivity]).
  assert (Hr : Z.rem (n - 1) LEDS_PER_BANK = (n - 1) mod LEDS_PER_BANK)
    by (apply Z.rem_mod_nonneg; [lia | reflexivity]).
  pose proof (Z.mod_pos_bound (n - 1) LEDS_PER_BANK eq_refl) as Hm.
  rewrite Hq, Hr.
  rewrite (Z.quot_div_nonneg ((n - 1) mod LEDS_PER_BANK) LEDS_PER_CHIP) by (lia || reflexivity).
  rewrite (Z.rem_mod_nonneg ((n - 1) mod LEDS_PER_BANK) LEDS_PER_CHIP) by (lia || reflexivity).
  set (chip := ((n - 1) mod LEDS_PER_BANK) / LEDS_PER_CHIP) in *.
  set (off := ((n - 1) mod LEDS_PER_BANK) mod LEDS_PER_CHIP).
  assert (Hoff : 0 <= off < 12) by (apply Z.mod_pos_bound; reflexivity).
  destruct (nth_error LED_CHIP_ADDRESSES (Z.to_nat chip)) as [a |] eqn:Ha.
  2:{ apply nth_error_None in Ha. change (List.length LED_CHIP_ADDRESSES) with 4%nat in Ha.
      change NUM_CHIPS_PER_BANK with 4 in Hchip. lia. }
  split; [split; [discriminate | lia] |].
  rewrite emit_emit. cbn [app]. unfold at_index.
  rewrite (nth_error_nth _ _ 0 Ha).
  replace (Int.wrap8 (OUT0_COLOR_ADDR + off * 3)) with (OUT0_COLOR_ADDR + 3 * off); [reflexivity |].
  unfold Int.wrap8, OUT0_COLOR_ADDR. rewrite Z.mod_small; lia.
Qed.

(** C6. Writing a colour to a global LED index outside 1..TOTAL_LEDS does
    nothing at all (no pin is driven, no transmission is issued). Inside
    the range the call drives the bank-select pin to the level of bank
    (n-1) / LEDS_PER_BANK and then, after it, issues one transmission to
    the chip at index ((n-1) mod LEDS_PER_BANK) / LEDS_PER_CHIP of the
    table, carrying the register OUT0_COLOR_ADDR + 3 * (((n-1) mod
    LEDS_PER_BANK) mod LEDS_PER_CHIP) and the three colour bytes. *)
Theorem setSingleLedColor_addressing (n : Z) (c : Color) (s : State) :
  (addressOf n = None <-> n < 1 \/ TOTAL_LEDS < n) /\
  setSingleLedColor n c s =
    match addressOf n with
    | None => s
    | Some (bank, chipAddress, register) =>
        emit [ DigitalWrite MUX_SELECT_PIN (if bank =? 0 then LOW else HIGH);
               WireTransmission chipAddress [register; r c; g c; b c] ] s
    end.
Proof.
  exact (setSingleLedColor_addressOf n c s).
Qed.

Lemma emit_nil (s : State) : emit [] s = s.
Proof.
  destruct s; unfold emit; cbn. now rewrite app_nil_r.
Qed.

Lemma setSingleLedColor_emit (n : Z) (c : Color) (s : State) :
  setSingleLedColor n c s = emit (ledEvents n c) s.
Proof.
  destruct (setSingleLedColor_addressOf n c s) as [_ ->]. unfold ledEvents.
  destruct (addressOf n) as [[[bank chip] reg] |]; [reflexivity | now rewrite emit_nil].
Qed.

Lemma paint_emit (pixels : list (Z * Color)) (s : State) :
  paint pixels s = emit (paintEvents pixels) s.
Proof.
  unfold paint, paintEvents. revert s.
  induction pixels as [| p pixels IH]; intros s; cbn [fold_left flat_map].
  - now rewrite emit_nil.
  - now rewrite IH, setSingleLedColor_emit, emit_emit.
Qed.

(** ** Output selection *)

Lemma string_app_nil_r (x : string) : (x ++ "")%string = x.
Proof.
  induction x as [| c x IH]; cbn; [reflexivity | now rewrite IH].
Qed.

Lemma string_app_assoc (x y z : string) : ((x ++ y) ++ z)%string = (x ++ (y ++ z))%string.
Proof.
  induction x as [| c x IH]; cbn; [reflexivity | now rewrite IH].
Qed.

Lemma numButtons_cases (i : Z) :
  0 <= i < numButtons -> i = 0 \/ i = 1 \/ i = 2 \/ i = 3.
Proof.
  change numButtons with 4. lia.
Qed.

(** C7. Selecting output [i] with [i] in 0..numButtons-1 records [i] as
    the selection and sets every output button LED once, in button order:
    button [i]'s LED to the active colour and each other button's LED to
    the inactive colour, so exactly one LED is set active. With [i] out of
    range the state, LEDs included, is untouched. The line "O:<i+1>" is
    printed exactly when notification was requested and the selection
    differs from the previous one; otherwise nothing is printed. *)
Theorem applyOutputSelection_exclusive (i : Z) (notify : bool) (s : State) :
  let s' := applyOutputSelection i notify s in
  (i < 0 \/ numButtons <= i -> s' = s) /\
  (0 <= i < numButtons ->
     selectedOutputIndex s' = i /\
     wire s' = wire s ++ paintEvents (selectionPixels s i) /\
     (forall j, 0 <= j < numButtons ->
        nth_error (selectionPixels s i) (Z.to_nat j)
        = Some (ButtonInfo.ledNum (button s j),
                if j =? i then BUTTON_ACTIVE_COLOR else BUTTON_INACTIVE_COLOR)) /\
     List.length (filter (fun p => Color_eqb (snd p) BUTTON_ACTIVE_COLOR)
                         (selectionPixels s i)) = 1%nat /\
     serialTx s' = (serialTx s ++ selectionNotice s i notify)%string /\
     encoders s' = encoders s /\ buttons s' = buttons s /\
     backgroundMode s' = backgroundMode s /\ serialBuffer s' = serialBuffer s).
Proof.
  cbv zeta. unfold applyOutputSelection. split.
  - intros H.
    replace ((i <? 0) || (i >=? numButtons)) with true; [reflexivity |].
    symmetry. apply orb_true_iff. rewrite Z.ltb_lt, Z.geb_le. lia.
  - intros H.
    replace ((i <? 0) || (i >=? numButtons)) with false.
    2:{ symmetry. apply orb_false_iff. rewrite Z.ltb_ge, Z.geb_leb, Z.leb_gt. lia. }
    cbn [selectedOutputIndex set_selectedOutputIndex].
    change (List.map _ (range 0 numButtons)) with (selectionPixels s i).
    rewrite paint_emit.
    assert (Hnth : forall j, 0 <= j < numButtons ->
              nth_error (selectionPixels s i) (Z.to_nat j)
              = Some (ButtonInfo.ledNum (button s j),
                      if j =? i then BUTTON_ACTIVE_COLOR else BUTTON_INACTIVE_COLOR)).
    { intros j Hj. destruct (numButtons_cases j Hj) as [-> | [-> | [-> | ->]]]; reflexivity. }
    assert (Hone : List.length (filter (fun p => Color_eqb (snd p) BUTTON_ACTIVE_COLOR)
                                  (selectionPixels s i)) = 1%nat).
    { destruct (numButtons_cases i H) as [-> | [-> | [-> | ->]]]; reflexivity. }
    unfold selectionNotice.
    replace (Int.wrap32 (i + 1)) with (i + 1)
      by (destruct (numButtons_cases i H) as [-> | [-> | [-> | ->]]]; reflexivity).
    destruct (notify && negb (selectedOutputIndex s =? i)); cbn.
    + repeat split; auto. now rewrite string_app_assoc.
    + repeat split; auto. now rewrite string_app_nil_r.
Qed.

(** ** Telemetry *)

(** Array indices that are literals: [Pos.to_nat 3] to [3%nat]. *)
Ltac index_literals :=
  repeat match goal with
         | |- context [Pos.to_nat ?p] =>
             let n := eval vm_compute in (Pos.to_nat p) in
             change (Pos.to_nat p) with n
         | H : context [Pos.to_nat ?p] |- _ =>
             let n := eval vm_compute in (Pos.to_nat p) in
             change (Pos.to_nat p) with n in H
         end.

Lemma deejValue_zero (e : EncoderInfo.t) :
  EncoderInfo.lastDetentPosition e = 0 -> deejValue e = 0.
Proof.
  unfold deejValue. intros ->. now destruct (EncoderInfo.isMuted e).
Qed.

Lemma deejValue_muted (e : EncoderInfo.t) :
  EncoderInfo.isMuted e = true -> deejValue e = 0.
Proof.
  unfold deejValue. now intros ->.
Qed.

(** On the example of the specification the line printed is
    0|0|511|0|0|0 and not 0|0|512|0|0|0: [map] divides 50 * 1023 = 51150
    by 100 in integers. *)
Lemma telemetry_example_is_511 :
  List.map EncoderInfo.lastDetentPosition (encoders telemetry_example) = [0; 100; 50; 0; 0; 0] /\
  List.map EncoderInfo.isMuted (encoders telemetry_example)
    = [false; true; false; false; false; false] /\
  builtString telemetry_example = "0|0|511|0|0|0"%string /\
  serialTx (sendEncoderValues telemetry_example)
    <> (serialTx telemetry_example ++ "0|0|512|0|0|0" ++ AString.CRLF)%string.
Proof.
  repeat split; try reflexivity. vm_compute. discriminate.
Qed.

(** C1 (amended). With six channels at detents 0, 100, 50, 0, 0, 0,
    channel 1 muted and channel 2 not, [sendEncoderValues] prints exactly
    the line 0|0|511|0|0|0 (the muted channel forced to 0, the value 50
    rescaled by the truncating integer [map] to 511). *)
Theorem sendEncoderValues_example (s : State) :
  List.map EncoderInfo.lastDetentPosition (encoders s) = [0; 100; 50; 0; 0; 0] ->
  EncoderInfo.isMuted (encoder s 1) = true ->
  EncoderInfo.isMuted (encoder s 2) = false ->
  builtString s = "0|0|511|0|0|0"%string /\
  serialTx (sendEncoderValues s) = (serialTx s ++ "0|0|511|0|0|0" ++ AString.CRLF)%string.
Proof.
  intros Hd Hm1 Hm2.
  assert (Hline : builtString s = "0|0|511|0|0|0"%string).
  { unfold builtString, encoder, at_index in *.
    destruct (encoders s) as [| e0 [| e1 [| e2 [| e3 [| e4 [| e5 [| e6 l]]]]]]];
      try discriminate Hd.
    cbn in Hd, Hm1, Hm2. index_literals. injection Hd as H0 H1 H2 H3 H4 H5.
    change (range 0 numEncoders) with [0; 1; 2; 3; 4; 5].
    cbn -[deejValue AString.ofInt append]. index_literals.
    rewrite (deejValue_zero e0 H0), (deejValue_muted e1 Hm1), (deejValue_zero e3 H3),
      (deejValue_zero e4 H4), (deejValue_zero e5 H5).
    unfold deejValue. rewrite Hm2, H2. reflexivity. }
  split; [exact Hline |].
  unfold sendEncoderValues, Serial_println, Serial_print. cbn [serialTx].
  now rewrite Hline.
Qed.

Lemma sendEncoderValues_example_witness :
  builtString telemetry_example = "0|0|511|0|0|0"%string /\
  serialTx (sendEncoderValues telemetry_example)
  = (serialTx telemetry_example ++ "0|0|511|0|0|0" ++ AString.CRLF)%string.
Proof.
  apply (sendEncoderValues_example telemetry_example); reflexivity.
Defined.

(** ** Frame facts: who writes [backgroundMode] *)

Lemma updateEncoderLedDisplay_emit (i : Z) (s s' : State) :
  updateEncoderLedDisplay i s = Ok s' -> exists events, s' = emit events s.
Proof.
  unfold updateEncoderLedDisplay. intros H.
  apply bind_Ok_inv in H as (lit & _ & H).
  exists (paintEvents (clearedPixels (encoder s i) ++ lit)).
  rewrite <- paint_emit. congruence.
Qed.

Lemma applyOutputSelection_mode (i : Z) (notify : bool) (s : State) :
  backgroundMode (applyOutputSelection i notify s) = backgroundMode s.
Proof.
  unfold applyOutputSelection.
  destruct ((i <? 0) || (i >=? numButtons)); [reflexivity |].
  rewrite paint_emit.
  now destruct (notify && _).
Qed.

Section ModeFrame.

Variable K : spec_float.

Lemma iterate_invariant {S : Type} (P : S -> Prop) (body : Z -> S -> result S) :
  (forall i s s', P s -> body i s = Ok s' -> P s') ->
  forall n i s s', P s -> iterate n i body s = Ok s' -> P s'.
Proof.
  intros Hbody. induction n as [| n IH]; intros i s s' HP H; cbn in H.
  - now injection H as <-.
  - apply bind_Ok_inv in H as (s1 & H1 & H2). eauto.
Qed.

Lemma for_range_invariant {S : Type} (P : S -> Prop) (body : Z -> S -> result S)
      (lo hi : Z) (s s' : S) :
  (forall i s s', P s -> body i s = Ok s' -> P s') ->
  P s -> for_range lo hi body s = Ok s' -> P s'.
Proof.
  intros Hbody HP H. unfold for_range in H. eapply iterate_invariant; eauto.
Qed.

Lemma pollEncoder_mode (i : Z) (s s' : State) :
  pollEncoder K i s = Ok s' -> backgroundMode s' = backgroundMode s.
Proof.
  unfold pollEncoder. destruct (Fle K _); [now intros [= <-] |].
  intros H. apply bind_Ok_inv in H as (s1 & H1 & H2).
  assert (Hs1 : backgroundMode s1 = backgroundMode s).
  { destruct (Fne _ _); [| now injection H1 as <-].
    apply bind_Ok_inv in H1 as (c & _ & H1). now injection H1 as <-. }
  destruct (negb _); [| now injection H2 as <-].
  apply updateEncoderLedDisplay_emit in H2 as (ev & ->). exact Hs1.
Qed.

Lemma pollEncoderButton_mode (p : Poll) (i : Z) (s s' : State) :
  pollEncoderButton p i s = Ok s' -> backgroundMode s' = backgroundMode s.
Proof.
  unfold pollEncoderButton. destruct (accepts _ _ _); [| now intros [= <-]].
  destruct (reading p); [| now intros [= <-]].
  intros H. now apply updateEncoderLedDisplay_emit in H as (ev & ->).
Qed.

Lemma pollOutputButton_mode (p : Poll) (i : Z) (s : State) :
  backgroundMode (pollOutputButton p i s) = backgroundMode s.
Proof.
  unfold pollOutputButton. destruct (accepts _ _ _); [| reflexivity].
  destruct (reading p); [| reflexivity].
  now rewrite applyOutputSelection_mode.
Qed.

Lemma commandV_mode (payload : string) (s s' : State) :
  commandV K payload s = Ok s' -> backgroundMode s' = backgroundMode s.
Proof.
  unfold commandV. destruct (_ >? 0); [| now intros [= <-]].
  destruct (_ && _); [| now intros [= <-]].
  intros H. apply bind_Ok_inv in H as (c & _ & H).
  now apply updateEncoderLedDisplay_emit in H as (ev & ->).
Qed.

Lemma commandC_mode (payload : string) (s s' : State) :
  commandC payload s = Ok s' -> backgroundMode s' = backgroundMode s.
Proof.
  unfold commandC. destruct (_ && _); [| now intros [= <-]].
  destruct (_ && _); [| now intros [= <-]].
  intros H. now apply updateEncoderLedDisplay_emit in H as (ev & ->).
Qed.

Lemma commandB_mode (payload : string) (s : State) :
  backgroundMode (commandB payload s)
  = if AString.equalsIgnoreCase payload "rgb" then BG_RGB else BG_SOLID.
Proof.
  unfold commandB. now destruct (AString.equalsIgnoreCase payload "rgb").
Qed.

Lemma commandO_mode (payload : string) (s : State) :
  backgroundMode (commandO payload s) = backgroundMode s.
Proof.
  unfold commandO. destruct (_ && _); [| reflexivity].
  apply applyOutputSelection_mode.
Qed.

Lemma processLine_backlit (s s' : State) :
  backlit s -> processLine K s = Ok s' -> backlit s'.
Proof.
  unfold processLine, backlit. intros Hs H.
  apply bind_Ok_inv in H as (s1 & H1 & H2). injection H2 as <-.
  cbn [backgroundMode set_serialBuffer].
  destruct (_ >? 0); [| now injection H1 as <-].
  destruct (Ascii.eqb _ "V"); [now rewrite (commandV_mode _ _ _ H1) |].
  destruct (Ascii.eqb _ "C"); [now rewrite (commandC_mode _ _ _ H1) |].
  destruct (Ascii.eqb _ "B").
  { injection H1 as <-. rewrite commandB_mode. now destruct (AString.equalsIgnoreCase _ _). }
  destruct (Ascii.eqb _ "O"); injection H1 as <-; [now rewrite commandO_mode | assumption].
Qed.

Lemma handleSerialCommands_backlit (available : string) (s s' : State) :
  backlit s -> handleSerialCommands K available s = Ok s' -> backlit s'.
Proof.
  revert s. induction available as [| c rest IH]; intros s Hs H; cbn in H.
  - now injection H as <-.
  - apply bind_Ok_inv in H as (s1 & H1 & H2). apply (IH s1); [| exact H2].
    unfold receive in H1. destruct (Ascii.eqb c AString.LF).
    + eapply processLine_backlit; eauto.
    + now injection H1 as <-.
Qed.

Lemma updateBackgroundLighting_mode (s : State) :
  backgroundMode (updateBackgroundLighting s) = backgroundMode s.
Proof.
  unfold updateBackgroundLighting.
  destruct (backgroundMode s) eqn:E; rewrite paint_emit; cbn; exact E.
Qed.

Lemma loop_backlit (inp : Inputs) (s s' : State) :
  backlit s -> loop K inp s = Ok s' -> backlit s'.
Proof.
  unfold loop. intros Hs H.
  apply bind_Ok_inv in H as (s1 & H1 & H).
  apply bind_Ok_inv in H as (s2 & H2 & H).
  apply bind_Ok_inv in H as (s3 & H3 & H).
  apply bind_Ok_inv in H as (s4 & H4 & H).
  injection H as <-.
  assert (B1 : backlit s1).
  { eapply (for_range_invariant backlit) in H1; eauto.
    intros i t t' Ht E. unfold backlit. now rewrite (pollEncoder_mode _ _ _ E). }
  assert (B2 : backlit s2).
  { eapply (for_range_invariant backlit) in H2; eauto.
    intros i t t' Ht E. unfold backlit. now rewrite (pollEncoderButton_mode _ _ _ _ E). }
  assert (B3 : backlit s3).
  { eapply (for_range_invariant backlit) in H3; eauto.
    intros i t t' Ht [= <-]. unfold backlit. now rewrite pollOutputButton_mode. }
  assert (B4 : backlit s4) by (eapply handleSerialCommands_backlit; eauto).
  unfold backlit, sendEncoderValues. cbn [backgroundMode Serial_println Serial_print].
  now rewrite updateBackgroundLighting_mode.
Qed.

End ModeFrame.

Lemma setup_runs : exists s, setup = Ok s.
Proof.
  vm_compute. eexists. reflexivity.
Qed.

Lemma setup_mode (s : State) : setup = Ok s -> backgroundMode s = BG_SOLID.
Proof.
  intros H. destruct setup_runs as (s0 & E).
  assert (backgroundMode s0 = BG_SOLID).
  { revert E. vm_compute. now intros [= <-]. }
  congruence.
Qed.

(** C10. The background mode is Solid at power-on and after [setup]; the B
    command, the only writer, leaves it Rainbow when the payload is "rgb"
    in any letter case and Solid otherwise; hence no state reached by
    [setup] followed by any number of passes of [loop], whatever the
    inputs and the scale factor, has the mode Off. *)
Theorem background_never_off :
  backgroundMode power_on = BG_SOLID /\
  (forall payload s,
     backgroundMode (commandB payload s)
     = if AString.equalsIgnoreCase payload "rgb" then BG_RGB else BG_SOLID) /\
  (forall K s, reachable K s -> backgroundMode s <> BG_OFF).
Proof.
  split; [reflexivity |]. split; [exact commandB_mode |].
  intros K s H. induction H as [s H | inp s s' _ IH H].
  - rewrite (setup_mode s H). discriminate.
  - exact (loop_backlit K inp s s' IH H).
Qed.

(** ** Lines that are not commands *)

Lemma indexOfFrom_absent (c : ascii) (s : string) (pos : Z) :
  hasChar c s = false -> AString.indexOfFrom c s pos = -1.
Proof.
  revert pos. induction s as [| a rest IH]; intros pos H; cbn in *; [reflexivity |].
  apply orb_false_iff in H as [Ha Hrest]. rewrite Ha. now apply IH.
Qed.

Lemma hasChar_app (c : ascii) (x y : string) :
  hasChar c (x ++ y)%string = hasChar c x || hasChar c y.
Proof.
  induction x as [| a x IH]; cbn; [reflexivity | now rewrite IH, orb_assoc].
Qed.

Section Lines.

Variable K : spec_float.

Lemma processLine_discards (s : State) :
  notACommand (serialBuffer s) = true ->
  processLine K s = Ok (set_serialBuffer EmptyString s).
Proof.
  unfold notACommand, processLine. intros H.
  destruct (AString.indexOf ":" (serialBuffer s) >? 0) eqn:Hpos; [| reflexivity].
  apply Z.gtb_lt in Hpos.
  apply orb_true_iff in H as [H | H]; [apply orb_true_iff in H as [H | H] |].
  - apply negb_true_iff in H. unfold AString.indexOf in Hpos.
    rewrite (indexOfFrom_absent _ _ _ H) in Hpos. lia.
  - destruct (serialBuffer s) as [| a rest]; [discriminate |].
    unfold AString.indexOf in Hpos. cbn in Hpos.
    destruct (Ascii.eqb a ":") eqn:Ha; [lia |].
    apply Ascii.eqb_neq in Ha.
    destruct a as [[] [] [] [] [] [] [] []]; try discriminate H. now elim Ha.
  - apply negb_true_iff in H. unfold knownCommand in H.
    apply orb_false_iff in H as [H HO]. apply orb_false_iff in H as [H HB].
    apply orb_false_iff in H as [HV HC].
    now rewrite HV, HC, HB, HO.
Qed.

Lemma processLine_resets (s s' : State) :
  processLine K s = Ok s' -> serialBuffer s' = EmptyString.
Proof.
  unfold processLine. intros H.
  apply bind_Ok_inv in H as (s1 & _ & H). now injection H as <-.
Qed.

(** A complete line arriving byte by byte, its newline last. *)
Lemma handleSerialCommands_line (line : string) (s : State) :
  hasChar AString.LF line = false ->
  handleSerialCommands K (line ++ String AString.LF EmptyString) s
  = s' <- processLine K (set_serialBuffer (serialBuffer s ++ line) s) ;; Ok s'.
Proof.
  revert s. induction line as [| c rest IH]; intros s H.
  - cbn [append handleSerialCommands]. unfold receive.
    rewrite Ascii.eqb_refl, string_app_nil_r.
    replace (set_serialBuffer (serialBuffer s) s) with s by now destruct s.
    now destruct (processLine K s).
  - cbn in H. apply orb_false_iff in H as [Hc Hrest].
    cbn [append handleSerialCommands]. unfold receive at 1. rewrite Hc.
    cbn [bind]. rewrite (IH _ Hrest). cbn [serialBuffer set_serialBuffer].
    rewrite string_app_assoc. reflexivity.
Qed.

End Lines.

(** C9. Let a complete line arrive (its bytes, then the newline), the
    first part of it possibly buffered in an earlier pass. If the line has
    no colon, or starts with the colon, or its first character is not one
    of V, C, B, O, the handler succeeds and changes nothing but the line
    buffer, which it empties: channels, colours, mute flags, background,
    selection are as before and nothing is sent on the LED bus or on the
    serial line. And whenever the handler gets through a line, of any
    content, the buffer is empty afterwards. *)
Theorem discarded_lines_change_nothing (K : spec_float) :
  (forall (line : string) (s : State),
     hasChar AString.LF line = false ->
     notACommand (serialBuffer s ++ line) = true ->
     let after := handleSerialCommands K (line ++ String AString.LF EmptyString) s in
     after = Ok (set_serialBuffer EmptyString s) /\
     (serialBuffer s = EmptyString -> after = Ok s)) /\
  (forall (s : State),
     wire (set_serialBuffer EmptyString s) = wire s /\
     serialTx (set_serialBuffer EmptyString s) = serialTx s /\
     encoders (set_serialBuffer EmptyString s) = encoders s /\
     buttons (set_serialBuffer EmptyString s) = buttons s /\
     selectedOutputIndex (set_serialBuffer EmptyString s) = selectedOutputIndex s /\
     backgroundMode (set_serialBuffer EmptyString s) = backgroundMode s /\
     backgroundSolidColor (set_serialBuffer EmptyString s) = backgroundSolidColor s /\
     rainbowHue (set_serialBuffer EmptyString s) = rainbowHue s) /\
  (forall (line : string) (s s' : State),
     hasChar AString.LF line = false ->
     handleSerialCommands K (line ++ String AString.LF EmptyString) s = Ok s' ->
     serialBuffer s' = EmptyString).
Proof.
  split; [| split].
  - intros line s Hlf Hbad. cbv zeta.
    rewrite (handleSerialCommands_line K line s Hlf).
    rewrite processLine_discards by exact Hbad.
    cbn [bind]. split; [reflexivity |].
    intros Hempty. destruct s; cbn in *. now subst.
  - intros s. repeat split.
  - intros line s s' Hlf H.
    rewrite (handleSerialCommands_line K line s Hlf) in H.
    apply bind_Ok_inv in H as (s1 & H1 & H2). injection H2 as <-.
    exact (processLine_resets K _ _ H1).
Qed.

Lemma discarded_lines_witness :
  handleSerialCommands ENCODER_VOLUME_PER_COUNT
    ("X:foo" ++ String AString.LF EmptyString) power_on = Ok power_on.
Proof.
  destruct (discarded_lines_change_nothing ENCODER_VOLUME_PER_COUNT) as [H _].
  apply (H "X:foo"%string power_on); reflexivity.
Defined.

(** ** A misconfigured scale factor *)

Lemma undivided_bind {A B : Type} (m : result A) (k : A -> result B) :
  undivided m -> (forall a, m = Ok a -> undivided (k a)) -> undivided (bind m k).
Proof.
  unfold undivided. destruct m as [a | f]; cbn; intros Hm Hk; [now apply Hk |].
  intros [= ->]. now apply Hm.
Qed.

Lemma undivided_Ok {A : Type} (a : A) : undivided (Ok a).
Proof.
  discriminate.
Qed.

Lemma undivided_iterate {S : Type} (body : Z -> S -> result S) :
  (forall i s, undivided (body i s)) ->
  forall n i s, undivided (iterate n i body s).
Proof.
  intros Hbody. induction n as [| n IH]; intros i s; cbn.
  - apply undivided_Ok.
  - apply undivided_bind; [apply Hbody | intros; apply IH].
Qed.

Lemma undivided_mapM {A B : Type} (f : A -> result B) (l : list A) :
  (forall a, undivided (f a)) -> undivided (mapM f l).
Proof.
  intros Hf. induction l as [| x l IH]; cbn.
  - apply undivided_Ok.
  - apply undivided_bind; [apply Hf | intros y _].
    apply undivided_bind; [exact IH | intros; apply undivided_Ok].
Qed.

Lemma undivided_localLedIndex (enc : EncoderInfo.t) (i : Z) :
  undivided (localLedIndex enc i).
Proof.
  unfold localLedIndex, read_unchecked, undivided.
  destruct (EncoderInfo.ledOrder enc); [| discriminate].
  destruct (i <? 0); [discriminate |].
  destruct (nth_error _ _); discriminate.
Qed.

Lemma undivided_updateEncoderLedDisplay (i : Z) (s : State) :
  undivided (updateEncoderLedDisplay i s).
Proof.
  unfold updateEncoderLedDisplay.
  apply undivided_bind; [| intros; apply undivided_Ok].
  unfold litPixels. destruct (EncoderInfo.isMuted _); apply undivided_mapM; intros k.
  - unfold mutedPixel. apply undivided_bind;
      [apply undivided_localLedIndex | intros; apply undivided_Ok].
  - unfold gradientPixel. apply undivided_bind;
      [apply undivided_localLedIndex | intros; apply undivided_Ok].
Qed.

Section Misconfigured.

Variable K : spec_float.
Hypothesis K_not_positive : Fle K (S754_zero false) = true.

Lemma volumeToEncoderCount_disabled (volume : spec_float) :
  volumeToEncoderCount K volume = Ok 0.
Proof.
  unfold volumeToEncoderCount. now rewrite K_not_positive.
Qed.

Lemma pollEncoder_disabled (i : Z) (s : State) : pollEncoder K i s = Ok s.
Proof.
  unfold pollEncoder. now rewrite K_not_positive.
Qed.

Lemma pollEncoders_disabled (n : nat) (i : Z) (s : State) :
  iterate n i (pollEncoder K) s = Ok s.
Proof.
  revert i. induction n as [| n IH]; intros i; cbn; [reflexivity |].
  rewrite pollEncoder_disabled. cbn. apply IH.
Qed.

Lemma undivided_commandV (payload : string) (s : State) :
  undivided (commandV K payload s).
Proof.
  unfold commandV. destruct (_ >? 0); [| apply undivided_Ok].
  destruct (_ && _); [| apply undivided_Ok].
  rewrite volumeToEncoderCount_disabled. cbn [bind].
  apply undivided_updateEncoderLedDisplay.
Qed.

Lemma undivided_processLine (s : State) : undivided (processLine K s).
Proof.
  unfold processLine. apply undivided_bind; [| intros; apply undivided_Ok].
  destruct (_ >? 0); [| apply undivided_Ok].
  destruct (Ascii.eqb _ "V"); [apply undivided_commandV |].
  destruct (Ascii.eqb _ "C").
  { unfold commandC. destruct (_ && _); [| apply undivided_Ok].
    destruct (_ && _); [| apply undivided_Ok].
    apply undivided_updateEncoderLedDisplay. }
  destruct (Ascii.eqb _ "B"); [apply undivided_Ok |].
  destruct (Ascii.eqb _ "O"); apply undivided_Ok.
Qed.

Lemma undivided_handleSerialCommands (available : string) (s : State) :
  undivided (handleSerialCommands K available s).
Proof.
  revert s. induction available as [| c rest IH]; intros s; cbn.
  - apply undivided_Ok.
  - apply undivided_bind; [| intros; apply IH].
    unfold receive. destruct (Ascii.eqb c AString.LF);
      [apply undivided_processLine | apply undivided_Ok].
Qed.

Lemma undivided_loop (inp : Inputs) (s : State) : undivided (loop K inp s).
Proof.
  unfold loop, for_range. rewrite pollEncoders_disabled. cbn [bind].
  apply undivided_bind.
  { apply undivided_iterate. intros i t. unfold pollEncoderButton.
    destruct (accepts _ _ _); [| apply undivided_Ok].
    destruct (reading _); [apply undivided_updateEncoderLedDisplay | apply undivided_Ok]. }
  intros s2 _. apply undivided_bind.
  { apply undivided_iterate. intros; apply undivided_Ok. }
  intros s3 _. apply undivided_bind; [apply undivided_handleSerialCommands |].
  intros; apply undivided_Ok.
Qed.

End Misconfigured.

(** C4. When the scale factor is zero or negative, [volumeToEncoderCount]
    returns 0 for every volume without dividing; the encoder step of
    [loop] leaves the state of every channel as it found it (no clamping,
    no write-back to the counter, no rendering), for one channel and for
    the whole polling loop; and no pass of [loop], whatever it receives,
    stops on a division by zero. *)
Theorem nonpositive_scale_is_disabled (K : spec_float) :
  Fle K (S754_zero false) = true ->
  (forall volume, volumeToEncoderCount K volume = Ok 0) /\
  (forall i s, pollEncoder K i s = Ok s) /\
  (forall s, for_range 0 numEncoders (pollEncoder K) s = Ok s) /\
  (forall payload s, commandV K payload s <> Fault DivisionByZero) /\
  (forall inp s, loop K inp s <> Fault DivisionByZero).
Proof.
  intros HK. repeat split.
  - exact (volumeToEncoderCount_disabled K HK).
  - exact (pollEncoder_disabled K HK).
  - intros s. apply (pollEncoders_disabled K HK).
  - exact (undivided_commandV K HK).
  - exact (undivided_loop K HK).
Qed.

(** The scale factor -0.5, and a pass in which every encoder was turned. *)
Lemma nonpositive_scale_witness :
  volumeToEncoderCount (SFopp ENCODER_VOLUME_PER_COUNT) (f64_of_Z 50) = Ok 0 /\
  for_range 0 numEncoders (pollEncoder (SFopp ENCODER_VOLUME_PER_COUNT))
    (encoderInterrupts (fun _ => -7) power_on)
  = Ok (encoderInterrupts (fun _ => -7) power_on).
Proof.
  destruct (nonpositive_scale_is_disabled (SFopp ENCODER_VOLUME_PER_COUNT) eq_refl)
    as (H1 & _ & H3 & _).
  split; [apply H1 | apply H3].
Defined.

(** ** Debouncing *)

Lemma at_index_update_at {A : Type} (d : A) (f : A -> A) (l : list A) (i : Z) :
  0 <= i < Z.of_nat (List.length l) ->
  at_index d (update_at i f l) i = f (at_index d l i).
Proof.
  unfold at_index, update_at. intros H.
  replace (i <? 0) with false by (symmetry; apply Z.ltb_ge; lia).
  assert (Hn : (Z.to_nat i < List.length l)%nat) by lia.
  clear H. revert l Hn. induction (Z.to_nat i) as [| n IH]; intros [| x l] Hn; cbn in *;
    try lia; [reflexivity | apply IH; lia].
Qed.

Lemma length_update_at {A : Type} (f : A -> A) (l : list A) (i : Z) :
  List.length (update_at i f l) = List.length l.
Proof.
  unfold update_at. destruct (i <? 0); [reflexivity |].
  generalize (Z.to_nat i) as n. induction l as [| x l IH]; intros [| n]; cbn; auto.
Qed.

Lemma PinLevel_eqb_eq (x y : PinLevel) : PinLevel_eqb x y = true <-> x = y.
Proof.
  destruct x, y; cbn; split; congruence.
Qed.

Lemma accepts_iff (p : Poll) (lastState : PinLevel) (lastTime : Z) :
  accepts p lastState lastTime = true <->
  reading p <> lastState /\
  DEBOUNCE_DELAY < Int.wrapU32 (Int.wrapU32 (millisAtTest p) - lastTime).
Proof.
  unfold accepts, debounced. rewrite andb_true_iff, negb_true_iff, Z.gtb_lt.
  split; intros [H1 H2]; split; try exact H2.
  - intros E. apply PinLevel_eqb_eq in E. congruence.
  - destruct (PinLevel_eqb _ _) eqn:E; [| reflexivity]. apply PinLevel_eqb_eq in E. contradiction.
Qed.

(** Within the window after a stamp no reading is accepted. *)
Lemma debounce_window (q : Poll) (level : PinLevel) (stamp : Z) :
  Int.wrapU32 (Int.wrapU32 (millisAtTest q) - stamp) <= DEBOUNCE_DELAY ->
  debounce q (level, stamp) = (level, stamp).
Proof.
  unfold debounce, accepts, debounced. cbn [fst snd]. intros H.
  replace (_ >? DEBOUNCE_DELAY) with false; [now rewrite andb_false_r |].
  symmetry. rewrite Z.gtb_ltb. apply Z.ltb_ge. exact H.
Qed.

Lemma debounce_window_run (qs : list Poll) (level : PinLevel) (stamp : Z) :
  Forall (fun q => Int.wrapU32 (Int.wrapU32 (millisAtTest q) - stamp) <= DEBOUNCE_DELAY) qs ->
  fold_left (fun d q => debounce q d) qs (level, stamp) = (level, stamp).
Proof.
  induction 1 as [| q qs Hq _ IH]; cbn [fold_left]; [reflexivity |].
  now rewrite (debounce_window q level stamp Hq).
Qed.

(** [millis()] is the time since boot modulo 2^32: a reading taken at
    most 50 ms after the stamp is inside the window. *)
Lemma window_in_real_time (stamped now : Z) :
  0 <= now - stamped <= DEBOUNCE_DELAY ->
  Int.wrapU32 (Int.wrapU32 now - Int.wrapU32 stamped) <= DEBOUNCE_DELAY.
Proof.
  unfold Int.wrapU32, DEBOUNCE_DELAY. intros H.
  rewrite <- Zminus_mod. rewrite Z.mod_small; lia.
Qed.

Section Debounce.

Lemma pollEncoderButton_debounce (p : Poll) (i : Z) (s s' : State) :
  0 <= i < Z.of_nat (List.length (encoders s)) ->
  pollEncoderButton p i s = Ok s' ->
  encoderDebounce s' i = debounce p (encoderDebounce s i) /\
  EncoderInfo.isMuted (encoder s' i)
    = xorb (fires p (encoderDebounce s i)) (EncoderInfo.isMuted (encoder s i)) /\
  (fires p (encoderDebounce s i) = false -> wire s' = wire s) /\
  (accepts p (fst (encoderDebounce s i)) (snd (encoderDebounce s i)) = false -> s' = s).
Proof.
  intros Hi. unfold pollEncoderButton, debounce, fires, encoderDebounce. cbn [fst snd].
  destruct (accepts p _ _) eqn:Hacc.
  2:{ intros [= <-]. cbn [andb xorb]. repeat split. }
  destruct (reading p) eqn:Hr; cbn [andb PinLevel_eqb xorb].
  - intros H. apply updateEncoderLedDisplay_emit in H as (ev & ->).
    unfold encoder, update_encoder. cbn [encoders emit set_encoders].
    rewrite !at_index_update_at by (rewrite ?length_update_at; exact Hi).
    cbn. repeat split; discriminate.
  - intros [= <-]. unfold encoder, update_encoder. cbn [encoders set_encoders].
    rewrite !at_index_update_at by exact Hi.
    cbn. repeat split; discriminate.
Qed.

Lemma pollOutputButton_debounce (p : Poll) (i : Z) (s : State) :
  0 <= i < Z.of_nat (List.length (buttons s)) ->
  let s' := pollOutputButton p i s in
  let stamped :=
    update_button i (ButtonInfo.set_debounce (reading p) (Int.wrapU32 (millisAtStamp p))) s in
  buttonDebounce s' i = debounce p (buttonDebounce s i) /\
  s' = (if fires p (buttonDebounce s i) then applyOutputSelection i true stamped
        else if accepts p (fst (buttonDebounce s i)) (snd (buttonDebounce s i)) then stamped
        else s).
Proof.
  intros Hi. cbv zeta.
  unfold pollOutputButton, debounce, fires, buttonDebounce. cbn [fst snd].
  destruct (accepts p _ _) eqn:Hacc; [| split; reflexivity].
  assert (Hstamp : forall t,
            buttons t = buttons (update_button i
               (ButtonInfo.set_debounce (reading p) (Int.wrapU32 (millisAtStamp p))) s) ->
            (ButtonInfo.lastState (button t i), ButtonInfo.lastDebounceTime (button t i))
            = (reading p, Int.wrapU32 (millisAtStamp p))).
  { intros t Ht. unfold button. rewrite Ht. unfold update_button. cbn [buttons set_buttons].
    now rewrite at_index_update_at by exact Hi. }
  destruct (reading p) eqn:Hr; cbn [andb PinLevel_eqb]; split; try reflexivity.
  - apply Hstamp. unfold applyOutputSelection.
    destruct (_ || _); [reflexivity |]. rewrite paint_emit. now destruct (_ && _).
  - now apply Hstamp.
Qed.

End Debounce.

(** C8. For the push button of every encoder and for every output
    button: a reading becomes the new logical state exactly when it
    differs from the last accepted state and more than 50 ms (on the
    32-bit millisecond clock) separate the test from the last accepted
    transition, whose time is then stamped; any other reading leaves the
    program state untouched. Hence after a transition stamped at some
    time, every reading tested within the 50 ms that follow it is
    rejected, one by one and over any run of polls, so the logical state
    does not change twice inside the window. The mute flag is toggled,
    respectively [applyOutputSelection] is called, only by an accepted
    reading that is LOW. *)
Theorem debounce_accepts_once_per_window :
  (forall p lastState lastTime,
     accepts p lastState lastTime = true <->
     reading p <> lastState /\
     DEBOUNCE_DELAY < Int.wrapU32 (Int.wrapU32 (millisAtTest p) - lastTime)) /\
  (forall p i s s',
     0 <= i < Z.of_nat (List.length (encoders s)) ->
     pollEncoderButton p i s = Ok s' ->
     encoderDebounce s' i = debounce p (encoderDebounce s i) /\
     EncoderInfo.isMuted (encoder s' i)
       = xorb (fires p (encoderDebounce s i)) (EncoderInfo.isMuted (encoder s i)) /\
     (fires p (encoderDebounce s i) = false -> wire s' = wire s) /\
     (accepts p (fst (encoderDebounce s i)) (snd (encoderDebounce s i)) = false -> s' = s)) /\
  (forall p i s,
     0 <= i < Z.of_nat (List.length (buttons s)) ->
     let s' := pollOutputButton p i s in
     let stamped :=
       update_button i (ButtonInfo.set_debounce (reading p) (Int.wrapU32 (millisAtStamp p))) s in
     buttonDebounce s' i = debounce p (buttonDebounce s i) /\
     s' = (if fires p (buttonDebounce s i) then applyOutputSelection i true stamped
           else if accepts p (fst (buttonDebounce s i)) (snd (buttonDebounce s i)) then stamped
           else s)) /\
  (forall p d, fires p d = true -> accepts p (fst d) (snd d) = true /\ reading p = LOW) /\
  (forall p d qs,
     accepts p (fst d) (snd d) = true ->
     Forall (fun q => exists now,
               Int.wrapU32 now = Int.wrapU32 (millisAtTest q) /\
               0 <= now - millisAtStamp p <= DEBOUNCE_DELAY) qs ->
     fold_left (fun d q => debounce q d) qs (debounce p d) = debounce p d).
Proof.
  split; [exact accepts_iff |].
  split; [exact pollEncoderButton_debounce |].
  split; [exact pollOutputButton_debounce |].
  split.
  - intros p d H. unfold fires in H. apply andb_true_iff in H as [H1 H2].
    split; [exact H1 | now apply PinLevel_eqb_eq].
  - intros p d qs Hacc Hqs. unfold debounce at 2 3. rewrite Hacc.
    apply debounce_window_run. eapply Forall_impl; [| exact Hqs].
    cbn beta. intros q (now & Hnow & Hwin).
    rewrite <- Hnow. now apply window_in_real_time.
Qed.

(** ** Facts about the IEEE operations *)

Lemma iter_pos_nat {A : Type} (f : A -> A) (p : positive) (x : A) :
  iter_pos f p x = Nat.iter (Pos.to_nat p) f x.
Proof.
  revert x. induction p as [p IH | p IH |]; intros x; cbn [iter_pos].
  - rewrite !IH, Pos2Nat.inj_xI. cbn [Nat.iter Nat.mul].
    rewrite <- !Nat.iter_add, <- Nat.iter_succ_r. f_equal. lia.
  - rewrite !IH, Pos2Nat.inj_xO. rewrite <- !Nat.iter_add. f_equal. lia.
  - reflexivity.
Qed.

Lemma digits2_pos_log2 (m : positive) :
  Zpos (digits2_pos m) = Z.log2 (Zpos m) + 1.
Proof.
  induction m as [m IH | m IH |]; cbn [digits2_pos].
  - rewrite Pos2Z.inj_succ, IH. change (Zpos m~1) with (2 * Zpos m + 1).
    rewrite Z.log2_succ_double by lia. lia.
  - rewrite Pos2Z.inj_succ, IH. change (Zpos m~0) with (2 * Zpos m).
    rewrite Z.log2_double by lia. lia.
  - reflexivity.
Qed.

Lemma digits2_pos_bounds (m : positive) :
  2 ^ (Zpos (digits2_pos m) - 1) <= Zpos m < 2 ^ Zpos (digits2_pos m).
Proof.
  rewrite digits2_pos_log2.
  replace (Z.log2 (Zpos m) + 1 - 1) with (Z.log2 (Zpos m)) by lia.
  replace (Z.log2 (Zpos m) + 1) with (Z.succ (Z.log2 (Zpos m))) by lia.
  apply Z.log2_spec. lia.
Qed.

Lemma digits2_pos_unique (m : positive) (d : Z) :
  2 ^ (d - 1) <= Zpos m < 2 ^ d -> Zpos (digits2_pos m) = d.
Proof.
  intros H. rewrite digits2_pos_log2.
  assert (0 < d).
  { destruct (Z.lt_trichotomy d 0) as [Hd | [-> | Hd]]; [| cbn in H; lia | exact Hd].
    rewrite (Z.pow_neg_r 2 d) in H by lia. lia. }
  rewrite (Z.log2_unique (Zpos m) (d - 1)); [lia | lia |].
  now replace (Z.succ (d - 1)) with d by lia.
Qed.

(** [shr_1] halves the mantissa. *)
Lemma shr_1_m (mrs : shr_record) :
  0 <= shr_m mrs -> shr_m (shr_1 mrs) = shr_m mrs / 2.
Proof.
  destruct mrs as [m r s]. cbn [shr_m]. intros H.
  destruct m as [| [p | p |] | p]; cbn [shr_1 shr_m].
  - reflexivity.
  - change (Zpos p~1) with (2 * Zpos p + 1).
    apply Z.div_unique with 1; lia.
  - change (Zpos p~0) with (2 * Zpos p). apply Z.div_unique with 0; lia.
  - reflexivity.
  - lia.
Qed.

Lemma shr_iter_m (n : nat) (mrs : shr_record) :
  0 <= shr_m mrs -> shr_m (Nat.iter n shr_1 mrs) = shr_m mrs / 2 ^ Z.of_nat n.
Proof.
  intros H. induction n as [| n IH].
  - cbn. now rewrite Z.div_1_r.
  - rewrite Nat.iter_succ, shr_1_m.
    + rewrite IH, Nat2Z.inj_succ, Z.pow_succ_r by lia.
      rewrite Z.div_div by lia. f_equal. lia.
    + rewrite IH. apply Z.div_pos; lia.
Qed.

(** Shifting out zeros is exact. *)
Lemma shr_iter_exact (n : nat) (q : Z) :
  0 <= q ->
  Nat.iter n shr_1 (Build_shr_record (q * 2 ^ Z.of_nat n) false false)
  = Build_shr_record q false false.
Proof.
  intros Hq. revert q Hq. induction n as [| n IH]; intros q Hq.
  - cbn. now rewrite Z.mul_1_r.
  - rewrite Nat.iter_succ_r.
    replace (q * 2 ^ Z.of_nat (S n)) with (2 * (q * 2 ^ Z.of_nat n))
      by (rewrite Nat2Z.inj_succ, Z.pow_succ_r; lia).
    assert (Hh : shr_1 (Build_shr_record (2 * (q * 2 ^ Z.of_nat n)) false false)
                 = Build_shr_record (q * 2 ^ Z.of_nat n) false false).
    { assert (0 <= q * 2 ^ Z.of_nat n) by (apply Z.mul_nonneg_nonneg; lia).
      destruct (q * 2 ^ Z.of_nat n) as [| x | x]; [reflexivity | reflexivity | lia]. }
    rewrite Hh. now apply IH.
Qed.

Section Rounding.

Variables p emax : Z.

Lemma fexp_normal (e : Z) : 3 - emax - p <= e - p -> fexp p emax e = e - p.
Proof.
  unfold fexp, emin. lia.
Qed.

Lemma Zdigits2_shifted (q : positive) (k : Z) :
  0 <= k -> Zdigits2 (Zpos q * 2 ^ k) = Zpos (digits2_pos q) + k.
Proof.
  intros Hk. pose proof (digits2_pos_bounds q) as Hq.
  assert (Hpos : 0 < 2 ^ k) by (apply Z.pow_pos_nonneg; lia).
  assert (Hd : 0 < Zpos (digits2_pos q)) by lia.
  destruct (Zpos q * 2 ^ k) as [| x | x] eqn:E; try lia.
  cbn [Zdigits2]. apply digits2_pos_unique. rewrite <- E.
  replace (Zpos (digits2_pos q) + k - 1) with (Zpos (digits2_pos q) - 1 + k) by lia.
  rewrite !Z.pow_add_r by lia. nia.
Qed.

(** Rounding a number that already fits is the identity: [q] has [p]
    digits and is followed by [k] zeros. *)
Lemma shr_fexp_exact (q : positive) (k ex : Z) :
  0 <= k -> Zpos (digits2_pos q) = p -> 3 - emax - p <= ex + k ->
  shr_fexp p emax (Zpos q * 2 ^ k) ex loc_Exact
  = (Build_shr_record (Zpos q) false false, ex + k).
Proof.
  intros Hk Hq He. unfold shr_fexp.
  rewrite Zdigits2_shifted, Hq by exact Hk.
  rewrite fexp_normal by lia.
  replace (p + k + ex - p - ex) with k by lia.
  cbn [shr_record_of_loc]. unfold shr.
  destruct k as [| kp | kp]; [| | lia].
  - now rewrite Z.mul_1_r, Z.add_0_r.
  - rewrite iter_pos_nat. rewrite <- (positive_nat_Z kp) at 1.
    now rewrite shr_iter_exact by lia.
Qed.

Lemma binary_round_aux_exact (sx : bool) (q : positive) (k ex : Z) :
  0 <= k -> Zpos (digits2_pos q) = p -> 3 - emax - p <= ex + k <= emax - p ->
  binary_round_aux p emax sx (Zpos q * 2 ^ k) ex loc_Exact = S754_finite sx q (ex + k).
Proof.
  intros Hk Hq He. unfold binary_round_aux.
  rewrite shr_fexp_exact by (lia || assumption).
  cbn [shr_m loc_of_shr_record round_nearest_even].
  pose proof (shr_fexp_exact q 0 (ex + k) ltac:(lia) Hq ltac:(lia)) as H0.
  rewrite Z.mul_1_r, Z.add_0_r in H0. rewrite H0. cbn [shr_m].
  now replace (ex + k <=? emax - p) with true by (symmetry; apply Z.leb_le; lia).
Qed.

(** Rounding a longer mantissa: the result is finite, keeps the sign, has
    a full mantissa and an exponent at least that of the truncation. *)
Lemma binary_round_aux_normal (sx : bool) (mx : positive) (ex : Z) (lx : location) :
  let d := Zpos (digits2_pos mx) in
  1 <= p <= d -> 3 - emax - p <= d + ex - p -> d + ex + 1 <= emax ->
  exists m' e',
    binary_round_aux p emax sx (Zpos mx) ex lx = S754_finite sx m' e' /\
    Zpos (digits2_pos m') = p /\
    d + ex - p <= e' <= d + ex - p + 1.
Proof.
  intros d Hp Hmin Hmax. unfold binary_round_aux.
  set (k := d - p).
  assert (Hshift : exists mrs, shr_fexp p emax (Zpos mx) ex lx = (mrs, ex + k) /\
                               shr_m mrs = Zpos mx / 2 ^ k).
  { unfold shr_fexp. cbn [Zdigits2]. fold d. rewrite fexp_normal by lia.
    replace (d + ex - p - ex) with k by (unfold k; lia).
    assert (Hm : shr_m (shr_record_of_loc (Zpos mx) lx) = Zpos mx)
      by (destruct lx as [| []]; reflexivity).
    unfold shr. destruct k as [| kp | kp] eqn:Ek; [| | lia].
    - eexists. split; [now rewrite Z.add_0_r |]. now rewrite Hm, Z.div_1_r.
    - eexists. split; [reflexivity |].
      rewrite iter_pos_nat, shr_iter_m, Hm, positive_nat_Z by (rewrite Hm; lia).
      reflexivity. }
  destruct Hshift as (mrs & -> & Hq).
  pose proof (digits2_pos_bounds mx) as Hb. fold d in Hb.
  assert (Hk : 0 <= k) by (unfold k; lia).
  assert (Hqb : 2 ^ (p - 1) <= shr_m mrs < 2 ^ p).
  { rewrite Hq. replace d with (p + k) in Hb by (unfold k; lia).
    replace (p + k - 1) with (p - 1 + k) in Hb by lia.
    rewrite !Z.pow_add_r in Hb by lia.
    assert (0 < 2 ^ k) by (apply Z.pow_pos_nonneg; lia).
    split; [apply Z.div_le_lower_bound; lia | apply Z.div_lt_upper_bound; lia]. }
  set (q' := round_nearest_even (shr_m mrs) (loc_of_shr_record mrs)).
  assert (Hq' : q' = shr_m mrs \/ q' = shr_m mrs + 1).
  { unfold q', round_nearest_even. destruct (loc_of_shr_record mrs) as [| []]; auto.
    destruct (Z.even _); auto. }
  assert (Hp1 : 0 < 2 ^ (p - 1)) by (apply Z.pow_pos_nonneg; lia).
  assert (Hpp : 2 ^ p = 2 * 2 ^ (p - 1)).
  { replace p with (Z.succ (p - 1)) at 1 by lia. rewrite Z.pow_succ_r; lia. }
  destruct (Z.eq_dec q' (2 ^ p)) as [Hcarry | Hfit].
  - (* the mantissa overflowed to 2^p: one more shift *)
    assert (Hdig : Zdigits2 q' = p + 1).
    { rewrite Hcarry. destruct (2 ^ p) as [| x | x] eqn:E; try lia.
      cbn [Zdigits2]. apply digits2_pos_unique. rewrite <- E.
      replace (p + 1 - 1) with p by lia. rewrite Z.pow_add_r by lia. lia. }
    unfold shr_fexp. rewrite Hdig, fexp_normal by lia.
    replace (p + 1 + (ex + k) - p - (ex + k)) with 1 by lia.
    cbn [shr shr_record_of_loc iter_pos]. rewrite Hcarry.
    destruct (2 ^ p) as [| x | x] eqn:E; try lia.
    assert (Hx : exists y, x = xO y /\ Zpos y = 2 ^ (p - 1)).
    { destruct x as [y | y |]; [lia | exists y; split; [reflexivity | lia] | lia]. }
    destruct Hx as (y & -> & Hy). cbn [shr_1 shr_m].
    replace (ex + k + 1 <=? emax - p) with true by (symmetry; apply Z.leb_le; unfold k; lia).
    exists y, (ex + k + 1). split; [reflexivity |]. split; [| unfold k; lia].
    apply digits2_pos_unique. lia.
  - assert (Hrange : 2 ^ (p - 1) <= q' < 2 ^ p) by lia.
    destruct q' as [| x | x] eqn:E; try lia.
    assert (Hdig : Zpos (digits2_pos x) = p) by (apply digits2_pos_unique; lia).
    pose proof (shr_fexp_exact x 0 (ex + k) ltac:(lia) Hdig ltac:(unfold k; lia)) as H0.
    rewrite Z.mul_1_r, Z.add_0_r in H0. rewrite H0. cbn [shr_m].
    replace (ex + k <=? emax - p) with true by (symmetry; apply Z.leb_le; unfold k; lia).
    exists x, (ex + k). split; [reflexivity |]. split; [exact Hdig | unfold k; lia].
Qed.

End Rounding.

Lemma Pos_iter_xO (m : positive) (k : positive) :
  Zpos (Pos.iter xO m k) = Zpos m * 2 ^ Zpos k.
Proof.
  induction k as [| k IH] using Pos.peano_ind.
  - cbn. lia.
  - rewrite Pos.iter_succ, Pos2Z.inj_succ, Z.pow_succ_r by lia.
    change (Zpos (Pos.iter xO m k)~0) with (2 * Zpos (Pos.iter xO m k)). lia.
Qed.

(** [binary_round] of a mantissa of at most [p] digits is exact. *)
Lemma binary_round_short (p emax : Z) (sx : bool) (m : positive) (e : Z) :
  let d := Zpos (digits2_pos m) in
  d <= p -> 3 - emax - p <= d + e - p <= emax - p ->
  exists m',
    binary_round p emax sx m e = S754_finite sx m' (d + e - p) /\
    Zpos m' = Zpos m * 2 ^ (p - d) /\
    Zpos (digits2_pos m') = p.
Proof.
  intros d Hd He. unfold binary_round. fold d. rewrite fexp_normal by lia.
  unfold shl_align. replace (d + e - p - e) with (d - p) by lia.
  destruct (d - p) as [| x | x] eqn:Ex; [| lia |].
  - assert (d = p) by lia.
    pose proof (binary_round_aux_exact p emax sx m 0 e ltac:(lia) ltac:(lia) ltac:(lia)) as H0.
    rewrite Z.mul_1_r, Z.add_0_r in H0. rewrite H0.
    exists m. replace (p - d) with 0 by lia. replace (d + e - p) with e by lia.
    repeat split; lia.
  - assert (Hm : Zpos (Pos.iter xO m x) = Zpos m * 2 ^ (p - d))
      by (rewrite Pos_iter_xO; f_equal; f_equal; lia).
    assert (Hdig : Zpos (digits2_pos (Pos.iter xO m x)) = p).
    { pose proof (Zdigits2_shifted m (p - d) ltac:(lia)) as H. rewrite <- Hm in H.
      cbn [Zdigits2] in H. fold d in H. lia. }
    pose proof (binary_round_aux_exact p emax sx (Pos.iter xO m x) 0 (d + e - p)
                  ltac:(lia) Hdig ltac:(lia)) as H0.
    rewrite Z.mul_1_r, Z.add_0_r in H0. rewrite H0.
    exists (Pos.iter xO m x). repeat split; assumption.
Qed.

(** [float] to [double] loses nothing. *)
Lemma f64_of_f32_exact (s : bool) (m : positive) (e : Z) :
  Zpos (digits2_pos m) = prec32 -> -1000 <= e <= 900 ->
  exists m',
    f64_of_f32 (S754_finite s m e) = S754_finite s m' (e - 29) /\
    Zpos m' = Zpos m * 2 ^ 29.
Proof.
  intros Hd He. unfold f64_of_f32, binary_normalize.
  pose proof (binary_round_short prec64 emax64 s m e) as H.
  cbv zeta in H. rewrite Hd in H. unfold prec32, prec64, emax64 in *.
  destruct H as (m' & H & Hm & _); [lia | lia |].
  replace (24 + e - 53) with (e - 29) in H by lia.
  exists m'. split; [| exact Hm]. now destruct s; cbn [cond_Zopp Z.opp].
Qed.

(** Multiplying a normal [float] by 0.5 lowers its exponent by one. *)
Lemma f32_mul_half (s : bool) (m : positive) (e : Z) :
  Zpos (digits2_pos m) = prec32 -> -100 <= e <= 100 ->
  f32_mul (S754_finite s m e) ENCODER_VOLUME_PER_COUNT = S754_finite s m (e - 1).
Proof.
  intros Hd He. unfold f32_mul, ENCODER_VOLUME_PER_COUNT, SFmul.
  rewrite xorb_false_r, Pos2Z.inj_mul.
  change (Zpos 8388608) with (2 ^ 23).
  rewrite (binary_round_aux_exact prec32 emax32 s m 23 (e + -24))
    by (unfold prec32, emax32 in *; lia).
  f_equal. lia.
Qed.

(** The [float] nearest to a non-zero 32-bit integer. *)
Lemma f32_of_Z_shape (n : Z) :
  n <> 0 -> - 2 ^ 31 <= n <= 2 ^ 31 ->
  exists m e,
    f32_of_Z n = S754_finite (n <? 0) m e /\
    Zpos (digits2_pos m) = prec32 /\
    ((Z.abs n < 2 ^ 24 /\ -23 <= e <= 0 /\ Zpos m = Z.abs n * 2 ^ (- e)) \/
     (2 ^ 24 <= Z.abs n /\ 1 <= e <= 9)).
Proof.
  intros Hn Hr. unfold f32_of_Z, binary_normalize.
  assert (Hshape : forall sx x, Zpos x <= 2 ^ 31 ->
            exists m e, binary_round prec32 emax32 sx x 0 = S754_finite sx m e /\
                        Zpos (digits2_pos m) = prec32 /\
                        ((Zpos x < 2 ^ 24 /\ -23 <= e <= 0 /\ Zpos m = Zpos x * 2 ^ (- e)) \/
                         (2 ^ 24 <= Zpos x /\ 1 <= e <= 9))).
  { intros sx x Hx. pose proof (digits2_pos_bounds x) as Hb.
    set (d := Zpos (digits2_pos x)) in *.
    assert (Hd1 : 1 <= d) by (unfold d; lia).
    assert (Hd32 : d <= 32).
    { destruct (Z.le_gt_cases d 32) as [H | H]; [exact H |].
      assert (2 ^ 32 <= 2 ^ (d - 1)) by (apply Z.pow_le_mono_r; lia). lia. }
    destruct (Z.le_gt_cases d 24) as [Hshort | Hlong].
    - destruct (binary_round_short prec32 emax32 sx x 0) as (m & H & Hm & Hdig);
        fold d; unfold prec32, emax32; try lia.
      fold d in H. unfold prec32 in H, Hm, Hdig.
      exists m, (d + 0 - 24). split; [exact H |]. split; [exact Hdig |]. left.
      split; [| split; [lia |]].
      + assert (2 ^ d <= 2 ^ 24) by (apply Z.pow_le_mono_r; lia). lia.
      + rewrite Hm. f_equal. f_equal. lia.
    - unfold binary_round. fold d. rewrite fexp_normal by (unfold emax32, prec32; lia).
      unfold shl_align. replace (d + 0 - prec32 - 0) with (d - 24) by (unfold prec32; lia).
      destruct (d - 24) as [| k | k] eqn:Ek; try lia.
      destruct (binary_round_aux_normal prec32 emax32 sx x 0 loc_Exact)
        as (m & e & H & Hdig & He); fold d; unfold prec32, emax32; try lia.
      exists m, e. split; [exact H |]. split; [exact Hdig |]. right.
      fold d in He. unfold prec32 in He. split; [| lia].
      assert (2 ^ 24 <= 2 ^ (d - 1)) by (apply Z.pow_le_mono_r; lia). lia. }
  destruct n as [| x | x]; [congruence | |].
  - destruct (Hshape false x ltac:(lia)) as (m & e & H & Hd & Hc).
    exists m, e. repeat split; assumption.
  - destruct (Hshape true x ltac:(lia)) as (m & e & H & Hd & Hc).
    exists m, e. repeat split; assumption.
Qed.

(** ** Round trip between counts and volumes *)

(** The volume computed from a count that negates to [n]: its sign is
    that of [n], and its value is [n / 2] when [n] fits a [float]
    mantissa, at least [2 ^ 23] in magnitude otherwise. *)
Lemma half_of_count_shape (n : Z) :
  n <> 0 -> - 2 ^ 31 <= n <= 2 ^ 31 ->
  exists m e,
    f64_of_f32 (f32_mul (f32_of_Z n) ENCODER_VOLUME_PER_COUNT)
    = S754_finite (n <? 0) m e /\
    -53 <= e <= -21 /\
    ((2 * Zpos m = Z.abs n * 2 ^ (- e)) \/ (2 ^ 23 * 2 ^ (- e) <= Zpos m)).
Proof.
  intros Hn Hr.
  destruct (f32_of_Z_shape n Hn Hr) as (m1 & e1 & -> & Hd & Hc).
  rewrite f32_mul_half by (assumption || lia).
  destruct (f64_of_f32_exact (n <? 0) m1 (e1 - 1) Hd ltac:(lia)) as (m & -> & Hm).
  exists m, (e1 - 1 - 29). split; [reflexivity |]. split; [lia |].
  destruct Hc as [(_ & He & Hm1) | (_ & He)].
  - left. rewrite Hm, Hm1.
    replace (- (e1 - 1 - 29)) with (- e1 + 30) by lia.
    rewrite Z.pow_add_r by lia. lia.
  - right. rewrite Hm.
    pose proof (digits2_pos_bounds m1) as Hb. rewrite Hd in Hb. unfold prec32 in Hb.
    replace (2 ^ (24 - 1)) with (2 ^ 23) in Hb by reflexivity.
    assert (2 ^ (- (e1 - 1 - 29)) <= 2 ^ 29) by (apply Z.pow_le_mono_r; lia).
    assert (0 < 2 ^ (- (e1 - 1 - 29))) by (apply Z.pow_pos_nonneg; lia).
    nia.
Qed.

Lemma wrap32_opp (x : Z) :
  Int.in_long x ->
  - 2 ^ 31 <= Int.wrap32 (- x) <= 2 ^ 31 /\
  (x <> - 2 ^ 31 -> Int.wrap32 (- x) = - x) /\
  (x = - 2 ^ 31 -> Int.wrap32 (- x) = - 2 ^ 31).
Proof.
  unfold Int.in_long, Int.LONG_MIN, Int.LONG_MAX, Int.wrap32. intros H.
  destruct (Z.eq_dec x (- 2 ^ 31)) as [-> | Hx].
  - repeat split; try reflexivity; try (now intros E; elim E); cbn; lia.
  - rewrite Z.mod_small by lia. repeat split; try lia.
Qed.

(** Outside the counts -200..0 the computed volume is outside [0, 100]. *)
Lemma volume_out_of_range (rawCount : Z) :
  Int.in_long rawCount -> ~ (-200 <= rawCount <= 0) ->
  let volume := encoderCountToVolume ENCODER_VOLUME_PER_COUNT rawCount in
  Fle (S754_zero false) volume && Fle volume (f64_of_Z MAX_ENCODER_VALUE) = false.
Proof.
  intros Hlong Hout. cbv zeta. unfold encoderCountToVolume.
  destruct (wrap32_opp rawCount Hlong) as (Hn & Hsame & Hmin).
  set (n := Int.wrap32 (- rawCount)) in *.
  assert (Hcase : n < 0 \/ 200 < n).
  { destruct (Z.eq_dec rawCount (- 2 ^ 31)) as [E | E].
    - left. rewrite (Hmin E). lia.
    - rewrite (Hsame E). lia. }
  destruct (half_of_count_shape n ltac:(lia) Hn) as (m & e & -> & He & Hval).
  change (f64_of_Z MAX_ENCODER_VALUE) with (S754_finite false 7036874417766400 (-46)).
  unfold Fle, Fcompare, F2Q.
  replace (0 <=? e) with false by (symmetry; apply Z.leb_gt; lia).
  change (0 <=? -46) with false.
  assert (Hpow : 0 < 2 ^ (- e)) by (apply Z.pow_pos_nonneg; lia).
  unfold Qcompare. cbn [Qnum Qden]. rewrite Z2Pos.id by exact Hpow.
  change (Zpos (Z.to_pos (2 ^ (- -46)))) with (2 ^ 46).
  destruct Hcase as [Hneg | Hbig].
  - replace (n <? 0) with true by (symmetry; apply Z.ltb_lt; lia).
    cbn [cond_Zopp Z.opp]. now replace (0 * _ ?= Zneg m * 1) with Gt.
  - replace (n <? 0) with false by (symmetry; apply Z.ltb_ge; lia).
    cbn [cond_Zopp].
    replace (0 * Zpos (Z.to_pos (2 ^ (- e))) ?= Zpos m * 1) with Lt by reflexivity.
    cbn [andb].
    replace (Zpos m * 2 ^ 46 ?= 7036874417766400 * 2 ^ (- e)) with Gt; [reflexivity |].
    symmetry. apply Z.compare_gt_iff.
    change 7036874417766400 with (100 * 2 ^ 46).
    assert (0 < 2 ^ 46) by reflexivity.
    destruct Hval as [Hval | Hval].
    + rewrite Z.abs_eq in Hval by lia. nia.
    + assert (100 < 2 ^ 23) by reflexivity. nia.
Qed.

(** The counts -200..0, checked one by one. *)
Lemma round_trip_checked :
  forallb (fun rawCount =>
             match volumeToEncoderCount ENCODER_VOLUME_PER_COUNT
                     (encoderCountToVolume ENCODER_VOLUME_PER_COUNT rawCount) with
             | Ok c => c =? rawCount
             | Fault _ => false
             end)
          (range (-200) 1) = true.
Proof.
  vm_compute. reflexivity.
Qed.

(** C3. With the shipped scale factor (0.5 per count), every raw count
    [r] of type long whose volume [encoderCountToVolume r] lies in
    [0, V_MAX] is recovered by [volumeToEncoderCount]: the division is
    performed, and its rounded result is [r] itself. *)
Theorem count_volume_round_trip (r : Z) :
  Int.in_long r ->
  Fle (S754_zero false) (encoderCountToVolume ENCODER_VOLUME_PER_COUNT r) = true ->
  Fle (encoderCountToVolume ENCODER_VOLUME_PER_COUNT r) (f64_of_Z MAX_ENCODER_VALUE) = true ->
  volumeToEncoderCount ENCODER_VOLUME_PER_COUNT
    (encoderCountToVolume ENCODER_VOLUME_PER_COUNT r) = Ok r.
Proof.
  intros Hlong H0 H100.
  destruct (Z_le_dec (-200) r) as [Hlo | Hlo];
    [destruct (Z_le_dec r 0) as [Hhi | Hhi] |].
  - pose proof round_trip_checked as Hall. rewrite forallb_forall in Hall.
    specialize (Hall r ltac:(apply in_range; lia)).
    destruct (volumeToEncoderCount _ _) as [c | f]; [| discriminate].
    apply Z.eqb_eq in Hall. now subst.
  - pose proof (volume_out_of_range r Hlong ltac:(lia)) as Hout. cbv zeta in Hout.
    rewrite H0, H100 in Hout. discriminate.
  - pose proof (volume_out_of_range r Hlong ltac:(lia)) as Hout. cbv zeta in Hout.
    rewrite H0, H100 in Hout. discriminate.
Qed.

Lemma count_volume_round_trip_witness :
  volumeToEncoderCount ENCODER_VOLUME_PER_COUNT
    (encoderCountToVolume ENCODER_VOLUME_PER_COUNT (-137)) = Ok (-137).
Proof.
  apply (count_volume_round_trip (-137)).
  - unfold Int.in_long, Int.LONG_MIN, Int.LONG_MAX. lia.
  - reflexivity.
  - reflexivity.
Defined.

(** ** The lit segment of a channel *)

Lemma ledsToLight_atDetent (enc : EncoderInfo.t) :
  ledsToLight enc = ledsToLight (atDetent (EncoderInfo.lastDetentPosition enc)).
Proof.
  reflexivity.
Qed.

(** The detents 0..100, checked one by one: the binary32 computation of
    the firmware agrees with the exact formula, which is (v + 5) / 10. *)
Lemma ledsToLight_checked :
  forallb (fun v => (ledsToLight (atDetent v) =? litCount v)
                    && (litCount v =? (v + 5) / 10))
          (range 0 (MAX_ENCODER_VALUE + 1)) = true.
Proof.
  vm_compute. reflexivity.
Qed.

Lemma ledsToLight_in_range (enc : EncoderInfo.t) :
  0 <= EncoderInfo.lastDetentPosition enc <= MAX_ENCODER_VALUE ->
  ledsToLight enc = litCount (EncoderInfo.lastDetentPosition enc) /\
  ledsToLight enc = (EncoderInfo.lastDetentPosition enc + 5) / 10.
Proof.
  intros H. rewrite ledsToLight_atDetent.
  pose proof ledsToLight_checked as Hall. rewrite forallb_forall in Hall.
  specialize (Hall (EncoderInfo.lastDetentPosition enc)
                   ltac:(apply in_range; unfold MAX_ENCODER_VALUE in *; lia)).
  apply andb_true_iff in Hall as [H1 H2].
  apply Z.eqb_eq in H1, H2. split; congruence.
Qed.

Lemma mapM_Forall2 {A B : Type} (f : A -> result B) (l : list A) (ys : list B) :
  mapM f l = Ok ys -> Forall2 (fun x y => f x = Ok y) l ys.
Proof.
  revert ys. induction l as [| x l IH]; intros ys H; cbn in H.
  - injection H as <-. constructor.
  - apply bind_Ok_inv in H as (y & Hy & H).
    apply bind_Ok_inv in H as (ys' & Hys & H). injection H as <-.
    constructor; auto.
Qed.

Lemma mapM_total {A B : Type} (f : A -> result B) (l : list A) :
  Forall (fun x => exists y, f x = Ok y) l -> exists ys, mapM f l = Ok ys.
Proof.
  induction 1 as [| x l (y & Hy) _ (ys & Hys)]; cbn.
  - now exists [].
  - rewrite Hy, Hys. cbn. now exists (y :: ys).
Qed.

Lemma read_unchecked_Ok {A : Type} (l : list A) (i : Z) :
  0 <= i < Z.of_nat (List.length l) ->
  exists a, read_unchecked l i = Ok a /\ nth_error l (Z.to_nat i) = Some a.
Proof.
  intros H. unfold read_unchecked.
  replace (i <? 0) with false by (symmetry; apply Z.ltb_ge; lia).
  destruct (nth_error l (Z.to_nat i)) as [a |] eqn:E; [now exists a |].
  apply nth_error_None in E. lia.
Qed.

Lemma read_unchecked_nth {A : Type} (l : list A) (i : Z) (a : A) :
  read_unchecked l i = Ok a -> 0 <= i /\ nth_error l (Z.to_nat i) = Some a.
Proof.
  unfold read_unchecked. destruct (Z.ltb_spec i 0); [discriminate |].
  destruct (nth_error l (Z.to_nat i)); [| discriminate]. intros [= ->]. now split.
Qed.

(** The LED a lit pixel lands on. *)
Lemma litPixels_targets (enc : EncoderInfo.t) (order : list Z) (lit : list (Z * Color)) :
  EncoderInfo.ledOrder enc = Some order ->
  litPixels enc = Ok lit ->
  Forall2 (fun i px => 0 <= i /\
             exists localLed, nth_error order (Z.to_nat i) = Some localLed /\
                              fst px = EncoderInfo.startLed enc + localLed - 1)
          (range 0 (ledsToLight enc)) lit.
Proof.
  intros Horder H. unfold litPixels in H.
  assert (Hpix : forall f,
            (forall i px, f i = Ok px ->
               exists localLed, localLedIndex enc i = Ok localLed /\
                                fst px = EncoderInfo.startLed enc + localLed - 1) ->
            mapM f (range 0 (ledsToLight enc)) = Ok lit ->
            Forall2 (fun i px => 0 <= i /\
                       exists localLed, nth_error order (Z.to_nat i) = Some localLed /\
                                        fst px = EncoderInfo.startLed enc + localLed - 1)
                    (range 0 (ledsToLight enc)) lit).
  { intros f Hf Hm. apply mapM_Forall2 in Hm.
    eapply Forall2_impl; [| exact Hm]. cbn beta. intros i px Hi.
    destruct (Hf i px Hi) as (localLed & Hl & Hfst).
    unfold localLedIndex in Hl. rewrite Horder in Hl.
    apply read_unchecked_nth in Hl as [Hi0 Hn]. split; [exact Hi0 |]. now exists localLed. }
  destruct (EncoderInfo.isMuted enc); (eapply Hpix; [| exact H]); clear Hpix;
    intros i px Hi.
  - unfold mutedPixel in Hi. apply bind_Ok_inv in Hi as (localLed & Hl & Hi).
    injection Hi as <-. now exists localLed.
  - unfold gradientPixel in Hi. apply bind_Ok_inv in Hi as (localLed & Hl & Hi).
    injection Hi as <-. now exists localLed.
Qed.

Lemma Forall2_length_eq {A B : Type} (R : A -> B -> Prop) (xs : list A) (ys : list B) :
  Forall2 R xs ys -> List.length xs = List.length ys.
Proof.
  induction 1; cbn; congruence.
Qed.

Lemma range_length (lo hi : Z) : List.length (range lo hi) = Z.to_nat (hi - lo).
Proof.
  unfold range. now rewrite length_map, length_seq.
Qed.

Lemma range_NoDup (lo hi : Z) : NoDup (range lo hi).
Proof.
  unfold range. apply NoDup_map_NoDup_ForallPairs; [| apply seq_NoDup].
  intros x y _ _ H. lia.
Qed.

Lemma Forall2_In_r {A B : Type} (R : A -> B -> Prop) (xs : list A) (ys : list B) (y : B) :
  Forall2 R xs ys -> In y ys -> exists x, In x xs /\ R x y.
Proof.
  induction 1 as [| x y' xs ys Hxy _ IH]; cbn; [contradiction |].
  intros [<- | Hin]; [now exists x; auto |].
  destruct (IH Hin) as (x' & Hx' & HR). exists x'. auto.
Qed.

(** Distinct positions of a duplicate-free wiring table light distinct LEDs. *)
Lemma targets_NoDup (startLed : Z) (order : list Z)
      (idx : list Z) (lit : list (Z * Color)) :
  NoDup order -> NoDup idx ->
  Forall2 (fun i px => 0 <= i /\
             exists localLed, nth_error order (Z.to_nat i) = Some localLed /\
                              fst px = startLed + localLed - 1) idx lit ->
  NoDup (List.map fst lit).
Proof.
  intros Horder His H. induction H as [| i px idx lit (Hi & l & Hl & Hfst) H IH]; cbn.
  - constructor.
  - inversion His as [| ? ? Hnotin Hrest]; subst. constructor; [| now apply IH].
    intros Hin. apply in_map_iff in Hin as (px' & Hfst' & Hin').
    destruct (Forall2_In_r _ _ _ _ H Hin') as (j & Hj & (Hj0 & l' & Hl' & Hfst'')).
    assert (l = l') by lia. subst l'.
    rewrite NoDup_nth_error in Horder.
    assert (Z.to_nat i = Z.to_nat j).
    { apply Horder; [| congruence]. apply nth_error_Some. congruence. }
    assert (i = j) by lia. subst j. contradiction.
Qed.

Lemma litPixels_runs (enc : EncoderInfo.t) (order : list Z) :
  EncoderInfo.ledOrder enc = Some order ->
  ledsToLight enc <= Z.of_nat (List.length order) ->
  exists lit, litPixels enc = Ok lit.
Proof.
  intros Horder Hlen. unfold litPixels.
  assert (Hread : forall i, In i (range 0 (ledsToLight enc)) ->
            exists localLed, localLedIndex enc i = Ok localLed).
  { intros i Hi. apply in_range in Hi. unfold localLedIndex. rewrite Horder.
    destruct (read_unchecked_Ok order i ltac:(lia)) as (a & Ha & _). now exists a. }
  destruct (EncoderInfo.isMuted enc); apply mapM_total, Forall_forall; intros i Hi;
    destruct (Hread i Hi) as (localLed & Hl).
  - unfold mutedPixel. rewrite Hl. cbn. eauto.
  - unfold gradientPixel. rewrite Hl. cbn. eauto.
Qed.

(** C5. For a channel whose detent value [v] is in [0, V_MAX]: the count
    the rendering pass computes in binary32 is round((v / V_MAX) * L) of
    exact arithmetic, with L = 10, and lies in 0..L; when the wiring table
    has the L entries of the segment the pass lights exactly that many
    LEDs after clearing the segment, and distinct ones when the table has
    no duplicate; the count does not decrease when [v] grows within the
    range; it is 0 at v = 0 and L at v = V_MAX. *)
Theorem ledsToLight_is_rounded_share (enc : EncoderInfo.t) :
  0 <= EncoderInfo.lastDetentPosition enc <= MAX_ENCODER_VALUE ->
  ledsToLight enc = litCount (EncoderInfo.lastDetentPosition enc) /\
  0 <= ledsToLight enc <= ENCODER_LED_COUNT /\
  (forall order,
     EncoderInfo.ledOrder enc = Some order ->
     ENCODER_LED_COUNT <= Z.of_nat (List.length order) ->
     exists lit,
       litPixels enc = Ok lit /\
       Z.of_nat (List.length lit) = ledsToLight enc /\
       (NoDup order -> NoDup (List.map fst lit)) /\
       forall i s, encoder s i = enc ->
                   updateEncoderLedDisplay i s
                   = Ok (paint (clearedPixels enc ++ lit) s)) /\
  (forall enc',
     EncoderInfo.lastDetentPosition enc <= EncoderInfo.lastDetentPosition enc'
       <= MAX_ENCODER_VALUE ->
     ledsToLight enc <= ledsToLight enc') /\
  (EncoderInfo.lastDetentPosition enc = 0 -> ledsToLight enc = 0) /\
  (EncoderInfo.lastDetentPosition enc = MAX_ENCODER_VALUE -> ledsToLight enc = ENCODER_LED_COUNT).
Proof.
  intros Hv. destruct (ledsToLight_in_range enc Hv) as [Hspec Hdiv].
  unfold MAX_ENCODER_VALUE, ENCODER_LED_COUNT in *.
  assert (Hbound : 0 <= ledsToLight enc <= 10).
  { rewrite Hdiv. split; [apply Z.div_pos; lia |].
    assert ((EncoderInfo.lastDetentPosition enc + 5) / 10 < 11)
      by (apply Z.div_lt_upper_bound; lia).
    lia. }
  split; [exact Hspec |]. split; [exact Hbound |]. split; [| split; [| split]].
  - intros order Horder Hlen.
    destruct (litPixels_runs enc order Horder ltac:(lia)) as (lit & Hlit).
    pose proof (litPixels_targets enc order lit Horder Hlit) as Ht.
    exists lit. split; [exact Hlit |]. split; [| split].
    + rewrite <- (Forall2_length_eq _ _ _ Ht), range_length. lia.
    + intros Hnd. exact (targets_NoDup _ order _ lit Hnd (range_NoDup _ _) Ht).
    + intros i s Heq. unfold updateEncoderLedDisplay. rewrite Heq, Hlit. reflexivity.
  - intros enc' Hv'. destruct (ledsToLight_in_range enc' ltac:(unfold MAX_ENCODER_VALUE; lia)) as [_ Hdiv'].
    rewrite Hdiv, Hdiv'. apply Z.div_le_mono; lia.
  - intros H0. rewrite Hdiv, H0. reflexivity.
  - intros H100. rewrite Hdiv, H100. reflexivity.
Qed.

(** Channel E1 as shipped, at half volume: five LEDs. *)
Lemma ledsToLight_witness :
  ledsToLight (EncoderInfo.set_lastDetentPosition 50 (at_index noEncoder encoders_init 0))
  = litCount 50.
Proof.
  apply (ledsToLight_is_rounded_share
           (EncoderInfo.set_lastDetentPosition 50 (at_index noEncoder encoders_init 0))).
  unfold MAX_ENCODER_VALUE. cbn. lia.
Defined.

(** ** The range of the telemetry values *)

(** C2 (the code at two inputs the claim covers). After [setup], a pass
    of [loop] that receives the line V:0:-1 prints -1023 for channel 0,
    and a pass that receives V:0:1.04 prints 1063: the V command stores
    round(100 * fraction) without clamping it, and the telemetry of the
    same pass rescales that value. *)
Theorem volume_command_escapes_range :
  setup = Ok booted /\
  (exists s1,
     loop ENCODER_VOLUME_PER_COUNT
          (receiving ("V:0:-1" ++ String AString.LF EmptyString)) booted = Ok s1 /\
     EncoderInfo.lastDetentPosition (encoder s1 0) = -100 /\
     deejValue (encoder s1 0) = -1023 /\
     serialTx s1 = (serialTx booted ++ "-1023|0|0|0|0|0" ++ AString.CRLF)%string) /\
  (exists s2,
     loop ENCODER_VOLUME_PER_COUNT
          (receiving ("V:0:1.04" ++ String AString.LF EmptyString)) booted = Ok s2 /\
     EncoderInfo.lastDetentPosition (encoder s2 0) = 104 /\
     deejValue (encoder s2 0) = 1063 /\
     serialTx s2 = (serialTx booted ++ "1063|0|0|0|0|0" ++ AString.CRLF)%string).
Proof.
  split; [vm_compute; reflexivity |]. split.
  - eexists. split; [vm_compute; reflexivity |].
    split; [vm_compute; reflexivity |]. split; vm_compute; reflexivity.
  - eexists. split; [vm_compute; reflexivity |].
    split; [vm_compute; reflexivity |]. split; vm_compute; reflexivity.
Qed.

Lemma Qround_away_range (q : Q) (n : Z) :
  (0 <= q)%Q -> (q <= inject_Z n)%Q -> 0 <= Qround_away q <= n.
Proof.
  intros H0 Hn. unfold Qround_away.
  replace (Qle_bool 0 q) with true by (symmetry; now apply Qle_bool_iff).
  split.
  - change 0 with (Qfloor 0). apply Qfloor_resp_le.
    lra.
  - assert (H : (q + (1 # 2) < inject_Z (n + 1))%Q).
    { rewrite inject_Z_plus. change (inject_Z 1) with 1%Q. lra. }
    pose proof (Qfloor_le (q + (1 # 2))) as Hf.
    assert (Hlt : (inject_Z (Qfloor (q + (1 # 2))) < inject_Z (n + 1))%Q)
      by (eapply Qle_lt_trans; eauto).
    rewrite <- Zlt_Qlt in Hlt. lia.
Qed.

(** Whatever it is given, [constrain(x, 0.0, 100.0)] rounds into 0..100. *)
Lemma lround_constrain (x : spec_float) :
  0 <= lround (Arduino.constrain x (S754_zero false) (f64_of_Z MAX_ENCODER_VALUE))
    <= MAX_ENCODER_VALUE.
Proof.
  change (f64_of_Z MAX_ENCODER_VALUE) with (S754_finite false 7036874417766400 (-46)).
  unfold Arduino.constrain, Fgt, Flt, MAX_ENCODER_VALUE.
  destruct x as [[] | [] | | s m e]; try (cbn; lia).
  - unfold Fcompare.
    set (q := F2Q (S754_finite s m e)).
    change (F2Q (S754_zero false)) with 0%Q.
    set (c := F2Q (S754_finite false 7036874417766400 (-46))).
    assert (H100 : (c == 100)%Q) by reflexivity.
    assert (Hsat : forall z, 0 <= z <= 100 -> 0 <= Int.saturate32 z <= 100)
      by (unfold Int.saturate32, Int.LONG_MIN, Int.LONG_MAX; lia).
    assert (Hround : (0 <= q)%Q -> (q <= 100)%Q ->
                     0 <= lround (S754_finite s m e) <= 100).
    { intros H0 H1. unfold lround. fold q. apply Hsat.
      apply Qround_away_range; [exact H0 | exact H1]. }
    destruct (Qcompare q 0) eqn:E0; try (cbn; lia).
    + apply Qeq_alt in E0.
      destruct (Qcompare c q) eqn:E1; try (cbn; lia).
      * apply Qeq_alt in E1. lra.
      * apply Hround; lra.
    + rewrite <- Qgt_alt in E0.
      destruct (Qcompare c q) eqn:E1; try (cbn; lia).
      * apply Qeq_alt in E1. apply Hround; lra.
      * rewrite <- Qgt_alt in E1. apply Hround; lra.
Qed.

Lemma wrap32_small (z : Z) : - 2 ^ 31 <= z < 2 ^ 31 -> Int.wrap32 z = z.
Proof.
  intros H. unfold Int.wrap32. rewrite Z.mod_small; lia.
Qed.

Lemma deejValue_range (enc : EncoderInfo.t) :
  EncoderInfo.isMuted enc = true \/ detentInRange enc ->
  0 <= deejValue enc <= 1023.
Proof.
  unfold deejValue, detentInRange, MAX_ENCODER_VALUE.
  destruct (EncoderInfo.isMuted enc); [intros _; cbn; lia |].
  intros [H | H]; [discriminate |].
  set (v := EncoderInfo.lastDetentPosition enc) in *.
  unfold Arduino.map.
  change (Int.wrap32 (100 - 0)) with 100. change (100 =? 0) with false.
  change (Int.wrap32 (1023 - 0)) with 1023. cbv zeta.
  rewrite (wrap32_small v) by lia.
  rewrite Z.sub_0_r. rewrite (wrap32_small v) by lia.
  rewrite (wrap32_small (v * 1023)) by lia.
  rewrite Z.quot_div_nonneg by lia.
  assert (0 <= v * 1023 / 100 <= 1023).
  { split; [apply Z.div_pos; lia | apply Z.div_le_upper_bound; lia]. }
  rewrite Z.add_0_r, wrap32_small; lia.
Qed.

Lemma Forall_update_at {A : Type} (Q : A -> Prop) (f : A -> A) (l : list A) (i : Z) :
  Forall Q l -> (forall x, Q x -> Q (f x)) -> Forall Q (update_at i f l).
Proof.
  intros Hl Hf. unfold update_at. destruct (i <? 0); [exact Hl |].
  generalize (Z.to_nat i) as n. induction Hl as [| x l Hx Hl IH]; intros [| n]; cbn;
    constructor; auto.
Qed.

Lemma at_index_Forall {A : Type} (Q : A -> Prop) (d : A) (l : list A) (i : Z) :
  Q d -> Forall Q l -> Q (at_index d l i).
Proof.
  intros Hd Hl. unfold at_index. generalize (Z.to_nat i) as n.
  induction Hl as [| x l Hx Hl IH]; intros [| n]; cbn; auto.
Qed.

Lemma detentsInRange_encoder (s : State) (i : Z) :
  detentsInRange s -> detentInRange (encoder s i).
Proof.
  intros H. unfold encoder.
  apply (at_index_Forall detentInRange noEncoder (encoders s) i); [| exact H].
  unfold detentInRange, MAX_ENCODER_VALUE. cbn. lia.
Qed.

Lemma applyOutputSelection_encoders (i : Z) (notify : bool) (s : State) :
  encoders (applyOutputSelection i notify s) = encoders s /\
  serialBuffer (applyOutputSelection i notify s) = serialBuffer s.
Proof.
  unfold applyOutputSelection.
  destruct ((i <? 0) || (i >=? numButtons)); [now split |].
  rewrite paint_emit. now destruct (notify && _).
Qed.

Section DetentRange.

Variable K : spec_float.

(** The encoder step leaves a detent in 0..100 whatever it finds. *)
Lemma pollEncoder_clamps (i : Z) (s s' : State) :
  Fle K (S754_zero false) = false ->
  0 <= i < Z.of_nat (List.length (encoders s)) ->
  pollEncoder K i s = Ok s' ->
  detentInRange (encoder s' i).
Proof.
  intros HK Hi. unfold pollEncoder. rewrite HK. intros H.
  apply bind_Ok_inv in H as (s1 & H1 & H2).
  set (current := lround _) in H2.
  assert (Hc : 0 <= current <= MAX_ENCODER_VALUE) by apply lround_constrain.
  assert (Hlen : List.length (encoders s1) = List.length (encoders s)).
  { destruct (Fne _ _); [| now injection H1 as <-].
    apply bind_Ok_inv in H1 as (c & _ & H1). injection H1 as <-.
    unfold update_encoder. cbn. apply length_update_at. }
  destruct (current =? EncoderInfo.lastDetentPosition (encoder s1 i)) eqn:E; cbn [negb] in H2.
  - injection H2 as <-. apply Z.eqb_eq in E. unfold detentInRange. now rewrite <- E.
  - apply updateEncoderLedDisplay_emit in H2 as (ev & ->).
    unfold encoder, update_encoder. cbn [encoders emit set_encoders].
    rewrite at_index_update_at by (rewrite Hlen; exact Hi).
    exact Hc.
Qed.

Lemma pollEncoder_keeps (i : Z) (s s' : State) :
  detentsInRange s -> pollEncoder K i s = Ok s' -> detentsInRange s'.
Proof.
  intros Hs. unfold pollEncoder. destruct (Fle K _); [now intros [= <-] |]. intros H.
  apply bind_Ok_inv in H as (s1 & H1 & H2).
  assert (Hs1 : detentsInRange s1).
  { destruct (Fne _ _); [| now injection H1 as <-].
    apply bind_Ok_inv in H1 as (c & _ & H1). injection H1 as <-.
    apply Forall_update_at; [exact Hs | auto]. }
  destruct (negb _); [| now injection H2 as <-].
  apply updateEncoderLedDisplay_emit in H2 as (ev & ->).
  apply Forall_update_at; [exact Hs1 |]. intros x _. apply lround_constrain.
Qed.

Lemma pollEncoderButton_keeps (p : Poll) (i : Z) (s s' : State) :
  detentsInRange s -> pollEncoderButton p i s = Ok s' ->
  detentsInRange s' /\ serialBuffer s' = serialBuffer s.
Proof.
  intros Hs. unfold pollEncoderButton. destruct (accepts _ _ _); [| now intros [= <-]].
  assert (Hs1 : detentsInRange
                  (update_encoder i (EncoderInfo.set_debounce (reading p)
                                       (Int.wrapU32 (millisAtStamp p))) s))
    by (apply Forall_update_at; [exact Hs | auto]).
  destruct (reading p); [| now intros [= <-]].
  intros H. apply updateEncoderLedDisplay_emit in H as (ev & ->). split; [| reflexivity].
  apply Forall_update_at; [exact Hs1 | auto].
Qed.

Lemma pollOutputButton_keeps (p : Poll) (i : Z) (s : State) :
  encoders (pollOutputButton p i s) = encoders s /\
  serialBuffer (pollOutputButton p i s) = serialBuffer s.
Proof.
  unfold pollOutputButton. destruct (accepts _ _ _); [| now split].
  destruct (reading p); [| now split].
  destruct (applyOutputSelection_encoders i true
              (update_button i (ButtonInfo.set_debounce LOW (Int.wrapU32 (millisAtStamp p))) s))
    as [-> ->].
  now split.
Qed.

Lemma pollEncoder_buffer (i : Z) (s s' : State) :
  pollEncoder K i s = Ok s' -> serialBuffer s' = serialBuffer s.
Proof.
  unfold pollEncoder. destruct (Fle K _); [now intros [= <-] |]. intros H.
  apply bind_Ok_inv in H as (s1 & H1 & H2).
  assert (Hs1 : serialBuffer s1 = serialBuffer s).
  { destruct (Fne _ _); [| now injection H1 as <-].
    apply bind_Ok_inv in H1 as (c & _ & H1). now injection H1 as <-. }
  destruct (negb _); [| now injection H2 as <-].
  now apply updateEncoderLedDisplay_emit in H2 as (ev & ->).
Qed.

(** A line that does not start with V keeps the detents. *)
Lemma processLine_keeps (s s' : State) :
  detentsInRange s -> hasChar "V" (serialBuffer s) = false ->
  processLine K s = Ok s' -> detentsInRange s'.
Proof.
  intros Hs HV. unfold processLine. intros H.
  apply bind_Ok_inv in H as (s1 & H1 & H2). injection H2 as <-.
  unfold detentsInRange. cbn [encoders set_serialBuffer].
  destruct (_ >? 0); [| now injection H1 as <-].
  assert (Hid : Ascii.eqb (AString.charAt 0 (serialBuffer s)) "V" = false).
  { destruct (serialBuffer s) as [| a rest]; [reflexivity |].
    cbn in HV. apply orb_false_iff in HV as [Ha _]. exact Ha. }
  rewrite Hid in H1.
  destruct (Ascii.eqb _ "C").
  { unfold commandC in H1. destruct (_ && _); [| now injection H1 as <-].
    destruct (_ && _); [| now injection H1 as <-].
    apply updateEncoderLedDisplay_emit in H1 as (ev & ->).
    apply Forall_update_at; [exact Hs | auto]. }
  destruct (Ascii.eqb _ "B").
  { injection H1 as <-. unfold commandB. now destruct (AString.equalsIgnoreCase _ _). }
  destruct (Ascii.eqb _ "O"); injection H1 as <-; [| exact Hs].
  unfold commandO. destruct (_ && _); [| exact Hs].
  destruct (applyOutputSelection_encoders
              (Int.wrap32 (AString.toInt (AString.substringFrom
                 (AString.indexOf ":" (serialBuffer s) + 1) (serialBuffer s)) - 1)) false s)
    as [-> _].
  exact Hs.
Qed.

Lemma handleSerialCommands_keeps (available : string) (s s' : State) :
  detentsInRange s ->
  hasChar "V" (serialBuffer s ++ available) = false ->
  handleSerialCommands K available s = Ok s' ->
  detentsInRange s' /\ hasChar "V" (serialBuffer s') = false.
Proof.
  revert s. induction available as [| c rest IH]; intros s Hs HV H; cbn in H.
  - injection H as <-. now rewrite string_app_nil_r in HV.
  - apply bind_Ok_inv in H as (s1 & H1 & H2).
    rewrite hasChar_app in HV. apply orb_false_iff in HV as [Hbuf Hrest].
    cbn in Hrest. apply orb_false_iff in Hrest as [Hc Hrest].
    apply (IH s1); [| | exact H2]; unfold receive in H1; destruct (Ascii.eqb c AString.LF).
    + eapply processLine_keeps; eauto.
    + now injection H1 as <-.
    + rewrite (processLine_resets K s s1 H1). exact Hrest.
    + injection H1 as <-. cbn [serialBuffer set_serialBuffer].
      rewrite !hasChar_app. cbn. now rewrite Hbuf, Hc, Hrest.
Qed.

End DetentRange.

Lemma encoderInterrupts_keeps (turn : Z -> Z) (s : State) :
  detentsInRange s ->
  detentsInRange (encoderInterrupts turn s) /\
  serialBuffer (encoderInterrupts turn s) = serialBuffer s.
Proof.
  intros Hs. unfold encoderInterrupts.
  assert (H : forall l t, detentsInRange t ->
            detentsInRange
              (fold_left (fun s i =>
                 update_encoder i (fun e =>
                   EncoderInfo.set_count (Int.wrap64 (EncoderInfo.count e + turn i)) e) s) l t)
            /\ serialBuffer
                 (fold_left (fun s i =>
                    update_encoder i (fun e =>
                      EncoderInfo.set_count (Int.wrap64 (EncoderInfo.count e + turn i)) e) s) l t)
               = serialBuffer t).
  { induction l as [| i l IH]; intros t Ht; cbn [fold_left]; [now split |].
    destruct (IH (update_encoder i (fun e =>
                    EncoderInfo.set_count (Int.wrap64 (EncoderInfo.count e + turn i)) e) t))
      as [H1 H2]; [apply Forall_update_at; [exact Ht | auto] |].
    split; [exact H1 | exact H2]. }
  now apply H.
Qed.

Lemma builtString_encoders (s t : State) :
  encoders s = encoders t -> builtString s = builtString t.
Proof.
  unfold builtString, encoder. now intros ->.
Qed.

(** X1. A pass of [loop] that executes no V command (no byte V is
    buffered or received) keeps every detent in 0..100, and every value it
    prints is in 0..1023. *)
Theorem loop_without_V_in_range (K : spec_float) (inp : Inputs) (s s' : State) :
  detentsInRange s ->
  hasChar "V" (serialBuffer s ++ rx inp) = false ->
  loop K inp s = Ok s' ->
  detentsInRange s' /\
  hasChar "V" (serialBuffer s') = false /\
  (forall i, 0 <= deejValue (encoder s' i) <= 1023) /\
  exists before, serialTx s' = (before ++ builtString s' ++ AString.CRLF)%string.
Proof.
  intros Hs HV H. unfold loop in H.
  apply bind_Ok_inv in H as (s1 & H1 & H).
  apply bind_Ok_inv in H as (s2 & H2 & H).
  apply bind_Ok_inv in H as (s3 & H3 & H).
  apply bind_Ok_inv in H as (s4 & H4 & H).
  injection H as <-.
  set (P := fun t : State => detentsInRange t /\ serialBuffer t = serialBuffer s).
  destruct (encoderInterrupts_keeps (turns inp) s Hs) as [E0 B0].
  assert (P1 : P s1).
  { refine (for_range_invariant P _ _ _ _ _ _ (conj E0 B0) H1).
    intros i t t' [Ht Hb] E. split; [eapply pollEncoder_keeps; eauto |].
    now rewrite (pollEncoder_buffer K _ _ _ E). }
  assert (P2 : P s2).
  { refine (for_range_invariant P _ _ _ _ _ _ P1 H2).
    intros i t t' [Ht Hb] E. destruct (pollEncoderButton_keeps _ _ _ _ Ht E) as [H5 H6].
    split; [exact H5 | congruence]. }
  assert (P3 : P s3).
  { refine (for_range_invariant P _ _ _ _ _ _ P2 H3).
    intros i t t' [Ht Hb] [= <-]. destruct (pollOutputButton_keeps (buttonPoll inp i) i t) as [H5 H6].
    split; [unfold detentsInRange; now rewrite H5 | congruence]. }
  destruct P3 as [D3 B3].
  destruct (handleSerialCommands_keeps K (rx inp) s3 s4 D3 ltac:(now rewrite B3) H4)
    as [D4 V4].
  assert (Henc : encoders (updateBackgroundLighting s4) = encoders s4
                 /\ serialBuffer (updateBackgroundLighting s4) = serialBuffer s4).
  { unfold updateBackgroundLighting.
    destruct (backgroundMode s4); rewrite paint_emit; now split. }
  destruct Henc as [Henc Hbuf].
  assert (D5 : detentsInRange (sendEncoderValues (updateBackgroundLighting s4))).
  { unfold detentsInRange, sendEncoderValues. cbn [encoders Serial_println Serial_print].
    now rewrite Henc. }
  split; [exact D5 |]. split; [| split].
  - unfold sendEncoderValues. cbn [serialBuffer Serial_println Serial_print]. now rewrite Hbuf.
  - intros i. apply deejValue_range. right. now apply detentsInRange_encoder.
  - exists (serialTx (updateBackgroundLighting s4)).
    rewrite (builtString_encoders (sendEncoderValues (updateBackgroundLighting s4))
               (updateBackgroundLighting s4) eq_refl).
    reflexivity.
Qed.

Lemma loop_without_V_witness :
  exists s', loop ENCODER_VOLUME_PER_COUNT (receiving "B:rgb") booted = Ok s' /\
             forall i, 0 <= deejValue (encoder s' i) <= 1023.
Proof.
  eexists. split; [vm_compute; reflexivity |].
  eapply (loop_without_V_in_range ENCODER_VOLUME_PER_COUNT (receiving "B:rgb") booted).
  - vm_compute. repeat constructor; discriminate.
  - vm_compute. reflexivity.
  - vm_compute. reflexivity.
Defined.

(** X2. With a positive scale factor the encoder step of [loop] leaves
    the detent of the channel it polls in 0..MAX_ENCODER_VALUE, whatever
    the counter and the detent were before (in particular after a V
    command has stored a detent outside the range). *)
Theorem pollEncoder_restores_range (K : spec_float) (i : Z) (s s' : State) :
  Fle K (S754_zero false) = false ->
  0 <= i < Z.of_nat (List.length (encoders s)) ->
  pollEncoder K i s = Ok s' ->
  0 <= EncoderInfo.lastDetentPosition (encoder s' i) <= MAX_ENCODER_VALUE.
Proof.
  exact (pollEncoder_clamps K i s s').
Qed.

(** Channel 0 after the command V:0:-1: the next encoder step brings the
    detent back to 0. *)
Lemma pollEncoder_restores_range_witness :
  exists s',
    pollEncoder ENCODER_VOLUME_PER_COUNT 0
      (update_encoder 0
         (fun e => EncoderInfo.setRawCount 200 (EncoderInfo.set_lastDetentPosition (-100) e))
         booted) = Ok s' /\
    0 <= EncoderInfo.lastDetentPosition (encoder s' 0) <= MAX_ENCODER_VALUE.
Proof.
  eexists. split; [vm_compute; reflexivity |].
  eapply (pollEncoder_restores_range ENCODER_VOLUME_PER_COUNT 0
            (update_encoder 0
               (fun e => EncoderInfo.setRawCount 200
                           (EncoderInfo.set_lastDetentPosition (-100) e))
               booted)).
  - reflexivity.
  - vm_compute. split; [discriminate | reflexivity].
  - vm_compute. reflexivity.
Defined.

(** ** The colour wheel *)

Lemma Wheel_checked :
  forallb (fun p =>
             let c := Wheel p in
             (0 <=? r c) && (r c <=? 255) && (0 <=? g c) && (g c <=? 255)
             && (0 <=? b c) && (b c <=? 255)
             && (r c + g c + b c =? 255)
             && ((r c =? 0) || (g c =? 0) || (b c =? 0)))
          (range 0 256) = true.
Proof.
  vm_compute. reflexivity.
Qed.

(** X3. For every byte position the colour wheel returns byte channels
    that add up to 255, one of them being 0: the byte arithmetic of
    [Wheel] never wraps, and the rainbow keeps a constant total
    intensity. *)
Theorem Wheel_constant_intensity (WheelPos : Z) :
  0 <= WheelPos <= 255 ->
  byteColor (Wheel WheelPos) /\
  r (Wheel WheelPos) + g (Wheel WheelPos) + b (Wheel WheelPos) = 255 /\
  (r (Wheel WheelPos) = 0 \/ g (Wheel WheelPos) = 0 \/ b (Wheel WheelPos) = 0).
Proof.
  intros H. pose proof Wheel_checked as Hall. rewrite forallb_forall in Hall.
  specialize (Hall WheelPos ltac:(apply in_range; lia)). cbv zeta in Hall.
  repeat (apply andb_true_iff in Hall as [Hall ?]).
  unfold byteColor.
  repeat match goal with
         | H : (_ <=? _) = true |- _ => apply Z.leb_le in H
         | H : (_ =? _) = true |- _ => apply Z.eqb_eq in H
         end.
  repeat split; try assumption.
  repeat match goal with
         | H : (_ || _) = true |- _ => apply orb_true_iff in H as [H | H]
         | H : (_ =? _) = true |- _ => apply Z.eqb_eq in H
         end; auto.
Qed.

Lemma Wheel_constant_intensity_witness :
  r (Wheel 100) + g (Wheel 100) + b (Wheel 100) = 255.
Proof.
  apply (Wheel_constant_intensity 100). lia.
Defined.

(** ** Bytes split over several passes *)


(** ** Reading the LED back from the bus *)

Lemma addressing_checked :
  forallb (fun n =>
             match addressOf n with
             | Some (bank, chip, register) =>
                 ((if bank =? 0 then 0 else 1) * LEDS_PER_BANK
                  + (chip - 0x30) * LEDS_PER_CHIP
                  + (register - OUT0_COLOR_ADDR) / 3 + 1 =? n)
                 && ((register - OUT0_COLOR_ADDR) mod 3 =? 0)
                 && (OUT0_COLOR_ADDR <=? register) && (register + 2 <=? 0x37)
                 && existsb (Z.eqb chip) LED_CHIP_ADDRESSES
             | None => false
             end)
          (range 1 (TOTAL_LEDS + 1)) = true.
Proof.
  vm_compute. reflexivity.
Qed.

(** X5. For every LED index in 1..TOTAL_LEDS and every colour, the bus
    traffic of [setSingleLedColor] is a bank selection followed by one
    transmission from which the index and the colour are recovered: no
    two LEDs share a (bank, chip, register) target. The register is
    OUT0_COLOR_ADDR plus a multiple of 3 and the three bytes written end
    at 0x37 at the latest, so the windows of two LEDs never overlap. *)
Theorem setSingleLedColor_decodes (n : Z) (c : Color) (s : State) :
  1 <= n <= TOTAL_LEDS ->
  exists level address register,
    setSingleLedColor n c s
    = emit [DigitalWrite MUX_SELECT_PIN level;
            WireTransmission address [register; r c; g c; b c]] s /\
    decodeWrite [DigitalWrite MUX_SELECT_PIN level;
                 WireTransmission address [register; r c; g c; b c]] = Some (n, c) /\
    In address LED_CHIP_ADDRESSES /\
    (register - OUT0_COLOR_ADDR) mod 3 = 0 /\
    OUT0_COLOR_ADDR <= register /\ register + 2 <= 0x37.
Proof.
  intros H. pose proof addressing_checked as Hall. rewrite forallb_forall in Hall.
  specialize (Hall n ltac:(apply in_range; lia)).
  destruct (setSingleLedColor_addressOf n c s) as [_ Heq]. rewrite Heq.
  destruct (addressOf n) as [[[bank chip] register] |]; [| discriminate].
  repeat (apply andb_true_iff in Hall as [Hall ?]).
  exists (if bank =? 0 then LOW else HIGH), chip, register.
  split; [reflexivity |].
  repeat match goal with
         | H : (_ <=? _) = true |- _ => apply Z.leb_le in H
         | H : (_ =? _) = true |- _ => apply Z.eqb_eq in H
         end.
  split.
  - unfold decodeWrite. rewrite Z.eqb_refl. destruct c as [cr cg cb]. cbn [r g b].
    f_equal. f_equal. destruct (bank =? 0); exact Hall.
  - split; [| repeat split; assumption].
    match goal with
    | E : existsb _ _ = true |- _ => apply existsb_exists in E as (a & Ha & Ea)
    end.
    apply Z.eqb_eq in Ea. now subst a.
Qed.

Lemma setSingleLedColor_decodes_witness :
  exists level address register,
    setSingleLedColor 63 BUTTON_ACTIVE_COLOR power_on
    = emit [DigitalWrite MUX_SELECT_PIN level;
            WireTransmission address
              [register; r BUTTON_ACTIVE_COLOR; g BUTTON_ACTIVE_COLOR; b BUTTON_ACTIVE_COLOR]]
           power_on /\
    decodeWrite [DigitalWrite MUX_SELECT_PIN level;
                 WireTransmission address
                   [register; r BUTTON_ACTIVE_COLOR; g BUTTON_ACTIVE_COLOR;
                    b BUTTON_ACTIVE_COLOR]]
    = Some (63, BUTTON_ACTIVE_COLOR).
Proof.
  destruct (setSingleLedColor_decodes 63 BUTTON_ACTIVE_COLOR power_on)
    as (level & address & register & H1 & H2 & _).
  - unfold TOTAL_LEDS. lia.
  - exists level, address, register. split; assumption.
Defined.

(** ** The gradient *)

Lemma lerp_ends_checked :
  forallb (fun x =>
     forallb (fun y =>
        (r (lerp (mkColor x 0 0) (mkColor y 0 0) (S754_zero false)) =? x)
        && (r (lerp (mkColor x 0 0) (mkColor y 0 0) lastSegmentPercent) =? y))
       (range 0 256))
    (range 0 256) = true.
Proof.
  vm_compute. reflexivity.
Qed.

(** X6. Between colour stops whose channels are bytes, [lerp] returns
    the first stop at 0.0 and the second at 9/9; hence in the gradient
    of an unmuted channel the first lit LED shows [zeroColor] exactly
    and, when the whole segment is lit, the last one shows [fullColor]
    exactly. *)
Theorem gradient_endpoints (enc : EncoderInfo.t) :
  byteColor (EncoderInfo.zeroColor enc) -> byteColor (EncoderInfo.fullColor enc) ->
  lerp (EncoderInfo.zeroColor enc) (EncoderInfo.fullColor enc) (S754_zero false)
    = EncoderInfo.zeroColor enc /\
  lerp (EncoderInfo.zeroColor enc) (EncoderInfo.fullColor enc) lastSegmentPercent
    = EncoderInfo.fullColor enc /\
  (forall lit px, gradientPixel enc lit 0 = Ok px -> snd px = EncoderInfo.zeroColor enc) /\
  (forall px, gradientPixel enc ENCODER_LED_COUNT (ENCODER_LED_COUNT - 1) = Ok px ->
              snd px = EncoderInfo.fullColor enc).
Proof.
  intros Hz Hf.
  assert (Hch : forall x y, 0 <= x <= 255 -> 0 <= y <= 255 ->
            r (lerp (mkColor x 0 0) (mkColor y 0 0) (S754_zero false)) = x /\
            r (lerp (mkColor x 0 0) (mkColor y 0 0) lastSegmentPercent) = y).
  { intros x y Hx Hy. pose proof lerp_ends_checked as Hall.
    rewrite forallb_forall in Hall.
    specialize (Hall x ltac:(apply in_range; lia)). rewrite forallb_forall in Hall.
    specialize (Hall y ltac:(apply in_range; lia)).
    apply andb_true_iff in Hall as [H0 H1]. now apply Z.eqb_eq in H0, H1. }
  destruct (EncoderInfo.zeroColor enc) as [zr zg zb] eqn:Ez.
  destruct (EncoderInfo.fullColor enc) as [fr fg fb] eqn:Ef.
  destruct Hz as (Hzr & Hzg & Hzb), Hf as (Hfr & Hfg & Hfb). cbn [r g b] in *.
  destruct (Hch zr fr Hzr Hfr) as [Hr0 Hr1].
  destruct (Hch zg fg Hzg Hfg) as [Hg0 Hg1].
  destruct (Hch zb fb Hzb Hfb) as [Hb0 Hb1].
  assert (H0 : lerp (mkColor zr zg zb) (mkColor fr fg fb) (S754_zero false)
               = mkColor zr zg zb).
  { unfold lerp in *. cbn [r g b] in *. now rewrite Hr0, Hg0, Hb0. }
  assert (H1 : lerp (mkColor zr zg zb) (mkColor fr fg fb) lastSegmentPercent
               = mkColor fr fg fb).
  { unfold lerp in *. cbn [r g b] in *. now rewrite Hr1, Hg1, Hb1. }
  split; [exact H0 |]. split; [exact H1 |]. split.
  - intros lit px H. unfold gradientPixel in H.
    apply bind_Ok_inv in H as (localLed & _ & H). injection H as <-. cbn [snd].
    rewrite Ez, Ef.
    change (f32_div (f32_of_Z 0) (f32_of_Z (ENCODER_LED_COUNT - 1)))
      with (S754_zero false).
    destruct (lit =? 1); exact H0.
  - intros px H. unfold gradientPixel in H.
    apply bind_Ok_inv in H as (localLed & _ & H). injection H as <-. cbn [snd].
    rewrite Ez, Ef. exact H1.
Qed.

Lemma gradient_endpoints_witness :
  lerp (mkColor 50 0 0) (mkColor 0 50 0) lastSegmentPercent = mkColor 0 50 0.
Proof.
  apply (gradient_endpoints (at_index noEncoder encoders_init 0));
    cbn; unfold byteColor; cbn; lia.
Defined.

(** ** Hexadecimal colours *)

Lemma nibble_cases (nibble : Z) :
  0 <= nibble < 16 ->
  nibble = 0 \/ nibble = 1 \/ nibble = 2 \/ nibble = 3 \/
  nibble = 4 \/ nibble = 5 \/ nibble = 6 \/ nibble = 7 \/
  nibble = 8 \/ nibble = 9 \/ nibble = 10 \/ nibble = 11 \/
  nibble = 12 \/ nibble = 13 \/ nibble = 14 \/ nibble = 15.
Proof.
  lia.
Qed.

Ltac each_nibble H :=
  destruct (nibble_cases _ H) as
    [-> | [-> | [-> | [-> | [-> | [-> | [-> | [-> |
    [-> | [-> | [-> | [-> | [-> | [-> | [-> | ->]]]]]]]]]]]]]]].

Lemma digits_hexDigit (upper : bool) (n : Z) (rest : string) (acc count : Z) :
  0 <= n < 16 ->
  AString.digits 16 (String (hexDigit upper n) rest) acc count
  = AString.digits 16 rest (acc * 16 + n) (count + 1).
Proof.
  intros H. destruct upper; each_nibble H; reflexivity.
Qed.

(** [strtol] in base 16 on six hexadecimal digits. *)
Lemma strtol_six_digits (upper : bool) (a b c d e f : Z) :
  0 <= a < 16 -> 0 <= b < 16 -> 0 <= c < 16 ->
  0 <= d < 16 -> 0 <= e < 16 -> 0 <= f < 16 ->
  AString.strtol 16
    (String (hexDigit upper a) (String (hexDigit upper b) (String (hexDigit upper c)
    (String (hexDigit upper d) (String (hexDigit upper e) (String (hexDigit upper f)
     EmptyString))))))
  = ((((a * 16 + b) * 16 + c) * 16 + d) * 16 + e) * 16 + f.
Proof.
  intros Ha Hb Hc Hd He Hf.
  set (tail := String (hexDigit upper c) (String (hexDigit upper d)
                 (String (hexDigit upper e) (String (hexDigit upper f) EmptyString)))).
  assert (Hdigits : forall acc count,
            AString.digits 16 (String (hexDigit upper a) (String (hexDigit upper b) tail))
                           acc count
            = ((((((acc * 16 + a) * 16 + b) * 16 + c) * 16 + d) * 16 + e) * 16 + f,
               count + 1 + 1 + 1 + 1 + 1 + 1, EmptyString)).
  { intros acc count. unfold tail. now rewrite !digits_hexDigit by assumption. }
  assert (Hsat : Int.saturate32 (((((a * 16 + b) * 16 + c) * 16 + d) * 16 + e) * 16 + f)
                 = ((((a * 16 + b) * 16 + c) * 16 + d) * 16 + e) * 16 + f).
  { unfold Int.saturate32, Int.LONG_MIN, Int.LONG_MAX. lia. }
  assert (Hb' : hexDigit upper b <> "x"%char /\ hexDigit upper b <> "X"%char)
    by (destruct upper; each_nibble Hb; split; discriminate).
  destruct Hb' as [Hx HX].
  unfold AString.strtol.
  assert (Hhead : AString.sign (AString.skipSpace
                    (String (hexDigit upper a) (String (hexDigit upper b) tail)))
                  = (false, String (hexDigit upper a) (String (hexDigit upper b) tail)))
    by (destruct upper; each_nibble Ha; reflexivity).
  rewrite Hhead. cbn [Z.eqb Pos.eqb].
  assert (Hprefix :
            match String (hexDigit upper a) (String (hexDigit upper b) tail) with
            | String "0" (String "x" rest) => rest
            | String "0" (String "X" rest) => rest
            | _ => String (hexDigit upper a) (String (hexDigit upper b) tail)
            end = String (hexDigit upper a) (String (hexDigit upper b) tail)).
  { destruct (hexDigit upper a) as [[] [] [] [] [] [] [] []]; try reflexivity.
    destruct (hexDigit upper b) as [[] [] [] [] [] [] [] []]; try reflexivity;
      [now elim HX | now elim Hx]. }
  rewrite Hprefix, Hdigits. cbn [Z.mul Z.add]. exact Hsat.
Qed.

Lemma byte_nibbles (v : Z) :
  0 <= v <= 255 -> 0 <= v / 16 < 16 /\ 0 <= v mod 16 < 16.
Proof.
  intros H. split; [| apply Z.mod_pos_bound; lia].
  split; [apply Z.div_pos; lia | apply Z.div_lt_upper_bound; lia].
Qed.

Lemma land_255 (x : Z) : Z.land x 255 = x mod 256.
Proof.
  change 255 with (Z.ones 8). rewrite Z.land_ones by lia. reflexivity.
Qed.

Lemma hexToColor_bytes (text : string) : byteColor (hexToColor text).
Proof.
  unfold hexToColor, byteColor. cbn [r g b]. rewrite !land_255.
  repeat split; apply Z.mod_pos_bound || (apply Z.lt_succ_r; apply Z.mod_pos_bound); lia.
Qed.

Lemma hexToColor_toHex (upper : bool) (c : Color) :
  byteColor c ->
  hexToColor (toHex upper c) = c /\
  hexToColor (String "#" (toHex upper c)) = c.
Proof.
  intros (Hr & Hg & Hb). destruct c as [cr cg cb]. cbn [r g b] in *.
  assert (Hval : AString.strtol 16 (toHex upper (mkColor cr cg cb))
                 = cr * 65536 + cg * 256 + cb).
  { unfold toHex, hexByte. cbn [r g b append].
    destruct (byte_nibbles cr Hr), (byte_nibbles cg Hg), (byte_nibbles cb Hb).
    rewrite strtol_six_digits by assumption.
    pose proof (Z.div_mod cr 16 ltac:(lia)). pose proof (Z.div_mod cg 16 ltac:(lia)).
    pose proof (Z.div_mod cb 16 ltac:(lia)). lia. }
  assert (Hdecode : mkColor (Z.land (Z.shiftr (cr * 65536 + cg * 256 + cb) 16) 255)
                            (Z.land (Z.shiftr (cr * 65536 + cg * 256 + cb) 8) 255)
                            (Z.land (cr * 65536 + cg * 256 + cb) 255)
                    = mkColor cr cg cb).
  { rewrite !land_255, !Z.shiftr_div_pow2 by lia.
    change (2 ^ 16) with 65536. change (2 ^ 8) with 256.
    f_equal.
    - rewrite Z.mod_small; [| split; [apply Z.div_pos; lia | apply Z.div_lt_upper_bound; lia]].
      symmetry. apply Z.div_unique with (cg * 256 + cb); lia.
    - replace ((cr * 65536 + cg * 256 + cb) / 256) with (cr * 256 + cg)
        by (apply Z.div_unique with cb; lia).
      symmetry. apply Z.mod_unique with cr; lia.
    - symmetry. apply Z.mod_unique with (cr * 256 + cg); lia. }
  split.
  - unfold hexToColor.
    assert (Hstart : AString.startsWith "#" (toHex upper (mkColor cr cg cb)) = false).
    { unfold toHex, hexByte. cbn [r g b append].
      destruct (byte_nibbles cr Hr) as [Hn _].
      destruct upper; each_nibble Hn; reflexivity. }
    cbv zeta. rewrite Hstart.
    change (AString.removeFront 0 (toHex upper (mkColor cr cg cb)))
      with (toHex upper (mkColor cr cg cb)).
    rewrite Hval. exact Hdecode.
  - assert (Hhash : AString.removeFront
                      (if AString.startsWith "#" (String "#" (toHex upper (mkColor cr cg cb)))
                       then 1 else 0)
                      (String "#" (toHex upper (mkColor cr cg cb)))
                    = toHex upper (mkColor cr cg cb)) by reflexivity.
    unfold hexToColor. cbv zeta. rewrite Hhash, Hval. exact Hdecode.
Qed.

(** X7. For every string [hexToColor] returns byte channels, and it
    inverts the six-digit hexadecimal notation: a colour with byte
    channels written RRGGBB, in upper or lower case, with or without a
    leading #, is read back as that colour. *)
Theorem hexToColor_round_trip (upper : bool) (c : Color) :
  byteColor c ->
  hexToColor (toHex upper c) = c /\
  hexToColor (String "#" (toHex upper c)) = c /\
  forall text, byteColor (hexToColor text).
Proof.
  intros Hc. destruct (hexToColor_toHex upper c Hc) as [Hplain Hhash].
  split; [exact Hplain |]. split; [exact Hhash | exact hexToColor_bytes].
Qed.

Lemma hexToColor_round_trip_witness :
  hexToColor "#FF8000" = mkColor 255 128 0.
Proof.
  apply (hexToColor_round_trip true (mkColor 255 128 0)).
  unfold byteColor. cbn. lia.
Defined.

(** ** What every reachable state satisfies *)

Lemma map_update_at {A B : Type} (h : A -> B) (f : A -> A) (l : list A) (i : Z) :
  (forall x, h (f x) = h x) -> List.map h (update_at i f l) = List.map h l.
Proof.
  intros Hf. unfold update_at. destruct (i <? 0); [reflexivity |].
  generalize (Z.to_nat i) as n. induction l as [| x l IH]; intros [| n]; cbn;
    rewrite ?Hf, ?IH; reflexivity.
Qed.

Lemma settled_emit (events : list BusEvent) (s : State) : settled s -> settled (emit events s).
Proof.
  exact (fun H => H).
Qed.

Lemma settled_update_encoder (i : Z) (f : EncoderInfo.t -> EncoderInfo.t) (s : State) :
  (forall e, encoderWiring (f e) = encoderWiring e) ->
  (forall e, byteStops e -> byteStops (f e)) ->
  settled s -> settled (update_encoder i f s).
Proof.
  intros Hw Hb ([He Hbt] & Hsel & Hhue & Hstops & Hsolid).
  unfold settled, wired, update_encoder. cbn [encoders buttons selectedOutputIndex rainbowHue
    backgroundSolidColor set_encoders].
  rewrite (map_update_at encoderWiring f _ i Hw).
  repeat split; try assumption; try apply Hsel; try apply Hhue; try apply Hsolid.
  now apply Forall_update_at.
Qed.

Lemma settled_update_button (i : Z) (f : ButtonInfo.t -> ButtonInfo.t) (s : State) :
  (forall x, buttonWiring (f x) = buttonWiring x) ->
  settled s -> settled (update_button i f s).
Proof.
  intros Hw ([He Hbt] & Hsel & Hhue & Hstops & Hsolid).
  unfold settled, wired, update_button. cbn [encoders buttons selectedOutputIndex rainbowHue
    backgroundSolidColor set_buttons].
  rewrite (map_update_at buttonWiring f _ i Hw).
  repeat split; try assumption; try apply Hsel; try apply Hhue; try apply Hsolid.
Qed.

Lemma settled_updateEncoderLedDisplay (i : Z) (s s' : State) :
  settled s -> updateEncoderLedDisplay i s = Ok s' -> settled s'.
Proof.
  intros Hs H. now apply updateEncoderLedDisplay_emit in H as (ev & ->).
Qed.

Lemma settled_applyOutputSelection (i : Z) (notify : bool) (s : State) :
  settled s -> settled (applyOutputSelection i notify s).
Proof.
  intros Hs. unfold applyOutputSelection.
  destruct ((i <? 0) || (i >=? numButtons)) eqn:E; [exact Hs |].
  apply orb_false_iff in E as [E1 E2]. apply Z.ltb_ge in E1.
  rewrite Z.geb_leb in E2. apply Z.leb_gt in E2.
  rewrite paint_emit.
  assert (H : settled (set_selectedOutputIndex i s)).
  { destruct Hs as (Hw & _ & Hrest). split; [exact Hw |].
    split; [cbn [selectedOutputIndex set_selectedOutputIndex]; lia | exact Hrest]. }
  now destruct (notify && _).
Qed.

Lemma settled_set_background (m : BackgroundMode) (c : Color) (s : State) :
  settled s -> byteColor c -> settled (set_background m c s).
Proof.
  intros (Hw & Hsel & Hhue & Hstops & Hsolid) Hc.
  exact (conj Hw (conj Hsel (conj Hhue (conj Hstops Hc)))).
Qed.

Section Settled.

Variable K : spec_float.

Lemma settled_pollEncoder (i : Z) (s s' : State) :
  settled s -> pollEncoder K i s = Ok s' -> settled s'.
Proof.
  intros Hs. unfold pollEncoder. destruct (Fle K _); [now intros [= <-] |]. intros H.
  apply bind_Ok_inv in H as (s1 & H1 & H2).
  assert (Hs1 : settled s1).
  { destruct (Fne _ _); [| now injection H1 as <-].
    apply bind_Ok_inv in H1 as (c & _ & H1). injection H1 as <-.
    apply settled_update_encoder; auto. }
  destruct (negb _); [| now injection H2 as <-].
  eapply settled_updateEncoderLedDisplay; [| exact H2].
  apply settled_update_encoder; auto.
Qed.

Lemma settled_pollEncoderButton (p : Poll) (i : Z) (s s' : State) :
  settled s -> pollEncoderButton p i s = Ok s' -> settled s'.
Proof.
  intros Hs. unfold pollEncoderButton. destruct (accepts _ _ _); [| now intros [= <-]].
  assert (Hs1 : settled (update_encoder i
                  (EncoderInfo.set_debounce (reading p) (Int.wrapU32 (millisAtStamp p))) s))
    by (apply settled_update_encoder; auto).
  destruct (reading p); [| now intros [= <-]].
  intros H. eapply settled_updateEncoderLedDisplay; [| exact H].
  apply settled_update_encoder; auto.
Qed.

Lemma settled_pollOutputButton (p : Poll) (i : Z) (s : State) :
  settled s -> settled (pollOutputButton p i s).
Proof.
  intros Hs. unfold pollOutputButton. destruct (accepts _ _ _); [| exact Hs].
  assert (Hs1 : settled (update_button i
                  (ButtonInfo.set_debounce (reading p) (Int.wrapU32 (millisAtStamp p))) s))
    by (apply settled_update_button; auto).
  destruct (reading p); [| exact Hs1].
  now apply settled_applyOutputSelection.
Qed.

Lemma settled_processLine (s s' : State) :
  settled s -> processLine K s = Ok s' -> settled s'.
Proof.
  intros Hs H. unfold processLine in H.
  apply bind_Ok_inv in H as (s1 & H1 & H2). injection H2 as <-.
  assert (Hs1 : settled s1); [| exact Hs1].
  destruct (_ >? 0); [| now injection H1 as <-].
  destruct (Ascii.eqb _ "V").
  { unfold commandV in H1. destruct (_ >? 0); [| now injection H1 as <-].
    destruct (_ && _); [| now injection H1 as <-].
    apply bind_Ok_inv in H1 as (c & _ & H1).
    eapply settled_updateEncoderLedDisplay; [| exact H1].
    repeat apply settled_update_encoder; auto. }
  destruct (Ascii.eqb _ "C").
  { unfold commandC in H1. destruct (_ && _); [| now injection H1 as <-].
    destruct (_ && _); [| now injection H1 as <-].
    eapply settled_updateEncoderLedDisplay; [| exact H1].
    apply settled_update_encoder; auto.
    intros e _. split; apply hexToColor_bytes. }
  destruct (Ascii.eqb _ "B").
  { injection H1 as <-. unfold commandB.
    destruct (AString.equalsIgnoreCase _ _); apply settled_set_background; auto.
    - apply Hs.
    - apply hexToColor_bytes. }
  destruct (Ascii.eqb _ "O"); injection H1 as <-; [| exact Hs].
  unfold commandO. destruct (_ && _); [| exact Hs].
  now apply settled_applyOutputSelection.
Qed.

End Settled.

Lemma iterate_frame {S A : Type} (proj : S -> A) (body : Z -> S -> result S) :
  (forall i s s', body i s = Ok s' -> proj s' = proj s) ->
  forall n i s s', iterate n i body s = Ok s' -> proj s' = proj s.
Proof.
  intros Hbody. induction n as [| n IH]; intros i s s' H; cbn in H.
  - now injection H as <-.
  - apply bind_Ok_inv in H as (s1 & H1 & H2).
    rewrite (IH _ _ _ H2). eauto.
Qed.

Lemma pollEncoderButton_buffer (p : Poll) (i : Z) (s s' : State) :
  pollEncoderButton p i s = Ok s' -> serialBuffer s' = serialBuffer s.
Proof.
  unfold pollEncoderButton. destruct (accepts _ _ _); [| now intros [= <-]].
  destruct (reading p); [| now intros [= <-]].
  intros H. now apply updateEncoderLedDisplay_emit in H as (ev & ->).
Qed.

Lemma encoderInterrupts_shape (turn : Z -> Z) (s : State) :
  exists l, encoderInterrupts turn s = set_encoders l s /\
            List.length l = List.length (encoders s).
Proof.
  unfold encoderInterrupts. generalize (range 0 numEncoders) as idx. intros idx.
  assert (H : forall t, (exists l, t = set_encoders l s /\
                                   List.length l = List.length (encoders s)) ->
          exists l,
            fold_left (fun s i =>
              update_encoder i (fun e =>
                EncoderInfo.set_count (Int.wrap64 (EncoderInfo.count e + turn i)) e) s) idx t
            = set_encoders l s /\ List.length l = List.length (encoders s)).
  { induction idx as [| i idx IH]; intros t Ht; cbn [fold_left]; [exact Ht |].
    apply IH. destruct Ht as (l & -> & Hl). eexists. split; [reflexivity |].
    cbn [encoders set_encoders]. now rewrite length_update_at. }
  apply H. exists (encoders s). split; [now destruct s | reflexivity].
Qed.

Lemma settled_encoderInterrupts (turn : Z -> Z) (s : State) :
  settled s -> settled (encoderInterrupts turn s).
Proof.
  unfold encoderInterrupts. generalize (range 0 numEncoders) as l.
  intros l. revert s. induction l as [| i l IH]; intros s Hs; cbn [fold_left];
    [exact Hs |].
  apply IH. apply settled_update_encoder; auto.
Qed.

Lemma settled_updateBackgroundLighting (s : State) :
  settled s -> settled (updateBackgroundLighting s).
Proof.
  intros (Hw & Hsel & Hhue & Hstops & Hsolid). unfold updateBackgroundLighting.
  destruct (backgroundMode s); rewrite paint_emit;
    try (repeat split; try assumption; try apply Hw; try apply Hsel; try apply Hhue;
         try apply Hsolid; fail).
  split; [exact Hw |]. split; [exact Hsel |]. split; [| split; assumption].
  cbn [rainbowHue set_rainbowHue emit].
  rewrite wrap32_small by lia.
  destruct (Z.geb_spec (rainbowHue s + 1) (256 * 5)); lia.
Qed.

Lemma settled_handleSerialCommands (K : spec_float) (available : string) (s s' : State) :
  settled s -> lineOpen s ->
  handleSerialCommands K available s = Ok s' -> settled s' /\ lineOpen s'.
Proof.
  revert s. induction available as [| c rest IH]; intros s Hs Hopen H; cbn in H.
  - injection H as <-. now split.
  - apply bind_Ok_inv in H as (s1 & H1 & H2). apply (IH s1); [| | exact H2];
      unfold receive in H1; destruct (Ascii.eqb c AString.LF) eqn:Ec.
    + eapply settled_processLine; eauto.
    + now injection H1 as <-.
    + unfold lineOpen. now rewrite (processLine_resets K s s1 H1).
    + injection H1 as <-. unfold lineOpen in *. cbn [serialBuffer set_serialBuffer].
      rewrite hasChar_app, Hopen. cbn. now rewrite Ec.
Qed.

Lemma settled_loop (K : spec_float) (inp : Inputs) (s s' : State) :
  settled s -> lineOpen s -> loop K inp s = Ok s' -> settled s' /\ lineOpen s'.
Proof.
  intros Hs Hopen H. unfold loop in H.
  apply bind_Ok_inv in H as (s1 & H1 & H).
  apply bind_Ok_inv in H as (s2 & H2 & H).
  apply bind_Ok_inv in H as (s3 & H3 & H).
  apply bind_Ok_inv in H as (s4 & H4 & H).
  injection H as <-.
  set (P := fun t : State => settled t /\ serialBuffer t = serialBuffer s).
  assert (P0 : P (encoderInterrupts (turns inp) s)).
  { split; [now apply settled_encoderInterrupts |].
    destruct (encoderInterrupts_shape (turns inp) s) as (l & E & _). now rewrite E. }
  assert (P1 : P s1).
  { refine (for_range_invariant P _ _ _ _ _ _ P0 H1).
    intros i t t' [Ht Hb] E. split; [eapply settled_pollEncoder; eauto |].
    now rewrite (pollEncoder_buffer K _ _ _ E). }
  assert (P2 : P s2).
  { refine (for_range_invariant P _ _ _ _ _ _ P1 H2).
    intros i t t' [Ht Hb] E. split; [eapply settled_pollEncoderButton; eauto |].
    now rewrite (pollEncoderButton_buffer _ _ _ _ E). }
  assert (P3 : P s3).
  { refine (for_range_invariant P _ _ _ _ _ _ P2 H3).
    intros i t t' [Ht Hb] [= <-]. split; [now apply settled_pollOutputButton |].
    destruct (pollOutputButton_keeps (buttonPoll inp i) i t) as [_ ->]. exact Hb. }
  destruct P3 as [S3 B3].
  destruct (settled_handleSerialCommands K (rx inp) s3 s4 S3
              ltac:(unfold lineOpen; now rewrite B3) H4) as [S4 O4].
  split.
  - exact (settled_updateBackgroundLighting s4 S4).
  - unfold lineOpen, sendEncoderValues. cbn [serialBuffer Serial_println Serial_print].
    unfold updateBackgroundLighting. destruct (backgroundMode s4); rewrite paint_emit; exact O4.
Qed.

Lemma Ok_inj {A : Type} (x y : A) : Ok x = Ok y -> x = y.
Proof.
  now intros [= ->].
Qed.

Lemma setup_booted : setup = Ok booted.
Proof.
  vm_compute. reflexivity.
Qed.

Lemma settled_booted : settled booted /\ lineOpen booted.
Proof.
  split; [| vm_compute; reflexivity]. unfold settled, wired.
  split; [split; vm_compute; reflexivity |].
  split; [vm_compute; split; [discriminate | reflexivity] |].
  split; [vm_compute; split; [discriminate | reflexivity] |]. split.
  - vm_compute. repeat constructor; discriminate.
  - vm_compute. repeat split; discriminate.
Qed.

Lemma reachable_settled (K : spec_float) (s : State) :
  reachable K s -> settled s /\ lineOpen s.
Proof.
  induction 1 as [s H | inp s s' _ [IH1 IH2] H].
  - rewrite setup_booted in H. apply Ok_inj in H. subst s. exact settled_booted.
  - exact (settled_loop K inp s s' IH1 IH2 H).
Qed.

(** X8. In every state the program reaches, the encoder and button
    arrays still have their sizes and their board description (names,
    pins, first LED, wiring tables, button LEDs) as initialised, and an
    output is selected: the index is in 0..numButtons-1, never -1 again
    after [setup]. *)
Theorem reachable_keeps_the_board (K : spec_float) (s : State) :
  reachable K s ->
  List.map encoderWiring (encoders s) = List.map encoderWiring encoders_init /\
  List.map buttonWiring (buttons s) = List.map buttonWiring buttons_init /\
  List.length (encoders s) = Z.to_nat numEncoders /\
  List.length (buttons s) = Z.to_nat numButtons /\
  0 <= selectedOutputIndex s < numButtons.
Proof.
  intros H. destruct (reachable_settled K s H) as [((He & Hb) & Hsel & _) _].
  repeat split; try assumption; try apply Hsel.
  - rewrite <- (length_map encoderWiring), He. reflexivity.
  - rewrite <- (length_map buttonWiring), Hb. reflexivity.
Qed.

Lemma reachable_keeps_the_board_witness :
  List.map buttonWiring (buttons booted) = List.map buttonWiring buttons_init /\
  0 <= selectedOutputIndex booted < numButtons.
Proof.
  destruct (reachable_keeps_the_board ENCODER_VOLUME_PER_COUNT booted
              (reach_setup _ _ setup_booted)) as (_ & H1 & _ & _ & H2).
  split; assumption.
Defined.

(** X9. In every state the program reaches, the rainbow phase is in
    0..1279, the line buffer holds no newline, and every colour the
    firmware keeps (the two stops of each channel, the solid background)
    has byte channels. *)
Theorem reachable_ranges (K : spec_float) (s : State) :
  reachable K s ->
  0 <= rainbowHue s < 256 * 5 /\
  hasChar AString.LF (serialBuffer s) = false /\
  Forall byteStops (encoders s) /\
  byteColor (backgroundSolidColor s).
Proof.
  intros H. destruct (reachable_settled K s H) as [(_ & _ & Hhue & Hstops & Hsolid) Hopen].
  repeat split; try assumption; apply Hhue || apply Hsolid.
Qed.

Lemma reachable_ranges_witness :
  0 <= rainbowHue booted < 256 * 5 /\ byteColor (backgroundSolidColor booted).
Proof.
  destruct (reachable_ranges ENCODER_VOLUME_PER_COUNT booted
              (reach_setup _ _ setup_booted)) as (H1 & _ & _ & H2).
  split; assumption.
Defined.

(** ** What each phase of a pass may change *)

Lemma set_encoders_same (s : State) : set_encoders (encoders s) s = s.
Proof.
  now destruct s.
Qed.

Lemma encodersAndBus_refl (s : State) : encodersAndBus s s.
Proof.
  exists (encoders s), []. now rewrite set_encoders_same, emit_nil.
Qed.

Lemma encodersAndBus_trans (s t u : State) :
  encodersAndBus s t -> encodersAndBus t u -> encodersAndBus s u.
Proof.
  intros (l1 & e1 & ->) (l2 & e2 & ->). exists l2, (e1 ++ e2).
  unfold emit, set_encoders. cbn. now rewrite app_assoc.
Qed.

Lemma encodersAndBus_update (i : Z) (f : EncoderInfo.t -> EncoderInfo.t) (s : State) :
  encodersAndBus s (update_encoder i f s).
Proof.
  exists (update_at i f (encoders s)), []. now rewrite emit_nil.
Qed.

Lemma encodersAndBus_render (i : Z) (s s' : State) :
  updateEncoderLedDisplay i s = Ok s' -> encodersAndBus s s'.
Proof.
  intros H. apply updateEncoderLedDisplay_emit in H as (ev & ->).
  exists (encoders s), ev. now rewrite set_encoders_same.
Qed.

Lemma encodersAndBus_pollEncoder (K : spec_float) (i : Z) (s s' : State) :
  pollEncoder K i s = Ok s' -> encodersAndBus s s'.
Proof.
  unfold pollEncoder. destruct (Fle K _); [intros [= <-]; apply encodersAndBus_refl |].
  intros H. apply bind_Ok_inv in H as (s1 & H1 & H2).
  assert (E1 : encodersAndBus s s1).
  { destruct (Fne _ _); [| injection H1 as <-; apply encodersAndBus_refl].
    apply bind_Ok_inv in H1 as (c & _ & [= <-]). apply encodersAndBus_update. }
  apply (encodersAndBus_trans s s1 s' E1).
  destruct (negb _); [| injection H2 as <-; apply encodersAndBus_refl].
  eapply encodersAndBus_trans; [apply encodersAndBus_update |].
  eapply encodersAndBus_render; exact H2.
Qed.

Lemma encodersAndBus_pollEncoderButton (p : Poll) (i : Z) (s s' : State) :
  pollEncoderButton p i s = Ok s' -> encodersAndBus s s'.
Proof.
  unfold pollEncoderButton.
  destruct (accepts _ _ _); [| intros [= <-]; apply encodersAndBus_refl].
  destruct (reading p); [| intros [= <-]; apply encodersAndBus_update].
  intros H. eapply encodersAndBus_trans; [apply encodersAndBus_update |].
  eapply encodersAndBus_trans; [apply encodersAndBus_update |].
  eapply encodersAndBus_render; exact H.
Qed.

Lemma notices_app (xs ys : list Z) :
  notices (xs ++ ys) = (notices xs ++ notices ys)%string.
Proof.
  induction xs as [| k xs IH]; [reflexivity |].
  cbn [app notices fold_right]. fold (notices (xs ++ ys)). fold (notices xs).
  rewrite IH. now rewrite !string_app_assoc.
Qed.

Lemma selectionStep_refl (s : State) : selectionStep [] s s.
Proof.
  exists (buttons s), (selectedOutputIndex s), []. destruct s. cbn.
  now rewrite app_nil_r, string_app_nil_r.
Qed.

Lemma selectionStep_trans (xs ys : list Z) (s t u : State) :
  selectionStep xs s t -> selectionStep ys t u -> selectionStep (xs ++ ys) s u.
Proof.
  intros (b1 & i1 & e1 & ->) (b2 & i2 & e2 & ->). exists b2, i2, (e1 ++ e2). cbn.
  now rewrite app_assoc, notices_app, string_app_assoc.
Qed.

Lemma selectionStep_update (i : Z) (f : ButtonInfo.t -> ButtonInfo.t) (s : State) :
  selectionStep [] s (update_button i f s).
Proof.
  exists (update_at i f (buttons s)), (selectedOutputIndex s), []. cbn.
  now rewrite app_nil_r, string_app_nil_r.
Qed.

(** [applyOutputSelection] announces at most the output it selects. *)
Lemma selectionStep_apply (i : Z) (notify : bool) (s : State) :
  exists ks, selectionStep ks s (applyOutputSelection i notify s) /\
             (ks = [] \/ (notify = true /\ 0 <= i < numButtons /\ ks = [i + 1])).
Proof.
  unfold applyOutputSelection.
  destruct ((i <? 0) || (i >=? numButtons)) eqn:E.
  { exists []. split; [apply selectionStep_refl | now left]. }
  apply orb_false_iff in E as [E1 E2].
  apply Z.ltb_ge in E1. rewrite Z.geb_leb in E2. apply Z.leb_gt in E2.
  cbn [selectedOutputIndex set_selectedOutputIndex].
  change (List.map _ (range 0 numButtons)) with (selectionPixels s i).
  rewrite paint_emit.
  replace (Int.wrap32 (i + 1)) with (i + 1)
    by (destruct (numButtons_cases i (conj E1 E2)) as [-> | [-> | [-> | ->]]]; reflexivity).
  destruct (notify && negb (selectedOutputIndex s =? i)) eqn:En.
  - exists [i + 1]. split.
    + exists (buttons s), i, (paintEvents (selectionPixels s i)).
      transitivity
        (mkState (encoders s) (buttons s) i (backgroundMode s) (backgroundSolidColor s)
           (rainbowHue s) (serialBuffer s) (wire s ++ paintEvents (selectionPixels s i))
           ((serialTx s ++ "O:") ++ (AString.ofInt (i + 1) ++ AString.CRLF))%string);
        [reflexivity |].
      f_equal. unfold notices, fold_right.
      now rewrite string_app_nil_r, string_app_assoc.
    + right. apply andb_true_iff in En as [-> _]. auto.
  - exists []. split; [| now left].
    exists (buttons s), i, (paintEvents (selectionPixels s i)).
    transitivity
      (mkState (encoders s) (buttons s) i (backgroundMode s) (backgroundSolidColor s)
         (rainbowHue s) (serialBuffer s) (wire s ++ paintEvents (selectionPixels s i))
         (serialTx s)); [reflexivity |].
    f_equal. unfold notices, fold_right. now rewrite string_app_nil_r.
Qed.

Lemma selectionStep_pollOutputButton (p : Poll) (i : Z) (s : State) :
  exists ks, selectionStep ks s (pollOutputButton p i s) /\
             (ks = [] \/ (reading p = LOW /\ 0 <= i < numButtons /\ ks = [i + 1])).
Proof.
  unfold pollOutputButton.
  destruct (accepts _ _ _); [| exists []; split; [apply selectionStep_refl | now left]].
  destruct (reading p) eqn:Er.
  - destruct (selectionStep_apply i true
                (update_button i (ButtonInfo.set_debounce LOW (Int.wrapU32 (millisAtStamp p))) s))
      as (ks & Hstep & Hks).
    exists ks. split.
    + exact (selectionStep_trans [] ks _ _ _ (selectionStep_update _ _ _) Hstep).
    + destruct Hks as [-> | (_ & Hi & ->)]; [now left | right; auto].
  - exists []. split; [apply selectionStep_update | now left].
Qed.

Lemma commandStep_refl (s : State) : commandStep s s.
Proof.
  exists (encoders s), (selectedOutputIndex s), (backgroundMode s), (backgroundSolidColor s),
    (serialBuffer s), []. destruct s. cbn. now rewrite app_nil_r.
Qed.

Lemma commandStep_trans (s t u : State) :
  commandStep s t -> commandStep t u -> commandStep s u.
Proof.
  intros (l1 & i1 & m1 & c1 & b1 & e1 & ->) (l2 & i2 & m2 & c2 & b2 & e2 & ->).
  exists l2, i2, m2, c2, b2, (e1 ++ e2). cbn. now rewrite app_assoc.
Qed.

Lemma commandStep_encodersAndBus (s s' : State) :
  encodersAndBus s s' -> commandStep s s'.
Proof.
  intros (l & ev & ->).
  now exists l, (selectedOutputIndex s), (backgroundMode s), (backgroundSolidColor s),
    (serialBuffer s), ev.
Qed.

Lemma commandStep_processLine (K : spec_float) (s s' : State) :
  processLine K s = Ok s' -> commandStep s s'.
Proof.
  intros H. unfold processLine in H.
  apply bind_Ok_inv in H as (s1 & H1 & H2). injection H2 as <-.
  assert (Hs1 : commandStep s s1).
  { destruct (_ >? 0); [| injection H1 as <-; apply commandStep_refl].
    destruct (Ascii.eqb _ "V").
    { unfold commandV in H1.
      destruct (_ >? 0); [| injection H1 as <-; apply commandStep_refl].
      destruct (_ && _); [| injection H1 as <-; apply commandStep_refl].
      apply bind_Ok_inv in H1 as (c & _ & H1). apply commandStep_encodersAndBus.
      eapply encodersAndBus_trans; [apply encodersAndBus_update |].
      eapply encodersAndBus_trans; [apply encodersAndBus_update |].
      eapply encodersAndBus_render; exact H1. }
    destruct (Ascii.eqb _ "C").
    { unfold commandC in H1.
      destruct (_ && _); [| injection H1 as <-; apply commandStep_refl].
      destruct (_ && _); [| injection H1 as <-; apply commandStep_refl].
      apply commandStep_encodersAndBus.
      eapply encodersAndBus_trans; [apply encodersAndBus_update |].
      eapply encodersAndBus_render; exact H1. }
    destruct (Ascii.eqb _ "B").
    { injection H1 as <-. unfold commandB.
      destruct (AString.equalsIgnoreCase _ _);
        eexists (encoders s), (selectedOutputIndex s), _, _, (serialBuffer s), [];
        cbn; now rewrite app_nil_r. }
    destruct (Ascii.eqb _ "O"); injection H1 as <-; [| apply commandStep_refl].
    unfold commandO. destruct (_ && _); [| apply commandStep_refl].
    destruct (selectionStep_apply (Int.wrap32 (AString.toInt
                (AString.substringFrom (AString.indexOf ":" (serialBuffer s) + 1)
                   (serialBuffer s)) - 1)) false s)
      as (ks & (bl & sel & ev & Hstep) & [-> | (Hn & _)]); [| discriminate].
    rewrite Hstep.
    assert (Hb : buttons (applyOutputSelection (Int.wrap32 (AString.toInt
                (AString.substringFrom (AString.indexOf ":" (serialBuffer s) + 1)
                   (serialBuffer s)) - 1)) false s) = buttons s).
    { unfold applyOutputSelection. destruct (_ || _); [reflexivity |].
      now rewrite paint_emit. }
    rewrite Hstep in Hb. cbn in Hb. subst bl.
    exists (encoders s), sel, (backgroundMode s), (backgroundSolidColor s), (serialBuffer s), ev.
    cbn. now rewrite string_app_nil_r. }
  eapply commandStep_trans; [exact Hs1 |].
  exists (encoders s1), (selectedOutputIndex s1), (backgroundMode s1),
    (backgroundSolidColor s1), EmptyString, []. cbn. now rewrite app_nil_r.
Qed.

Lemma commandStep_handleSerialCommands (K : spec_float) (available : string) (s s' : State) :
  handleSerialCommands K available s = Ok s' -> commandStep s s'.
Proof.
  revert s. induction available as [| c rest IH]; intros s H; cbn in H.
  - injection H as <-. apply commandStep_refl.
  - apply bind_Ok_inv in H as (s1 & H1 & H2).
    apply (commandStep_trans s s1 s'); [| now apply IH].
    unfold receive in H1. destruct (Ascii.eqb c AString.LF).
    + now apply (commandStep_processLine K).
    + injection H1 as <-.
      exists (encoders s), (selectedOutputIndex s), (backgroundMode s),
        (backgroundSolidColor s), (serialBuffer s ++ String c EmptyString)%string, [].
      cbn. now rewrite app_nil_r.
Qed.

(** X10. The serial handler never answers: whatever bytes it is given, it
    prints nothing, and it leaves the buttons' debounce state and the
    rainbow phase alone; what it writes to the LED bus is appended to the
    bus trace. *)
Theorem handleSerialCommands_is_silent (K : spec_float) (available : string) (s s' : State) :
  handleSerialCommands K available s = Ok s' ->
  serialTx s' = serialTx s /\
  buttons s' = buttons s /\
  rainbowHue s' = rainbowHue s /\
  exists events, wire s' = wire s ++ events.
Proof.
  intros H. apply commandStep_handleSerialCommands in H
    as (l & sel & m & c & buf & ev & ->).
  cbn. repeat split. now exists ev.
Qed.

Lemma handleSerialCommands_is_silent_witness :
  exists s', handleSerialCommands ENCODER_VOLUME_PER_COUNT
               ("O:3" ++ AString.CRLF ++ "B:#102030" ++ AString.CRLF) booted = Ok s' /\
             serialTx s' = serialTx booted /\ selectedOutputIndex s' = 2.
Proof.
  eexists. split; [vm_compute; reflexivity |]. split; [| vm_compute; reflexivity].
  eapply (handleSerialCommands_is_silent ENCODER_VOLUME_PER_COUNT
            ("O:3" ++ AString.CRLF ++ "B:#102030" ++ AString.CRLF) booted).
  vm_compute. reflexivity.
Defined.

(** ** A pass of [loop], phase by phase *)

Lemma loop_phases (K : spec_float) (inp : Inputs) (s s' : State) :
  loop K inp s = Ok s' ->
  exists s2 s3 s4 ks,
    encodersAndBus s s2 /\
    selectionStep ks s2 s3 /\
    Forall (fun k => 1 <= k <= numButtons) ks /\
    ((forall i, reading (buttonPoll inp i) = HIGH) -> ks = []) /\
    commandStep s3 s4 /\
    s' = sendEncoderValues (updateBackgroundLighting s4).
Proof.
  intros H. unfold loop in H.
  apply bind_Ok_inv in H as (s1 & H1 & H).
  apply bind_Ok_inv in H as (s2 & H2 & H).
  apply bind_Ok_inv in H as (s3 & H3 & H).
  apply bind_Ok_inv in H as (s4 & H4 & H).
  apply Ok_inj in H. subst s'.
  assert (E0 : encodersAndBus s (encoderInterrupts (turns inp) s)).
  { destruct (encoderInterrupts_shape (turns inp) s) as (l & -> & _).
    exists l, []. now rewrite emit_nil. }
  assert (E1 : encodersAndBus s s1).
  { refine (for_range_invariant (encodersAndBus s) _ _ _ _ _ _ E0 H1).
    intros i t t' Ht E. eapply encodersAndBus_trans; [exact Ht |].
    now apply (encodersAndBus_pollEncoder K i). }
  assert (E2 : encodersAndBus s s2).
  { refine (for_range_invariant (encodersAndBus s) _ _ _ _ _ _ E1 H2).
    intros i t t' Ht E. eapply encodersAndBus_trans; [exact Ht |].
    now apply (encodersAndBus_pollEncoderButton (encoderPoll inp i) i). }
  set (P := fun t : State =>
              exists ks, selectionStep ks s2 t /\
                         Forall (fun k => 1 <= k <= numButtons) ks /\
                         ((forall i, reading (buttonPoll inp i) = HIGH) -> ks = [])).
  assert (P3 : P s3).
  { refine (for_range_invariant P _ _ _ _ _ _ _ H3).
    - intros i t t' (ks & Hstep & Hks & Hhigh) E. apply Ok_inj in E. subst t'.
      destruct (selectionStep_pollOutputButton (buttonPoll inp i) i t)
        as (ks' & Hstep' & Hks').
      exists (ks ++ ks'). split; [exact (selectionStep_trans _ _ _ _ _ Hstep Hstep') |].
      destruct Hks' as [-> | (Hlow & Hi & ->)].
      + rewrite app_nil_r. now split.
      + split.
        * apply Forall_app. split; [exact Hks |]. constructor; [lia | constructor].
        * intros Hall. rewrite Hall in Hlow. discriminate.
    - exists []. split; [apply selectionStep_refl |]. split; [constructor | reflexivity]. }
  destruct P3 as (ks & Hstep & Hks & Hhigh).
  exists s2, s3, s4, ks. repeat split; try assumption.
  now apply (commandStep_handleSerialCommands K (rx inp)).
Qed.

Lemma updateBackgroundLighting_shape (s : State) :
  exists colour,
    updateBackgroundLighting s
    = mkState (encoders s) (buttons s) (selectedOutputIndex s) (backgroundMode s)
        (backgroundSolidColor s)
        (match backgroundMode s with
         | BG_RGB => if Int.wrap32 (rainbowHue s + 1) >=? 256 * 5 then 0
                     else Int.wrap32 (rainbowHue s + 1)
         | _ => rainbowHue s
         end)
        (serialBuffer s) (wire s ++ paintEvents (backlight colour)) (serialTx s) /\
    forall i, colour i =
      match backgroundMode s with
      | BG_RGB => Wheel (Z.land (Z.quot (i * 256) BACKLIGHT_LED_COUNT + rainbowHue s) 255)
      | BG_SOLID => backgroundSolidColor s
      | BG_OFF => BLACK
      end.
Proof.
  destruct s as [l bl sel m c hue buf w tx]. unfold updateBackgroundLighting.
  cbn [backgroundMode rainbowHue backgroundSolidColor].
  destruct m; eexists; (split; [rewrite paint_emit; reflexivity |]); reflexivity.
Qed.



(** X12. Every pass of [loop] ends its bus traffic by writing all the
    backlight LEDs, first to last, in the colour of the background mode in
    force at the end of the pass: the solid colour, black, or the colour
    wheel at the phase the pass started with. The phase moves only in
    rainbow mode, by one per pass, and wraps from 1279 to 0. *)
Theorem loop_repaints_backlight (K : spec_float) (inp : Inputs) (s s' : State) :
  0 <= rainbowHue s < 256 * 5 ->
  loop K inp s = Ok s' ->
  exists events colour,
    wire s' = wire s ++ events ++ paintEvents (backlight colour) /\
    (forall i, colour i =
       match backgroundMode s' with
       | BG_RGB => Wheel (Z.land (Z.quot (i * 256) BACKLIGHT_LED_COUNT + rainbowHue s) 255)
       | BG_SOLID => backgroundSolidColor s'
       | BG_OFF => BLACK
       end) /\
    rainbowHue s' = match backgroundMode s' with
                    | BG_RGB => (rainbowHue s + 1) mod (256 * 5)
                    | _ => rainbowHue s
                    end.
Proof.
  intros Hhue H. apply loop_phases in H
    as (s2 & s3 & s4 & ks & (l & e2 & E2) & (bl & sel & e3 & E3) & _ & _
        & (l4 & sel4 & m4 & c4 & b4 & e4 & E4) & ->).
  destruct (updateBackgroundLighting_shape s4) as (colour & Eu & Hc).
  assert (H4 : rainbowHue s4 = rainbowHue s /\ wire s4 = wire s ++ e2 ++ e3 ++ e4).
  { rewrite E4. cbn [rainbowHue wire]. rewrite E3. cbn [rainbowHue wire].
    rewrite E2. cbn [rainbowHue wire emit set_encoders]. now rewrite <- !app_assoc. }
  destruct H4 as [Hh Hw].
  exists (e2 ++ e3 ++ e4), colour.
  unfold sendEncoderValues, Serial_println, Serial_print.
  cbn [wire rainbowHue backgroundMode backgroundSolidColor].
  rewrite Eu. cbn [wire rainbowHue backgroundMode backgroundSolidColor].
  rewrite Hh in *. rewrite Hw. split; [now rewrite <- !app_assoc |]. split.
  - intros i. rewrite Hc. reflexivity.
  - destruct (backgroundMode s4); try reflexivity.
    rewrite wrap32_small by lia.
    destruct (Z.geb_spec (rainbowHue s + 1) (256 * 5)).
    + replace (rainbowHue s + 1) with (256 * 5) by lia. reflexivity.
    + symmetry. apply Z.mod_small. lia.
Qed.

Lemma loop_repaints_backlight_witness :
  exists s', loop ENCODER_VOLUME_PER_COUNT (receiving ("B:rgb" ++ AString.CRLF)) booted = Ok s' /\
             rainbowHue s' = match backgroundMode s' with
                             | BG_RGB => (rainbowHue booted + 1) mod (256 * 5)
                             | _ => rainbowHue booted
                             end.
Proof.
  eexists. split; [vm_compute; reflexivity |].
  destruct (loop_repaints_backlight ENCODER_VOLUME_PER_COUNT
              (receiving ("B:rgb" ++ AString.CRLF)) booted _
              ltac:(vm_compute; split; [discriminate | reflexivity])
              ltac:(vm_compute; reflexivity)) as (ev & colour & _ & _ & Hhue).
  exact Hhue.
Defined.

(** ** Running to completion *)

Lemma iterate_total {S : Type} (P : S -> Prop) (body : Z -> S -> result S) :
  forall n i s,
    (forall j t, i <= j < i + Z.of_nat n -> P t -> exists t', body j t = Ok t' /\ P t') ->
    P s -> exists s', iterate n i body s = Ok s' /\ P s'.
Proof.
  induction n as [| n IH]; intros i s Hbody Hs; cbn [iterate].
  - now exists s.
  - destruct (Hbody i s ltac:(lia) Hs) as (s1 & -> & Hs1). cbn [bind].
    apply IH; [| exact Hs1]. intros j t Hj. apply Hbody. lia.
Qed.

Lemma for_range_total {S : Type} (P : S -> Prop) (body : Z -> S -> result S)
      (lo hi : Z) (s : S) :
  (forall j t, lo <= j < hi -> P t -> exists t', body j t = Ok t' /\ P t') ->
  P s -> exists s', for_range lo hi body s = Ok s' /\ P s'.
Proof.
  intros Hbody Hs. unfold for_range. apply iterate_total; [| exact Hs].
  intros j t Hj. apply Hbody. lia.
Qed.

Lemma bind_runs {A B : Type} (m : result A) (k : A -> result B) :
  (exists a, m = Ok a) -> (forall a, exists b, k a = Ok b) ->
  exists b, bind m k = Ok b.
Proof.
  intros (a & ->) Hk. exact (Hk a).
Qed.

Lemma numEncoders_cases (i : Z) :
  0 <= i < numEncoders -> i = 0 \/ i = 1 \/ i = 2 \/ i = 3 \/ i = 4 \/ i = 5.
Proof.
  change numEncoders with 6. lia.
Qed.

Lemma wired_encoder (s : State) (i : Z) :
  wired s ->
  encoderWiring (encoder s i) = encoderWiring (at_index noEncoder encoders_init i).
Proof.
  intros [Hw _]. unfold encoder, at_index.
  rewrite <- (map_nth encoderWiring (encoders s)), <- (map_nth encoderWiring encoders_init).
  now rewrite Hw.
Qed.

Lemma wired_length (s : State) :
  wired s -> Z.of_nat (List.length (encoders s)) = numEncoders.
Proof.
  intros [Hw _]. rewrite <- (length_map encoderWiring), Hw. reflexivity.
Qed.

(** Channel [i] lights LEDs [10 i + 1 .. 10 i + 10] through a table that
    is a permutation of 1..10. *)
Lemma wired_order (s : State) (i : Z) :
  wired s -> 0 <= i < numEncoders ->
  exists order,
    EncoderInfo.ledOrder (encoder s i) = Some order /\
    Z.of_nat (List.length order) = ENCODER_LED_COUNT /\
    Forall (fun x => 1 <= x <= ENCODER_LED_COUNT) order /\
    NoDup order /\
    EncoderInfo.startLed (encoder s i) = ENCODER_LED_COUNT * i + 1.
Proof.
  intros Hw Hi. pose proof (wired_encoder s i Hw) as H. unfold encoderWiring in H.
  injection H as _ _ _ _ Hstart Horder _. rewrite Hstart, Horder.
  destruct (numEncoders_cases i Hi) as [-> | [-> | [-> | [-> | [-> | ->]]]]];
    (eexists; split; [reflexivity |]; split; [reflexivity |]; split;
     [repeat constructor; unfold ENCODER_LED_COUNT; lia |];
     split; [repeat constructor; cbn; lia | reflexivity]).
Qed.

Lemma render_runs (i : Z) (s : State) :
  wired s -> 0 <= i < numEncoders -> detentInRange (encoder s i) ->
  exists s', updateEncoderLedDisplay i s = Ok s'.
Proof.
  intros Hw Hi Hd. destruct (wired_order s i Hw Hi) as (order & Horder & Hlen & _).
  destruct (ledsToLight_in_range (encoder s i) Hd) as [_ Hlit].
  destruct (litPixels_runs (encoder s i) order Horder) as (lit & Hrun).
  - rewrite Hlit, Hlen. unfold detentInRange, MAX_ENCODER_VALUE in Hd.
    unfold ENCODER_LED_COUNT.
    enough (EncoderInfo.lastDetentPosition (encoder s i) + 5 < 11 * 10)
      by (apply Z.lt_succ_r; apply Z.div_lt_upper_bound; lia).
    lia.
  - unfold updateEncoderLedDisplay. rewrite Hrun. cbn [bind]. eauto.
Qed.

Lemma encoder_update_encoder (i : Z) (f : EncoderInfo.t -> EncoderInfo.t) (s : State) :
  wired s -> 0 <= i < numEncoders ->
  encoder (update_encoder i f s) i = f (encoder s i).
Proof.
  intros Hw Hi. unfold encoder, update_encoder. cbn [encoders set_encoders].
  apply at_index_update_at. rewrite (wired_length s Hw). exact Hi.
Qed.

Lemma pollEncoder_runs (i : Z) (s : State) :
  sound s -> 0 <= i < numEncoders ->
  exists s', pollEncoder ENCODER_VOLUME_PER_COUNT i s = Ok s' /\ sound s' /\
             serialBuffer s' = serialBuffer s.
Proof.
  intros [Hs Hd] Hi.
  assert (Hrun : exists s', pollEncoder ENCODER_VOLUME_PER_COUNT i s = Ok s').
  { unfold pollEncoder.
    change (Fle ENCODER_VOLUME_PER_COUNT (S754_zero false)) with false. cbv iota zeta.
    set (clamped := Arduino.constrain _ _ _).
    assert (Hc : 0 <= lround clamped <= MAX_ENCODER_VALUE) by apply lround_constrain.
    assert (Hcount : exists c, volumeToEncoderCount ENCODER_VOLUME_PER_COUNT clamped = Ok c).
    { unfold volumeToEncoderCount, divide.
      change (Fle ENCODER_VOLUME_PER_COUNT (S754_zero false)) with false.
      change (is_zero (f64_of_f32 ENCODER_VOLUME_PER_COUNT)) with false. cbn [bind]. eauto. }
    destruct Hcount as (c & Hcount).
    assert (Hstep : forall t, settled t ->
              exists s',
                (if negb (lround clamped =? EncoderInfo.lastDetentPosition (encoder t i))
                 then updateEncoderLedDisplay i
                        (update_encoder i
                           (EncoderInfo.set_lastDetentPosition (lround clamped)) t)
                 else Ok t) = Ok s').
    { intros t Ht. destruct (negb _); [| eauto].
      assert (Hw : wired (update_encoder i
                   (EncoderInfo.set_lastDetentPosition (lround clamped)) t)).
      { apply (settled_update_encoder i _ t); auto. }
      apply render_runs; [exact Hw | exact Hi |].
      rewrite encoder_update_encoder by (apply Ht || exact Hi). exact Hc. }
    destruct (Fne _ _).
    - rewrite Hcount. cbn [bind]. apply Hstep. apply settled_update_encoder; auto.
    - cbn [bind]. apply Hstep. exact Hs. }
  destruct Hrun as (s' & Hrun). exists s'. split; [exact Hrun |]. split; [split |].
  - exact (settled_pollEncoder ENCODER_VOLUME_PER_COUNT i s s' Hs Hrun).
  - exact (pollEncoder_keeps ENCODER_VOLUME_PER_COUNT i s s' Hd Hrun).
  - exact (pollEncoder_buffer ENCODER_VOLUME_PER_COUNT i s s' Hrun).
Qed.

Lemma pollEncoderButton_runs (p : Poll) (i : Z) (s : State) :
  sound s -> 0 <= i < numEncoders ->
  exists s', pollEncoderButton p i s = Ok s' /\ sound s' /\ serialBuffer s' = serialBuffer s.
Proof.
  intros [Hs Hd] Hi.
  assert (Hrun : exists s', pollEncoderButton p i s = Ok s').
  { unfold pollEncoderButton. destruct (accepts _ _ _); [| eauto].
    destruct (reading p); [| eauto].
    set (t := update_encoder i _ s).
    assert (Ht : settled t) by (apply settled_update_encoder; auto).
    apply render_runs; [| exact Hi |].
    - apply (settled_update_encoder i _ t); auto.
    - rewrite encoder_update_encoder by (apply Ht || exact Hi).
      unfold t. rewrite encoder_update_encoder by (apply Hs || exact Hi).
      exact (detentsInRange_encoder s i Hd). }
  destruct Hrun as (s' & Hrun). exists s'. split; [exact Hrun |].
  destruct (pollEncoderButton_keeps p i s s' Hd Hrun) as [Hd' Hb].
  split; [split |]; [exact (settled_pollEncoderButton p i s s' Hs Hrun) | exact Hd' | exact Hb].
Qed.

Lemma processLine_runs (s : State) :
  sound s -> hasChar "V" (serialBuffer s) = false ->
  exists s', processLine ENCODER_VOLUME_PER_COUNT s = Ok s'.
Proof.
  intros [Hs Hd] HV. unfold processLine. cbv zeta.
  apply bind_runs; [| intros; eauto].
  destruct (_ >? 0); [| eauto]. cbv zeta.
  assert (Hid : Ascii.eqb (AString.charAt 0 (serialBuffer s)) "V" = false).
  { destruct (serialBuffer s) as [| a rest]; [reflexivity |].
    cbn in HV. apply orb_false_iff in HV as [Ha _]. exact Ha. }
  rewrite Hid.
  destruct (Ascii.eqb _ "C"); [| destruct (Ascii.eqb _ "B"); [eauto |];
                                 destruct (Ascii.eqb _ "O"); eauto].
  unfold commandC. destruct (_ && _); [| eauto].
  destruct ((_ >=? 0) && (_ <? numEncoders)) eqn:Ei; [| eauto].
  apply andb_true_iff in Ei as [E1 E2]. rewrite Z.geb_leb in E1.
  apply Z.leb_le in E1. apply Z.ltb_lt in E2.
  apply render_runs; [| lia |].
  - apply (settled_update_encoder _ _ s); auto.
    intros e _. split; apply hexToColor_bytes.
  - rewrite encoder_update_encoder by (apply Hs || lia).
    exact (detentsInRange_encoder s _ Hd).
Qed.

Lemma handleSerialCommands_runs (available : string) (s : State) :
  sound s -> hasChar "V" (serialBuffer s ++ available) = false ->
  exists s', handleSerialCommands ENCODER_VOLUME_PER_COUNT available s = Ok s'.
Proof.
  revert s. induction available as [| c rest IH]; intros s Hs HV; cbn [handleSerialCommands].
  - eauto.
  - rewrite hasChar_app in HV. apply orb_false_iff in HV as [HVb HVr].
    cbn in HVr. apply orb_false_iff in HVr as [Hc Hrest].
    assert (Hrec : exists s1, receive ENCODER_VOLUME_PER_COUNT c s = Ok s1 /\ sound s1 /\
                              hasChar "V" (serialBuffer s1) = false).
    { unfold receive. destruct (Ascii.eqb c AString.LF).
      - destruct (processLine_runs s Hs HVb) as (s1 & H1). exists s1.
        split; [exact H1 |]. destruct Hs as [Hs Hd]. split; [split |].
        + exact (settled_processLine ENCODER_VOLUME_PER_COUNT s s1 Hs H1).
        + exact (processLine_keeps ENCODER_VOLUME_PER_COUNT s s1 Hd HVb H1).
        + now rewrite (processLine_resets ENCODER_VOLUME_PER_COUNT s s1 H1).
      - eexists. split; [reflexivity |]. split; [exact Hs |].
        cbn [serialBuffer set_serialBuffer]. rewrite hasChar_app, HVb. cbn.
        now rewrite Hc. }
    destruct Hrec as (s1 & -> & Hs1 & HV1). cbn [bind]. apply IH; [exact Hs1 |].
    now rewrite hasChar_app, HV1, Hrest.
Qed.

Lemma loop_runs_sound (inp : Inputs) (s : State) :
  sound s -> hasChar "V" (serialBuffer s ++ rx inp) = false ->
  exists s', loop ENCODER_VOLUME_PER_COUNT inp s = Ok s'.
Proof.
  intros [Hs Hd] HV. unfold loop.
  set (P := fun t : State => sound t /\ serialBuffer t = serialBuffer s).
  assert (P0 : P (encoderInterrupts (turns inp) s)).
  { destruct (encoderInterrupts_keeps (turns inp) s Hd) as [Hd0 Hb0].
    split; [split |]; [now apply settled_encoderInterrupts | exact Hd0 | exact Hb0]. }
  destruct (for_range_total P (pollEncoder ENCODER_VOLUME_PER_COUNT) 0 numEncoders _
              ltac:(intros j t Hj [Ht Hb];
                    destruct (pollEncoder_runs j t Ht Hj) as (t' & E & Ht' & Hb');
                    exists t'; split; [exact E | split; [exact Ht' | congruence]]) P0)
    as (s1 & -> & P1). cbn [bind].
  destruct (for_range_total P (fun i => pollEncoderButton (encoderPoll inp i) i)
              0 numEncoders _
              ltac:(intros j t Hj [Ht Hb];
                    destruct (pollEncoderButton_runs (encoderPoll inp j) j t Ht Hj)
                      as (t' & E & Ht' & Hb');
                    exists t'; split; [exact E | split; [exact Ht' | congruence]]) P1)
    as (s2 & -> & P2). cbn [bind].
  destruct (for_range_total P (fun i s => Ok (pollOutputButton (buttonPoll inp i) i s))
              0 numButtons _
              ltac:(intros j t Hj [[Ht Hdt] Hb];
                    destruct (pollOutputButton_keeps (buttonPoll inp j) j t) as [He Hb'];
                    eexists; split; [reflexivity |]; split; [split |];
                    [now apply settled_pollOutputButton
                    | unfold detentsInRange; now rewrite He
                    | congruence]) P2)
    as (s3 & -> & [S3 B3]). cbn [bind].
  destruct (handleSerialCommands_runs (rx inp) s3 S3 ltac:(now rewrite B3)) as (s4 & ->).
  cbn [bind]. eauto.
Qed.

(** X13. The shipped firmware completes a pass of [loop] without
    reading outside an array or dividing by zero, from every state it can
    have reached whose detents are in 0..100, when no byte V is buffered or
    received during the pass. *)
Theorem loop_runs (inp : Inputs) (s : State) :
  reachable ENCODER_VOLUME_PER_COUNT s ->
  detentsInRange s ->
  hasChar "V" (serialBuffer s ++ rx inp) = false ->
  exists s', loop ENCODER_VOLUME_PER_COUNT inp s = Ok s'.
Proof.
  intros Hr Hd HV. apply loop_runs_sound; [| exact HV].
  split; [| exact Hd]. now destruct (reachable_settled _ s Hr).
Qed.

Lemma loop_runs_witness :
  exists s', loop ENCODER_VOLUME_PER_COUNT (receiving "C:0:#ff0000:#00ff00") booted = Ok s'.
Proof.
  apply (loop_runs (receiving "C:0:#ff0000:#00ff00") booted).
  - exact (reach_setup _ _ setup_booted).
  - vm_compute. repeat constructor; discriminate.
  - vm_compute. reflexivity.
Defined.

(** ** The encoder step comes to rest *)

Lemma wrap32_range (z : Z) : - 2 ^ 31 <= Int.wrap32 z < 2 ^ 31.
Proof.
  unfold Int.wrap32. pose proof (Z.mod_pos_bound (z + 2 ^ 31) (2 ^ 32) ltac:(lia)). lia.
Qed.

Lemma Fne_same (x : spec_float) : x <> S754_nan -> Fne x x = false.
Proof.
  intros Hx.
  assert (E : forall q : Q, (q ?= q)%Q = Eq) by (intros q; apply Qeq_alt; reflexivity).
  unfold Fne, Feq, Fcompare.
  destruct x as [sx | sx | | sx m e]; try congruence; try (now destruct sx);
    now rewrite E.
Qed.

Lemma shipped_volume_is_a_number (rawCount : Z) :
  encoderCountToVolume ENCODER_VOLUME_PER_COUNT rawCount <> S754_nan.
Proof.
  unfold encoderCountToVolume.
  destruct (Z.eq_dec (Int.wrap32 (- rawCount)) 0) as [-> | Hn].
  - vm_compute. discriminate.
  - destruct (half_of_count_shape (Int.wrap32 (- rawCount)) Hn) as (m & e & -> & _).
    + pose proof (wrap32_range (- rawCount)). lia.
    + discriminate.
Qed.

Lemma getRawCount_count (e e' : EncoderInfo.t) :
  EncoderInfo.count e = EncoderInfo.count e' ->
  EncoderInfo.getRawCount e = EncoderInfo.getRawCount e'.
Proof.
  unfold EncoderInfo.getRawCount, EncoderInfo.driver_read. now intros ->.
Qed.

Lemma getRawCount_set_lastDetentPosition (d : Z) (e : EncoderInfo.t) :
  EncoderInfo.getRawCount (EncoderInfo.set_lastDetentPosition d e)
  = EncoderInfo.getRawCount e.
Proof.
  reflexivity.
Qed.

Lemma atRest_by_count (K : spec_float) (e e' : EncoderInfo.t) :
  EncoderInfo.count e = EncoderInfo.count e' ->
  EncoderInfo.lastDetentPosition e = EncoderInfo.lastDetentPosition e' ->
  atRest K e' -> atRest K e.
Proof.
  intros Hc Hd. unfold atRest. cbv zeta.
  rewrite (getRawCount_count e e' Hc), Hd. exact (fun H => H).
Qed.

Lemma rest_at_zero :
  atRest ENCODER_VOLUME_PER_COUNT
    (EncoderInfo.set_lastDetentPosition 0 (EncoderInfo.setRawCount 0 noEncoder)).
Proof.
  split; vm_compute; reflexivity.
Qed.

Lemma rest_at_full :
  atRest ENCODER_VOLUME_PER_COUNT
    (EncoderInfo.set_lastDetentPosition 100 (EncoderInfo.setRawCount (-200) noEncoder)).
Proof.
  split; vm_compute; reflexivity.
Qed.

Lemma count_at_zero :
  volumeToEncoderCount ENCODER_VOLUME_PER_COUNT (S754_zero false) = Ok 0.
Proof.
  vm_compute. reflexivity.
Qed.

Lemma count_at_full :
  volumeToEncoderCount ENCODER_VOLUME_PER_COUNT (f64_of_Z MAX_ENCODER_VALUE) = Ok (-200).
Proof.
  vm_compute. reflexivity.
Qed.

Lemma lround_at_zero : lround (S754_zero false) = 0.
Proof.
  vm_compute. reflexivity.
Qed.

Lemma lround_at_full : lround (f64_of_Z MAX_ENCODER_VALUE) = 100.
Proof.
  vm_compute. reflexivity.
Qed.

Lemma atRest_poll (K : spec_float) (i : Z) (s : State) :
  atRest K (encoder s i) -> pollEncoder K i s = Ok s.
Proof.
  intros [Hne Hround]. unfold pollEncoder.
  destruct (Fle K _); [reflexivity |]. cbv zeta.
  rewrite Hne. cbn [bind]. rewrite Hround, Z.eqb_refl. reflexivity.
Qed.

Lemma constrain_cases (x low high : spec_float) :
  x <> S754_nan -> Fne x (Arduino.constrain x low high) = true ->
  Arduino.constrain x low high = low \/ Arduino.constrain x low high = high.
Proof.
  intros Hx. unfold Arduino.constrain.
  destruct (Flt x low); [now left |]. destruct (Fgt x high); [now right |].
  rewrite (Fne_same x Hx). discriminate.
Qed.

Lemma corrected_rest (e : EncoderInfo.t) (clamped : spec_float) (c : Z) :
  clamped = S754_zero false \/ clamped = f64_of_Z MAX_ENCODER_VALUE ->
  volumeToEncoderCount ENCODER_VOLUME_PER_COUNT clamped = Ok c ->
  atRest ENCODER_VOLUME_PER_COUNT
    (EncoderInfo.set_lastDetentPosition (lround clamped) (EncoderInfo.setRawCount c e)).
Proof.
  intros [-> | ->] Hc.
  - rewrite count_at_zero in Hc. apply Ok_inj in Hc. subst c.
    refine (atRest_by_count _ _ _ _ _ rest_at_zero); [reflexivity | exact lround_at_zero].
  - rewrite count_at_full in Hc. apply Ok_inj in Hc. subst c.
    refine (atRest_by_count _ _ _ _ _ rest_at_full); [reflexivity | exact lround_at_full].
Qed.

Lemma uncorrected_rest (K : spec_float) (e : EncoderInfo.t) (requested clamped : spec_float) :
  requested = encoderCountToVolume K (EncoderInfo.getRawCount e) ->
  clamped = Arduino.constrain requested (S754_zero false) (f64_of_Z MAX_ENCODER_VALUE) ->
  Fne requested clamped = false ->
  atRest K (EncoderInfo.set_lastDetentPosition (lround clamped) e).
Proof.
  intros -> -> Hne. unfold atRest. cbv zeta.
  rewrite getRawCount_set_lastDetentPosition.
  split; [exact Hne |].
  cbn [EncoderInfo.lastDetentPosition EncoderInfo.set_lastDetentPosition]. reflexivity.
Qed.

Lemma atRest_detent (K : spec_float) (e : EncoderInfo.t) (d : Z) :
  atRest K (EncoderInfo.set_lastDetentPosition d e) ->
  d = EncoderInfo.lastDetentPosition e -> atRest K e.
Proof.
  unfold atRest. cbv zeta. rewrite getRawCount_set_lastDetentPosition.
  cbn [EncoderInfo.lastDetentPosition EncoderInfo.set_lastDetentPosition].
  intros [R1 R2] <-. split; [exact R1 | exact R2].
Qed.

Lemma shipped_scale_positive : Fle ENCODER_VOLUME_PER_COUNT (S754_zero false) = false.
Proof.
  vm_compute. reflexivity.
Qed.

Section Rest.

Variable K : spec_float.
Hypothesis positive : Fle K (S754_zero false) = false.
Hypothesis number : forall rawCount, encoderCountToVolume K rawCount <> S754_nan.
Hypothesis corrected :
  forall e clamped c,
    clamped = S754_zero false \/ clamped = f64_of_Z MAX_ENCODER_VALUE ->
    volumeToEncoderCount K clamped = Ok c ->
    atRest K (EncoderInfo.set_lastDetentPosition (lround clamped)
                (EncoderInfo.setRawCount c e)).

Lemma pollEncoder_rests (i : Z) (s s' : State) :
  0 <= i < Z.of_nat (List.length (encoders s)) ->
  pollEncoder K i s = Ok s' ->
  atRest K (encoder s' i).
Proof.
  intros Hi H. unfold pollEncoder in H. rewrite positive in H.
  apply bind_Ok_inv in H as (s1 & H1 & H2).
  remember (encoderCountToVolume K (EncoderInfo.getRawCount (encoder s i)))
    as requested eqn:Hreq.
  remember (Arduino.constrain requested (S754_zero false) (f64_of_Z MAX_ENCODER_VALUE))
    as clamped eqn:Hclamped.
  assert (Hrest : List.length (encoders s1) = List.length (encoders s) /\
                  atRest K (EncoderInfo.set_lastDetentPosition (lround clamped)
                              (encoder s1 i))).
  { destruct (Fne requested clamped) eqn:Hne.
    - apply bind_Ok_inv in H1 as (c & Hc & H1). apply Ok_inj in H1. subst s1.
      split; [cbn [encoders update_encoder set_encoders]; apply length_update_at |].
      unfold encoder, update_encoder. cbn [encoders set_encoders].
      rewrite at_index_update_at by exact Hi.
      apply corrected; [| exact Hc].
      rewrite Hclamped in Hne |- *. apply constrain_cases; [| exact Hne].
      rewrite Hreq. apply number.
    - apply Ok_inj in H1. subst s1. split; [reflexivity |].
      exact (uncorrected_rest _ _ _ _ Hreq Hclamped Hne). }
  destruct Hrest as [Hlen1 Hrest].
  destruct (negb _) eqn:Hchg.
  - apply updateEncoderLedDisplay_emit in H2 as (ev & ->).
    unfold encoder, update_encoder. cbn [encoders emit set_encoders].
    rewrite at_index_update_at by (rewrite Hlen1; exact Hi). exact Hrest.
  - apply Ok_inj in H2. subst s'. apply negb_false_iff, Z.eqb_eq in Hchg.
    exact (atRest_detent _ _ _ Hrest Hchg).
Qed.

End Rest.

Lemma pollEncoder_comes_to_rest (i : Z) (s s' : State) :
  0 <= i < Z.of_nat (List.length (encoders s)) ->
  pollEncoder ENCODER_VOLUME_PER_COUNT i s = Ok s' ->
  atRest ENCODER_VOLUME_PER_COUNT (encoder s' i).
Proof.
  exact (pollEncoder_rests ENCODER_VOLUME_PER_COUNT shipped_scale_positive
           shipped_volume_is_a_number corrected_rest i s s').
Qed.

(** X14. With the shipped scale factor the encoder step is idempotent:
    it leaves the polled channel at rest (its counter stands for a volume
    within 0..100 and its detent is that volume, rounded), so that polling
    the channel again, with no turn of the knob in between, changes
    nothing and writes nothing to the LEDs. *)
Theorem pollEncoder_idempotent (i : Z) (s s' : State) :
  0 <= i < Z.of_nat (List.length (encoders s)) ->
  pollEncoder ENCODER_VOLUME_PER_COUNT i s = Ok s' ->
  atRest ENCODER_VOLUME_PER_COUNT (encoder s' i) /\
  pollEncoder ENCODER_VOLUME_PER_COUNT i s' = Ok s'.
Proof.
  intros Hi H. pose proof (pollEncoder_comes_to_rest i s s' Hi H) as Hrest.
  split; [exact Hrest | now apply atRest_poll].
Qed.

(** Channel 2 after 250 detents of clockwise rotation from power-on. *)
Lemma pollEncoder_idempotent_witness :
  exists s',
    pollEncoder ENCODER_VOLUME_PER_COUNT 2
      (encoderInterrupts (fun i => if i =? 2 then -250 else 0) booted) = Ok s' /\
    EncoderInfo.lastDetentPosition (encoder s' 2) = 100 /\
    pollEncoder ENCODER_VOLUME_PER_COUNT 2 s' = Ok s'.
Proof.
  eexists. split; [vm_compute; reflexivity |]. split; [vm_compute; reflexivity |].
  eapply (pollEncoder_idempotent 2
            (encoderInterrupts (fun i => if i =? 2 then -250 else 0) booted)).
  - vm_compute. split; [discriminate | reflexivity].
  - vm_compute. reflexivity.
Defined.

(** ** The volume of a count, exactly *)

Lemma half_of_count_exact (n : Z) :
  n <> 0 -> - 2 ^ 24 < n < 2 ^ 24 ->
  exists m e,
    f64_of_f32 (f32_mul (f32_of_Z n) ENCODER_VOLUME_PER_COUNT)
    = S754_finite (n <? 0) m e /\
    e < 0 /\ 2 * Zpos m = Z.abs n * 2 ^ (- e).
Proof.
  intros Hn Hr.
  destruct (f32_of_Z_shape n Hn ltac:(lia)) as (m1 & e1 & -> & Hd & Hc).
  destruct Hc as [(_ & He & Hm1) | (Hbig & _)]; [| lia].
  rewrite f32_mul_half by (assumption || lia).
  destruct (f64_of_f32_exact (n <? 0) m1 (e1 - 1) Hd ltac:(lia)) as (m & -> & Hm).
  exists m, (e1 - 1 - 29). split; [reflexivity |]. split; [lia |].
  rewrite Hm, Hm1. replace (- (e1 - 1 - 29)) with (- e1 + 30) by lia.
  rewrite Z.pow_add_r by lia. lia.
Qed.

(** X15. With the shipped scale factor the volume of a counter value is
    exact over every count a knob can reach in practice: for a count of
    magnitude below 2^24 the binary32 product and its widening to double
    are a number, not NaN or an infinity, with the value -count / 2. *)
Theorem encoderCountToVolume_halves (rawCount : Z) :
  - 2 ^ 24 < rawCount < 2 ^ 24 ->
  encoderCountToVolume ENCODER_VOLUME_PER_COUNT rawCount <> S754_nan /\
  (forall sign, encoderCountToVolume ENCODER_VOLUME_PER_COUNT rawCount
                <> S754_infinity sign) /\
  (F2Q (encoderCountToVolume ENCODER_VOLUME_PER_COUNT rawCount) == - rawCount # 2)%Q.
Proof.
  intros Hr. unfold encoderCountToVolume.
  rewrite (wrap32_small (- rawCount)) by lia.
  destruct (Z.eq_dec (- rawCount) 0) as [Hz | Hn].
  - rewrite Hz.
    replace (f64_of_f32 (f32_mul (f32_of_Z 0) ENCODER_VOLUME_PER_COUNT))
      with (S754_zero false) by (vm_compute; reflexivity).
    split; [discriminate |]. split; [discriminate |].
    unfold Qeq. cbn [F2Q Qnum Qden]. lia.
  - destruct (half_of_count_exact (- rawCount) Hn ltac:(lia)) as (m & e & -> & He & Hm).
    repeat split; try discriminate.
    unfold F2Q. replace (0 <=? e) with false by (symmetry; apply Z.leb_gt; lia).
    unfold Qeq. cbn [Qnum Qden].
    assert (Hp : 0 < 2 ^ (- e)) by (apply Z.pow_pos_nonneg; lia).
    rewrite Z2Pos.id by exact Hp.
    destruct (Z.ltb_spec (- rawCount) 0); cbn [cond_Zopp]; lia.
Qed.

Lemma encoderCountToVolume_halves_witness :
  (F2Q (encoderCountToVolume ENCODER_VOLUME_PER_COUNT (-37)) == 37 # 2)%Q.
Proof.
  apply (encoderCountToVolume_halves (-37)). lia.
Defined.

(** ** Where the rendering pass writes *)

Lemma Forall2_Forall_r {A B : Type} (R : A -> B -> Prop) (Q : B -> Prop)
      (xs : list A) (ys : list B) :
  (forall x y, In x xs -> R x y -> Q y) -> Forall2 R xs ys -> Forall Q ys.
Proof.
  intros HQ H. apply Forall_forall. intros y Hy.
  destruct (Forall2_In_r R xs ys y H Hy) as (x & Hx & HR). eauto.
Qed.

Lemma Forall2_Forall_l {A B : Type} (R : A -> B -> Prop) (Q : A -> Prop)
      (xs : list A) (ys : list B) :
  (forall x y, R x y -> Q x) -> Forall2 R xs ys -> Forall Q xs.
Proof.
  intros HQ. induction 1; constructor; eauto.
Qed.

(** X16. The rendering pass of channel [i] stays in its own segment:
    with the arrays as initialised, every LED it writes, when clearing and
    when lighting, is one of LEDs 10 i + 1 .. 10 i + 10 (never a button LED
    nor the backlight, nor another channel's), and no LED is lit twice. *)
Theorem updateEncoderLedDisplay_in_segment (i : Z) (s s' : State) :
  wired s -> 0 <= i < numEncoders ->
  updateEncoderLedDisplay i s = Ok s' ->
  exists lit,
    s' = paint (clearedPixels (encoder s i) ++ lit) s /\
    Forall (fun px => ENCODER_LED_COUNT * i + 1 <= fst px <= ENCODER_LED_COUNT * (i + 1))
           (clearedPixels (encoder s i) ++ lit) /\
    NoDup (List.map fst lit) /\
    Z.of_nat (List.length lit) = Z.max 0 (ledsToLight (encoder s i)).
Proof.
  intros Hw Hi H. unfold updateEncoderLedDisplay in H.
  apply bind_Ok_inv in H as (lit & Hlit & H). apply Ok_inj in H. subst s'.
  destruct (wired_order s i Hw Hi) as (order & Horder & Hlen & Hin & Hnd & Hstart).
  pose proof (litPixels_targets (encoder s i) order lit Horder Hlit) as Ht.
  exists lit. split; [reflexivity |]. split; [| split].
  - apply Forall_app. split.
    + unfold clearedPixels. apply Forall_forall. intros px Hpx.
      apply in_map_iff in Hpx as (k & <- & Hk). apply in_range in Hk.
      cbn [fst]. rewrite Hstart. unfold ENCODER_LED_COUNT in *. lia.
    + refine (Forall2_Forall_r _ _ _ _ _ Ht).
      intros k px _ (_ & localLed & Hnth & ->). apply nth_error_In in Hnth.
      rewrite Forall_forall in Hin. specialize (Hin localLed Hnth).
      rewrite Hstart. unfold ENCODER_LED_COUNT in *. lia.
  - exact (targets_NoDup _ order _ lit Hnd (range_NoDup _ _) Ht).
  - rewrite <- (Forall2_length_eq _ _ _ Ht), range_length. lia.
Qed.

Lemma updateEncoderLedDisplay_in_segment_witness :
  exists (s' : State) (lit : list (Z * Color)),
    updateEncoderLedDisplay 3 (update_encoder 3 (EncoderInfo.set_lastDetentPosition 42) booted)
    = Ok s' /\
    Z.of_nat (List.length lit) = 4 /\
    Forall (fun px => 31 <= fst px <= 40) lit.
Proof.
  destruct (updateEncoderLedDisplay_in_segment 3
              (update_encoder 3 (EncoderInfo.set_lastDetentPosition 42) booted)
              _ ltac:(split; vm_compute; reflexivity)
              ltac:(vm_compute; split; [discriminate | reflexivity])
              ltac:(vm_compute; reflexivity))
    as (lit & _ & Hseg & _ & Hlen).
  eexists. exists lit. split; [vm_compute; reflexivity |]. split.
  - rewrite Hlen. vm_compute. reflexivity.
  - apply Forall_app in Hseg as [_ Hseg]. exact Hseg.
Defined.

(** X17. A channel with a wiring table is rendered without reading past
    the table exactly when the number of LEDs to light is at most the
    length of the table. *)
Theorem litPixels_runs_iff (enc : EncoderInfo.t) (order : list Z) :
  EncoderInfo.ledOrder enc = Some order ->
  (exists lit, litPixels enc = Ok lit) <->
  ledsToLight enc <= Z.of_nat (List.length order).
Proof.
  intros Horder. split.
  - intros (lit & Hlit).
    pose proof (litPixels_targets enc order lit Horder Hlit) as Ht.
    destruct (Z.le_gt_cases (ledsToLight enc) 0) as [Hle | Hpos]; [lia |].
    assert (Hlast : In (ledsToLight enc - 1) (range 0 (ledsToLight enc)))
      by (apply in_range; lia).
    assert (Hall : Forall (fun k => 0 <= k /\ exists localLed,
                             nth_error order (Z.to_nat k) = Some localLed)
                          (range 0 (ledsToLight enc))).
    { refine (Forall2_Forall_l _ _ _ _ _ Ht).
      intros k px (Hk & l & Hl & _). eauto. }
    rewrite Forall_forall in Hall.
    destruct (Hall _ Hlast) as (_ & localLed & Hnth).
    assert (Hlt : (Z.to_nat (ledsToLight enc - 1) < List.length order)%nat)
      by (apply nth_error_Some; congruence).
    lia.
  - intros Hle. exact (litPixels_runs enc order Horder Hle).
Qed.

Lemma litPixels_runs_iff_witness :
  ~ exists lit,
      litPixels (EncoderInfo.set_lastDetentPosition 200
                   (at_index noEncoder encoders_init 0)) = Ok lit.
Proof.
  intros H.
  apply (litPixels_runs_iff (EncoderInfo.set_lastDetentPosition 200
                               (at_index noEncoder encoders_init 0))
           ENCODER_LED_ORDER_E1 eq_refl) in H.
  vm_compute in H. apply H. reflexivity.
Defined.

(** ** The telemetry line *)

Lemma allChars_app (test : ascii -> bool) (x y : string) :
  allChars test (x ++ y)%string = allChars test x && allChars test y.
Proof.
  induction x as [| a x IH]; cbn; [reflexivity | now rewrite IH, andb_assoc].
Qed.

Lemma countChar_app (c : ascii) (x y : string) :
  countChar c (x ++ y)%string = countChar c x + countChar c y.
Proof.
  induction x as [| a x IH]; cbn [append countChar]; [reflexivity | rewrite IH; lia].
Qed.

Lemma fields_checked :
  forallb (fun v => isField (AString.ofInt v)
                    && allChars telemetryChar (AString.ofInt v)
                    && (countChar "|" (AString.ofInt v) =? 0))
          (range 0 1024) = true.
Proof.
  vm_compute. reflexivity.
Qed.

Lemma field_of_value (v : Z) :
  0 <= v <= 1023 ->
  isField (AString.ofInt v) = true /\
  allChars telemetryChar (AString.ofInt v) = true /\
  countChar "|" (AString.ofInt v) = 0.
Proof.
  intros Hv. pose proof fields_checked as H. rewrite forallb_forall in H.
  specialize (H v ltac:(apply in_range; lia)).
  apply andb_true_iff in H as [H H3]. apply andb_true_iff in H as [H1 H2].
  apply Z.eqb_eq in H3. auto.
Qed.

Lemma builtString_fields (s : State) :
  builtString s
  = (AString.ofInt (deejValue (encoder s 0)) ++ "|" ++
     AString.ofInt (deejValue (encoder s 1)) ++ "|" ++
     AString.ofInt (deejValue (encoder s 2)) ++ "|" ++
     AString.ofInt (deejValue (encoder s 3)) ++ "|" ++
     AString.ofInt (deejValue (encoder s 4)) ++ "|" ++
     AString.ofInt (deejValue (encoder s 5)))%string.
Proof.
  unfold builtString. change (range 0 numEncoders) with [0; 1; 2; 3; 4; 5].
  change (numEncoders - 1) with 5. cbn [fold_left].
  change (0 <? 5) with true. change (1 <? 5) with true. change (2 <? 5) with true.
  change (3 <? 5) with true. change (4 <? 5) with true. change (5 <? 5) with false.
  cbv iota. cbn [append]. now rewrite !string_app_assoc.
Qed.

(** X18. While the detents are in 0..100 the telemetry line is well
    framed: it consists of decimal digits and the separator only (no sign,
    no blank, no line break inside), and it holds exactly numEncoders - 1
    separators, that is one field per channel. *)
Theorem telemetry_line_is_framed (s : State) :
  detentsInRange s ->
  allChars telemetryChar (builtString s) = true /\
  countChar "|" (builtString s) = numEncoders - 1 /\
  forall i, isField (AString.ofInt (deejValue (encoder s i))) = true.
Proof.
  intros Hs.
  assert (Hf : forall i,
            isField (AString.ofInt (deejValue (encoder s i))) = true /\
            allChars telemetryChar (AString.ofInt (deejValue (encoder s i))) = true /\
            countChar "|" (AString.ofInt (deejValue (encoder s i))) = 0).
  { intros i. apply field_of_value, deejValue_range. right.
    now apply detentsInRange_encoder. }
  rewrite builtString_fields. split; [| split].
  - rewrite !allChars_app.
    rewrite (proj1 (proj2 (Hf 0))), (proj1 (proj2 (Hf 1))), (proj1 (proj2 (Hf 2))),
      (proj1 (proj2 (Hf 3))), (proj1 (proj2 (Hf 4))), (proj1 (proj2 (Hf 5))).
    reflexivity.
  - rewrite !countChar_app.
    rewrite (proj2 (proj2 (Hf 0))), (proj2 (proj2 (Hf 1))), (proj2 (proj2 (Hf 2))),
      (proj2 (proj2 (Hf 3))), (proj2 (proj2 (Hf 4))), (proj2 (proj2 (Hf 5))).
    reflexivity.
  - intros i. apply Hf.
Qed.

Lemma telemetry_line_is_framed_witness :
  countChar "|" (builtString telemetry_example) = numEncoders - 1.
Proof.
  apply (telemetry_line_is_framed telemetry_example).
  vm_compute. repeat constructor; discriminate.
Defined.

Lemma deejValue_share (enc : EncoderInfo.t) :
  EncoderInfo.isMuted enc = false -> detentInRange enc ->
  deejValue enc = EncoderInfo.lastDetentPosition enc * 1023 / MAX_ENCODER_VALUE.
Proof.
  unfold deejValue, detentInRange, MAX_ENCODER_VALUE. intros -> H.
  set (v := EncoderInfo.lastDetentPosition enc) in *.
  unfold Arduino.map.
  change (Int.wrap32 (100 - 0)) with 100. change (100 =? 0) with false.
  change (Int.wrap32 (1023 - 0)) with 1023. cbv zeta.
  rewrite (wrap32_small v) by lia.
  rewrite Z.sub_0_r. rewrite (wrap32_small v) by lia.
  rewrite (wrap32_small (v * 1023)) by lia.
  rewrite Z.quot_div_nonneg by lia.
  assert (0 <= v * 1023 / 100 <= 1023).
  { split; [apply Z.div_pos; lia | apply Z.div_le_upper_bound; lia]. }
  rewrite Z.add_0_r, wrap32_small; lia.
Qed.

(** X19. The value reported for an unmuted channel whose detent [v] is
    in 0..100 is v * 1023 / 100 rounded down: 0 at 0, 1023 at 100, and
    strictly increasing in between, so that the detent can be read back
    from it as the quotient of value * 100 + 1022 by 1023. *)
Theorem deejValue_determines_detent (enc other : EncoderInfo.t) :
  EncoderInfo.isMuted enc = false -> detentInRange enc ->
  EncoderInfo.isMuted other = false -> detentInRange other ->
  deejValue enc = EncoderInfo.lastDetentPosition enc * 1023 / MAX_ENCODER_VALUE /\
  (deejValue enc * MAX_ENCODER_VALUE + 1022) / 1023 = EncoderInfo.lastDetentPosition enc /\
  (EncoderInfo.lastDetentPosition enc < EncoderInfo.lastDetentPosition other ->
   deejValue enc < deejValue other).
Proof.
  intros Hm Hd Hm' Hd'.
  rewrite (deejValue_share enc Hm Hd), (deejValue_share other Hm' Hd').
  unfold detentInRange, MAX_ENCODER_VALUE in *.
  set (v := EncoderInfo.lastDetentPosition enc) in *.
  set (w := EncoderInfo.lastDetentPosition other) in *.
  pose proof (Z.div_mod (v * 1023) 100 ltac:(lia)) as Ev.
  pose proof (Z.mod_pos_bound (v * 1023) 100 ltac:(lia)) as Bv.
  pose proof (Z.div_mod (w * 1023) 100 ltac:(lia)) as Ew.
  pose proof (Z.mod_pos_bound (w * 1023) 100 ltac:(lia)) as Bw.
  split; [reflexivity |]. split.
  - symmetry. apply Z.div_unique with (r := v * 1023 / 100 * 100 + 1022 - 1023 * v); lia.
  - intros Hlt. lia.
Qed.

Lemma deejValue_determines_detent_witness :
  (deejValue (atDetent 37) * MAX_ENCODER_VALUE + 1022) / 1023 = 37.
Proof.
  apply (deejValue_determines_detent (atDetent 37) (atDetent 37));
    (reflexivity || (vm_compute; split; discriminate)).
Defined.

(** ** A volume command within the range *)

Lemma atRestb_sound (K : spec_float) (e : EncoderInfo.t) :
  atRestb K e = true -> atRest K e.
Proof.
  unfold atRestb, atRest. cbv zeta. intros H.
  apply andb_true_iff in H as [A B]. apply negb_true_iff in A. apply Z.eqb_eq in B.
  split; [exact A | exact B].
Qed.

Lemma volume_lines_checked :
  forallb (fun i => forallb (volumeLineParses i) (range 0 (MAX_ENCODER_VALUE + 1)))
          (range 0 numEncoders) = true.
Proof.
  vm_compute. reflexivity.
Qed.

Lemma volume_counts_checked :
  forallb (fun k =>
     match volumeToEncoderCount ENCODER_VOLUME_PER_COUNT (f64_of_Z k) with
     | Ok c => (c =? -2 * k)
               && atRestb ENCODER_VOLUME_PER_COUNT
                    (EncoderInfo.setRawCount c (atDetent k))
     | Fault _ => false
     end) (range 0 (MAX_ENCODER_VALUE + 1)) = true.
Proof.
  vm_compute. reflexivity.
Qed.

Lemma nth_update_nth_other {A : Type} (d : A) (f : A -> A) (l : list A) (n m : nat) :
  n <> m -> nth m (update_nth n f l) d = nth m l d.
Proof.
  revert n m. induction l as [| x l IH]; intros [| n] [| m] H; cbn; try reflexivity;
    try congruence.
  apply IH. congruence.
Qed.

Lemma at_index_update_at_other {A : Type} (d : A) (f : A -> A) (l : list A) (i j : Z) :
  0 <= j -> j <> i -> at_index d (update_at i f l) j = at_index d l j.
Proof.
  intros Hj Hne. unfold at_index, update_at.
  destruct (Z.ltb_spec i 0); [reflexivity |].
  apply nth_update_nth_other. lia.
Qed.

Section VolumeCommand.

Variable K : spec_float.

Lemma processLine_volume (i k c : Z) (s : State) :
  wired s -> 0 <= i < numEncoders -> 0 <= k <= MAX_ENCODER_VALUE ->
  serialBuffer s = volumeLine i k ->
  volumeLineParses i k = true ->
  volumeToEncoderCount K (f64_of_Z k) = Ok c ->
  exists s' events,
    processLine K s = Ok s' /\
    s' = set_serialBuffer EmptyString
           (emit events
              (update_encoder i (EncoderInfo.setRawCount c)
                 (update_encoder i (EncoderInfo.set_lastDetentPosition k) s))).
Proof.
  intros Hw Hi Hk Hbuf Hparse Hc.
  unfold volumeLineParses in Hparse. cbv zeta in Hparse.
  apply andb_true_iff in Hparse as [Hparse P5].
  apply andb_true_iff in Hparse as [Hparse P4].
  apply andb_true_iff in Hparse as [Hparse P3].
  apply andb_true_iff in Hparse as [P1 P2].
  apply Z.eqb_eq in P4, P5.
  unfold processLine. cbv zeta. rewrite Hbuf, P1, P2.
  unfold commandV. cbv zeta. rewrite P3, P4, P5.
  replace ((i >=? 0) && (i <? numEncoders)) with true.
  2:{ symmetry. apply andb_true_iff. rewrite Z.geb_leb, Z.leb_le, Z.ltb_lt. lia. }
  assert (Hw1 : wired (update_encoder i (EncoderInfo.set_lastDetentPosition k) s)).
  { destruct Hw as [He Hb]. split; [| exact Hb].
    unfold update_encoder. cbn [encoders set_encoders buttons].
    rewrite map_update_at; [exact He | reflexivity]. }
  rewrite (encoder_update_encoder i _ s Hw Hi).
  cbn [EncoderInfo.lastDetentPosition EncoderInfo.set_lastDetentPosition].
  rewrite Hc. cbn [bind].
  assert (Hw2 : wired (update_encoder i (EncoderInfo.setRawCount c)
                         (update_encoder i (EncoderInfo.set_lastDetentPosition k) s))).
  { destruct Hw1 as [He Hb]. split; [| exact Hb].
    unfold update_encoder at 1. cbn [encoders set_encoders buttons].
    rewrite map_update_at; [exact He | reflexivity]. }
  destruct (render_runs i _ Hw2 Hi) as (s3 & H3).
  { rewrite (encoder_update_encoder i _ _ Hw1 Hi), (encoder_update_encoder i _ s Hw Hi).
    exact Hk. }
  pose proof H3 as H3'. apply updateEncoderLedDisplay_emit in H3' as (ev & ->).
  rewrite H3. cbn [bind]. eauto.
Qed.

End VolumeCommand.

(** X20. A V command within the range does what it says. With the
    arrays as initialised, the buffered line "V:i:x.xx" for a channel [i]
    and a volume of [k] hundredths, [k] in 0..100, is carried out without
    a fault: it sets the detent of channel [i] to [k] and its counter to
    [-2 k], which puts the channel at rest (the next encoder step changes
    nothing), leaves the other channels as they were and empties the
    buffer. *)
Theorem volume_command_in_range (i k : Z) (s : State) :
  wired s -> 0 <= i < numEncoders -> 0 <= k <= MAX_ENCODER_VALUE ->
  serialBuffer s = volumeLine i k ->
  exists s',
    processLine ENCODER_VOLUME_PER_COUNT s = Ok s' /\
    encoder s' i
    = EncoderInfo.setRawCount (-2 * k)
        (EncoderInfo.set_lastDetentPosition k (encoder s i)) /\
    atRest ENCODER_VOLUME_PER_COUNT (encoder s' i) /\
    pollEncoder ENCODER_VOLUME_PER_COUNT i s' = Ok s' /\
    (forall j, 0 <= j -> j <> i -> encoder s' j = encoder s j) /\
    serialBuffer s' = EmptyString.
Proof.
  intros Hw Hi Hk Hbuf.
  pose proof volume_lines_checked as Hlines. rewrite forallb_forall in Hlines.
  specialize (Hlines i ltac:(apply in_range; lia)). rewrite forallb_forall in Hlines.
  specialize (Hlines k ltac:(apply in_range; lia)).
  pose proof volume_counts_checked as Hcounts. rewrite forallb_forall in Hcounts.
  specialize (Hcounts k ltac:(apply in_range; lia)).
  destruct (volumeToEncoderCount ENCODER_VOLUME_PER_COUNT (f64_of_Z k)) as [c |] eqn:Hc;
    [| discriminate].
  apply andb_true_iff in Hcounts as [Ec Hrest]. apply Z.eqb_eq in Ec. subst c.
  apply atRestb_sound in Hrest.
  destruct (processLine_volume ENCODER_VOLUME_PER_COUNT i k (-2 * k) s Hw Hi Hk Hbuf Hlines Hc)
    as (s' & ev & Hrun & Hs').
  assert (Hlen : 0 <= i < Z.of_nat (List.length (encoders s)))
    by (rewrite (wired_length s Hw); exact Hi).
  assert (Henc : encoder s' i
                 = EncoderInfo.setRawCount (-2 * k)
                     (EncoderInfo.set_lastDetentPosition k (encoder s i))).
  { rewrite Hs'. unfold encoder, update_encoder.
    cbn [encoders set_serialBuffer emit set_encoders].
    rewrite at_index_update_at by (rewrite length_update_at; exact Hlen).
    now rewrite at_index_update_at by exact Hlen. }
  assert (Hrest' : atRest ENCODER_VOLUME_PER_COUNT (encoder s' i)).
  { rewrite Henc.
    refine (atRest_by_count _ _ _ _ _ Hrest); reflexivity. }
  exists s'. split; [exact Hrun |]. split; [exact Henc |]. split; [exact Hrest' |].
  split; [now apply atRest_poll |]. split.
  - intros j Hj0 Hj. rewrite Hs'. unfold encoder, update_encoder.
    cbn [encoders set_serialBuffer emit set_encoders].
    now rewrite !at_index_update_at_other by (exact Hj0 || exact Hj).
  - now rewrite Hs'.
Qed.

Lemma volume_command_in_range_witness :
  exists s',
    processLine ENCODER_VOLUME_PER_COUNT (set_serialBuffer "V:4:0.37" booted) = Ok s' /\
    EncoderInfo.lastDetentPosition (encoder s' 4) = 37 /\
    EncoderInfo.count (encoder s' 4) = -74.
Proof.
  destruct (volume_command_in_range 4 37 (set_serialBuffer "V:4:0.37" booted))
    as (s' & Hrun & Henc & _).
  - split; vm_compute; reflexivity.
  - vm_compute. split; [discriminate | reflexivity].
  - vm_compute. split; discriminate.
  - vm_compute. reflexivity.
  - exists s'. split; [exact Hrun |]. rewrite Henc. split; reflexivity.
Defined.

(** ** What a turn of the knob does *)

Section Result.

Variable K : spec_float.
Hypothesis positive : Fle K (S754_zero false) = false.

(** The detent and the counter [pollEncoder] leaves, in terms of the
    volume it computes. *)
Lemma pollEncoder_result (i : Z) (s s' : State) :
  0 <= i < Z.of_nat (List.length (encoders s)) ->
  pollEncoder K i s = Ok s' ->
  forall requested clamped,
    requested = encoderCountToVolume K (EncoderInfo.getRawCount (encoder s i)) ->
    clamped = Arduino.constrain requested (S754_zero false) (f64_of_Z MAX_ENCODER_VALUE) ->
    EncoderInfo.lastDetentPosition (encoder s' i) = lround clamped /\
    (if Fne requested clamped
     then volumeToEncoderCount K clamped = Ok (EncoderInfo.count (encoder s' i))
     else EncoderInfo.count (encoder s' i) = EncoderInfo.count (encoder s i)).
Proof.
  intros Hi H requested clamped Hreq Hclamped. unfold pollEncoder in H.
  rewrite positive in H. cbv zeta in H. rewrite <- Hreq, <- Hclamped in H.
  apply bind_Ok_inv in H as (s1 & H1 & H2).
  assert (H1' : List.length (encoders s1) = List.length (encoders s) /\
                EncoderInfo.lastDetentPosition (encoder s1 i)
                = EncoderInfo.lastDetentPosition (encoder s i) /\
                (if Fne requested clamped
                 then volumeToEncoderCount K clamped = Ok (EncoderInfo.count (encoder s1 i))
                 else EncoderInfo.count (encoder s1 i) = EncoderInfo.count (encoder s i))).
  { destruct (Fne requested clamped).
    - apply bind_Ok_inv in H1 as (c & Hc & H1). apply Ok_inj in H1. subst s1.
      unfold encoder, update_encoder. cbn [encoders set_encoders].
      rewrite length_update_at, at_index_update_at by exact Hi.
      split; [reflexivity |]. split; [reflexivity | exact Hc].
    - apply Ok_inj in H1. subst s1. auto. }
  destruct H1' as (Hlen & Hlast & Hcount).
  destruct (negb _) eqn:Hchg.
  - apply updateEncoderLedDisplay_emit in H2 as (ev & ->).
    unfold encoder, update_encoder. cbn [encoders emit set_encoders].
    rewrite at_index_update_at by (rewrite Hlen; exact Hi).
    fold (encoder s1 i). split; [reflexivity | exact Hcount].
  - apply Ok_inj in H2. subst s'. apply negb_false_iff, Z.eqb_eq in Hchg.
    split; [now rewrite <- Hchg | exact Hcount].
Qed.

End Result.

Lemma compare_as (x y x' y' : Z) :
  (x < y <-> x' < y') -> (x = y <-> x' = y') -> (x ?= y) = (x' ?= y').
Proof.
  intros Hlt Heq.
  destruct (Z.compare_spec x y), (Z.compare_spec x' y'); try reflexivity; lia.
Qed.

Lemma full_volume : f64_of_Z MAX_ENCODER_VALUE = S754_finite false 7036874417766400 (-46).
Proof.
  vm_compute. reflexivity.
Qed.

Lemma Qround_away_half (n : Z) : 0 <= n -> Qround_away (n # 2) = (n + 1) / 2.
Proof.
  intros Hn. unfold Qround_away.
  replace (Qle_bool 0 (n # 2)) with true.
  2:{ symmetry. apply Qle_bool_iff. unfold Qle. cbn. lia. }
  unfold Qfloor, Qplus. cbn [Qnum Qden]. 
  replace (n * 2 + 1 * 2) with ((n + 1) * 2) by lia.
  change (Z.pos (2 * 2)) with (2 * 2). 
  rewrite Z.div_mul_cancel_r by lia. reflexivity.
Qed.

(** The comparisons and the rounding [pollEncoder] makes, for the
    shipped scale factor and a count [- n]. *)
Lemma shipped_volume_compared (n : Z) :
  - 2 ^ 24 < n < 2 ^ 24 ->
  let requested := f64_of_f32 (f32_mul (f32_of_Z n) ENCODER_VOLUME_PER_COUNT) in
  Fcompare requested (S754_zero false) = Some (n ?= 0) /\
  Fcompare (f64_of_Z MAX_ENCODER_VALUE) requested = Some (200 ?= n) /\
  Fcompare requested (f64_of_Z MAX_ENCODER_VALUE) = Some (n ?= 200) /\
  (0 <= n -> lround requested = Z.max (-2 ^ 31) (Z.min (2 ^ 31 - 1) ((n + 1) / 2))).
Proof.
  intros Hr requested. rewrite full_volume.
  destruct (Z.eq_dec n 0) as [Hz | Hn].
  - subst n. subst requested.
    replace (f64_of_f32 (f32_mul (f32_of_Z 0) ENCODER_VOLUME_PER_COUNT))
      with (S754_zero false) by (vm_compute; reflexivity).
    repeat split.
  - destruct (half_of_count_exact n Hn Hr) as (m & e & Hreq & He & Hm).
    subst requested. rewrite Hreq.
    assert (Hp : 0 < 2 ^ (- e)) by (apply Z.pow_pos_nonneg; lia).
    assert (Hs : cond_Zopp (n <? 0) (Z.pos m) * 2 = n * 2 ^ (- e)).
    { destruct (Z.ltb_spec n 0); cbn [cond_Zopp]; lia. }
    unfold Fcompare, lround, F2Q, Int.saturate32, Int.LONG_MIN, Int.LONG_MAX.
    replace (0 <=? e) with false by (symmetry; apply Z.leb_gt; lia).
    change (0 <=? -46) with false. cbv iota.
    unfold Qcompare. cbn [Qnum Qden]. rewrite Z2Pos.id by exact Hp.
    change (Z.pos (Z.to_pos (2 ^ (- -46)))) with 70368744177664.
    change (Z.pos 1) with 1.
    change (cond_Zopp false 7036874417766400) with 7036874417766400.
    set (a := cond_Zopp (n <? 0) (Z.pos m)) in *.
    set (P := 2 ^ (- e)) in *.
    clearbody a P.
    assert (Hsign : forall z, (z * P < 0 <-> z < 0) /\ (z * P = 0 <-> z = 0)).
    { intros z. split; split; intros Hz; nia. }
    pose proof (Hsign n) as [Hn1 Hn2]. pose proof (Hsign (n - 200)) as [Hf1 Hf2].
    assert (Hd : (n - 200) * P = n * P - 200 * P) by lia.
    repeat split.
    + f_equal. apply compare_as; clear - Hs Hn1 Hn2; lia.
    + f_equal. apply compare_as; clear - Hs Hf1 Hf2 Hd; lia.
    + f_equal. apply compare_as; clear - Hs Hf1 Hf2 Hd; lia.
    + intros Hn0. f_equal. f_equal. rewrite <- Qround_away_half by exact Hn0.
      unfold Qround_away.
      assert (Hq : (a # Z.to_pos P == n # 2)%Q).
      { unfold Qeq. cbn [Qnum Qden]. rewrite Z2Pos.id by exact Hp. lia. }
      replace (Qle_bool 0 (a # Z.to_pos P)) with (Qle_bool 0 (n # 2))
        by (apply Qleb_comp; [reflexivity | now symmetry]).
      destruct (Qle_bool 0 (n # 2)).
      * apply Qfloor_comp. now rewrite Hq.
      * f_equal. apply Qfloor_comp. now rewrite Hq.
Qed.

Lemma constrain_by_compare (requested full : spec_float) (n : Z) :
  requested <> S754_nan ->
  Fcompare requested (S754_zero false) = Some (n ?= 0) ->
  Fcompare full requested = Some (200 ?= n) ->
  Fcompare requested full = Some (n ?= 200) ->
  (n < 0 -> Arduino.constrain requested (S754_zero false) full = S754_zero false /\
            Fne requested (S754_zero false) = true) /\
  (200 < n -> Arduino.constrain requested (S754_zero false) full = full /\
              Fne requested full = true) /\
  (0 <= n <= 200 -> Arduino.constrain requested (S754_zero false) full = requested /\
                    Fne requested requested = false).
Proof.
  intros Hnan H0 H1 H2. unfold Arduino.constrain, Fgt, Flt, Fne, Feq.
  rewrite H0, H1, H2. split; [| split]; intros Hn; split;
    try apply (Fne_same requested Hnan);
    destruct (Z.compare_spec n 0); try lia;
    destruct (Z.compare_spec 200 n); try lia;
    destruct (Z.compare_spec n 200); try lia; reflexivity.
Qed.

Lemma getRawCount_small (e : EncoderInfo.t) :
  - 2 ^ 24 < EncoderInfo.count e < 2 ^ 24 ->
  EncoderInfo.getRawCount e = EncoderInfo.count e.
Proof.
  intros H. unfold EncoderInfo.getRawCount, EncoderInfo.driver_read, Int.wrap64.
  rewrite (Z.mod_small (EncoderInfo.count e * 2 + 2 ^ 63)) by lia.
  replace (EncoderInfo.count e * 2 + 2 ^ 63 - 2 ^ 63) with (EncoderInfo.count e * 2) by lia.
  rewrite Z.quot_mul by lia. apply wrap32_small. lia.
Qed.

(** X21. What a turn of the knob does, with the shipped scale factor.
    For a channel whose counter [c] is below 2^24 in magnitude, the
    encoder step sets the detent to -c / 2 rounded to the nearest integer
    (halves upward) and limited to 0..100; when -c / 2 lies outside the
    range the counter is moved to the end of the range (0 or -200), and
    otherwise it is left alone. *)
Theorem pollEncoder_follows_the_knob (i : Z) (s s' : State) :
  0 <= i < Z.of_nat (List.length (encoders s)) ->
  - 2 ^ 24 < EncoderInfo.count (encoder s i) < 2 ^ 24 ->
  pollEncoder ENCODER_VOLUME_PER_COUNT i s = Ok s' ->
  EncoderInfo.lastDetentPosition (encoder s' i)
  = Z.max 0 (Z.min MAX_ENCODER_VALUE ((1 - EncoderInfo.count (encoder s i)) / 2)) /\
  EncoderInfo.count (encoder s' i)
  = (if 0 <? EncoderInfo.count (encoder s i) then 0
     else if EncoderInfo.count (encoder s i) <? -200 then -200
     else EncoderInfo.count (encoder s i)).
Proof.
  intros Hi Hc H.
  destruct (pollEncoder_result ENCODER_VOLUME_PER_COUNT shipped_scale_positive i s s' Hi H
              _ _ eq_refl eq_refl) as [Hdetent Hcount].
  rewrite Hdetent. clear Hdetent H.
  rewrite (getRawCount_small _ Hc) in *.
  set (c := EncoderInfo.count (encoder s i)) in *.
  pose proof (shipped_volume_is_a_number c) as Hnan.
  unfold encoderCountToVolume in *. rewrite (wrap32_small (- c)) in * by lia.
  destruct (shipped_volume_compared (- c) ltac:(lia)) as (H0 & H1 & H2 & Hround).
  set (requested := f64_of_f32 (f32_mul (f32_of_Z (- c)) ENCODER_VOLUME_PER_COUNT)) in *.
  destruct (constrain_by_compare requested (f64_of_Z MAX_ENCODER_VALUE) (- c) Hnan H0 H1 H2)
    as (Hlow & Hhigh & Hmid).
  change (Z.min MAX_ENCODER_VALUE) with (Z.min 100).
  destruct (Z.ltb_spec 0 c) as [Hpos | Hle].
  - destruct (Hlow ltac:(lia)) as [Ecl Ene]. rewrite Ecl in *. rewrite Ene in Hcount.
    rewrite count_at_zero in Hcount. apply Ok_inj in Hcount.
    rewrite lround_at_zero. split; [| now symmetry].
    assert ((1 - c) / 2 <= 0) by (apply Z.div_le_upper_bound; lia). lia.
  - destruct (Z.ltb_spec c (-200)) as [Hbig | Hin].
    + destruct (Hhigh ltac:(lia)) as [Ecl Ene]. rewrite Ecl in *. rewrite Ene in Hcount.
      rewrite count_at_full in Hcount. apply Ok_inj in Hcount.
      rewrite lround_at_full. split; [| now symmetry].
      assert (100 <= (1 - c) / 2) by (apply Z.div_le_lower_bound; lia). lia.
    + destruct (Hmid ltac:(lia)) as [Ecl Ene]. rewrite Ecl in *. rewrite Ene in Hcount.
      split; [| exact Hcount].
      rewrite (Hround ltac:(lia)). replace (- c + 1) with (1 - c) by lia.
      assert (B0 : 0 <= (1 - c) / 2) by (apply Z.div_pos; lia).
      assert (B1 : (1 - c) / 2 < 101) by (apply Z.div_lt_upper_bound; lia).
      change (2 ^ 31) with 2147483648. clear - B0 B1. lia.
Qed.

(** Channel 1 after seventy-five counts of rotation from power-on. *)
Lemma pollEncoder_follows_the_knob_witness :
  exists s',
    pollEncoder ENCODER_VOLUME_PER_COUNT 1
      (encoderInterrupts (fun i => if i =? 1 then -75 else 0) booted) = Ok s' /\
    EncoderInfo.lastDetentPosition (encoder s' 1) = 38.
Proof.
  eexists. split; [vm_compute; reflexivity |].
  eapply (pollEncoder_follows_the_knob 1
            (encoderInterrupts (fun i => if i =? 1 then -75 else 0) booted)).
  - vm_compute. split; [discriminate | reflexivity].
  - vm_compute. split; reflexivity.
  - vm_compute. reflexivity.
Defined.

(** ** A colour command *)

Lemma toHex_six (upper : bool) (c : Color) :
  toHex upper c
  = six (hexDigit upper (r c / 16)) (hexDigit upper (r c mod 16))
        (hexDigit upper (g c / 16)) (hexDigit upper (g c mod 16))
        (hexDigit upper (b c / 16)) (hexDigit upper (b c mod 16)).
Proof.
  reflexivity.
Qed.

Lemma hexDigit_no_colon (upper : bool) (n : Z) :
  0 <= n < 16 -> Ascii.eqb (hexDigit upper n) ":" = false.
Proof.
  intros H. destruct upper; each_nibble H; reflexivity.
Qed.

Section ColourCommand.

Variables d h1 h2 h3 h4 h5 h6 h7 h8 h9 h10 h11 h12 : ascii.
Hypothesis Hd : Ascii.eqb d ":" = false.
Hypothesis H1 : Ascii.eqb h1 ":" = false.
Hypothesis H2 : Ascii.eqb h2 ":" = false.
Hypothesis H3 : Ascii.eqb h3 ":" = false.
Hypothesis H4 : Ascii.eqb h4 ":" = false.
Hypothesis H5 : Ascii.eqb h5 ":" = false.
Hypothesis H6 : Ascii.eqb h6 ":" = false.
Hypothesis H7 : Ascii.eqb h7 ":" = false.
Hypothesis H8 : Ascii.eqb h8 ":" = false.
Hypothesis H9 : Ascii.eqb h9 ":" = false.
Hypothesis H10 : Ascii.eqb h10 ":" = false.
Hypothesis H11 : Ascii.eqb h11 ":" = false.
Hypothesis H12 : Ascii.eqb h12 ":" = false.

Lemma colour_payload_parses :
  let payload := colourPayload d h1 h2 h3 h4 h5 h6 h7 h8 h9 h10 h11 h12 in
  AString.indexOf ":" payload = 1 /\
  AString.lastIndexOf ":" payload = 8 /\
  AString.substring 0 1 payload = String d EmptyString /\
  AString.substring (1 + 1) 8 payload = six h1 h2 h3 h4 h5 h6 /\
  AString.substringFrom (8 + 1) payload = six h7 h8 h9 h10 h11 h12.
Proof.
  unfold colourPayload, six. cbn [append]. split; [| split; [| repeat split]].
  - unfold AString.indexOf. cbn [AString.indexOfFrom]. rewrite Hd. reflexivity.
  - unfold AString.lastIndexOf. cbn [AString.lastIndexOfFrom].
    rewrite Hd, H1, H2, H3, H4, H5, H6, H7, H8, H9, H10, H11, H12. reflexivity.
Qed.

Lemma colour_line_parses :
  let payload := colourPayload d h1 h2 h3 h4 h5 h6 h7 h8 h9 h10 h11 h12 in
  let line := String "C" (String ":" payload) in
  AString.indexOf ":" line = 1 /\
  AString.charAt 0 line = "C"%char /\
  AString.substringFrom (1 + 1) line = payload.
Proof.
  repeat split.
Qed.

End ColourCommand.

Section ColourCommandRuns.

Variable K : spec_float.

Lemma processLine_colour (i : Z) (d : ascii) (zeroHex fullHex payload : string) (s : State) :
  wired s -> 0 <= i < numEncoders -> detentInRange (encoder s i) ->
  serialBuffer s = String "C" (String ":" payload) ->
  AString.indexOf ":" (String "C" (String ":" payload)) = 1 ->
  AString.charAt 0 (String "C" (String ":" payload)) = "C"%char ->
  AString.substringFrom (1 + 1) (String "C" (String ":" payload)) = payload ->
  AString.indexOf ":" payload = 1 ->
  AString.lastIndexOf ":" payload = 8 ->
  AString.substring 0 1 payload = String d EmptyString ->
  AString.toInt (String d EmptyString) = i ->
  AString.substring (1 + 1) 8 payload = zeroHex ->
  AString.substringFrom (8 + 1) payload = fullHex ->
  exists s' events,
    processLine K s = Ok s' /\
    s' = set_serialBuffer EmptyString
           (emit events
              (update_encoder i
                 (EncoderInfo.set_colors (hexToColor zeroHex) (hexToColor fullHex)) s)).
Proof.
  intros Hw Hi Hdet Hbuf L1 L2 L3 P1 P2 P3 P4 P5 P6.
  unfold processLine. cbv zeta. rewrite Hbuf, L1, L2, L3.
  change (1 >? 0) with true. change (Ascii.eqb "C" "V") with false.
  change (Ascii.eqb "C" "C") with true. cbv iota.
  unfold commandC. cbv zeta. rewrite P1, P2, P3, P4, P5, P6.
  change ((1 >? 0) && (8 >? 1)) with true. cbv iota.
  replace ((i >=? 0) && (i <? numEncoders)) with true.
  2:{ symmetry. apply andb_true_iff. rewrite Z.geb_leb, Z.leb_le, Z.ltb_lt. lia. }
  assert (Hw1 : wired (update_encoder i
                  (EncoderInfo.set_colors (hexToColor zeroHex) (hexToColor fullHex)) s)).
  { destruct Hw as [He Hb]. split; [| exact Hb].
    unfold update_encoder. cbn [encoders set_encoders buttons].
    rewrite map_update_at; [exact He | reflexivity]. }
  destruct (render_runs i _ Hw1 Hi) as (s3 & H3).
  { rewrite (encoder_update_encoder i _ s Hw Hi). exact Hdet. }
  pose proof H3 as H3'. apply updateEncoderLedDisplay_emit in H3' as (ev & ->).
  rewrite H3. cbn [bind]. eauto.
Qed.

End ColourCommandRuns.

Lemma index_digit (i : Z) :
  0 <= i < numEncoders ->
  exists d, AString.ofInt i = String d EmptyString /\
            Ascii.eqb d ":" = false /\
            AString.toInt (String d EmptyString) = i.
Proof.
  intros Hi.
  destruct (numEncoders_cases i Hi) as [-> | [-> | [-> | [-> | [-> | ->]]]]];
    eexists; (split; [vm_compute; reflexivity |]); split; vm_compute; reflexivity.
Qed.

(** X22. A colour command does what it says. With the arrays as
    initialised, the buffered line "C:i:RRGGBB:RRGGBB" for a channel [i]
    whose detent is in 0..100, and two colours with byte channels written
    in hexadecimal (upper or lower case), is carried out without a fault,
    for any scale factor: it stores exactly these two colours as the stops
    of channel [i], touching neither its detent, counter and mute flag nor
    any other channel, and empties the buffer. *)
Theorem colour_command_sets_the_stops
        (K : spec_float) (upper : bool) (i : Z) (zero full : Color) (s : State) :
  wired s -> 0 <= i < numEncoders -> detentInRange (encoder s i) ->
  byteColor zero -> byteColor full ->
  serialBuffer s = colourLine upper i zero full ->
  exists s',
    processLine K s = Ok s' /\
    encoder s' i = EncoderInfo.set_colors zero full (encoder s i) /\
    (forall j, 0 <= j -> j <> i -> encoder s' j = encoder s j) /\
    serialBuffer s' = EmptyString.
Proof.
  intros Hw Hi Hdet Hzero Hfull Hbuf.
  destruct (index_digit i Hi) as (d & Hd & Hcolon & Hint).
  unfold colourLine in Hbuf. rewrite Hd, !toHex_six in Hbuf. cbn [append] in Hbuf.
  destruct Hzero as (Z1 & Z2 & Z3). destruct Hfull as (F1 & F2 & F3).
  destruct (byte_nibbles _ Z1), (byte_nibbles _ Z2), (byte_nibbles _ Z3),
    (byte_nibbles _ F1), (byte_nibbles _ F2), (byte_nibbles _ F3).
  destruct (colour_payload_parses d
              (hexDigit upper (r zero / 16)) (hexDigit upper (r zero mod 16))
              (hexDigit upper (g zero / 16)) (hexDigit upper (g zero mod 16))
              (hexDigit upper (b zero / 16)) (hexDigit upper (b zero mod 16))
              (hexDigit upper (r full / 16)) (hexDigit upper (r full mod 16))
              (hexDigit upper (g full / 16)) (hexDigit upper (g full mod 16))
              (hexDigit upper (b full / 16)) (hexDigit upper (b full mod 16)))
    as (P1 & P2 & P3 & P5 & P6); try (apply hexDigit_no_colon; assumption); [exact Hcolon |].
  destruct (colour_line_parses d
              (hexDigit upper (r zero / 16)) (hexDigit upper (r zero mod 16))
              (hexDigit upper (g zero / 16)) (hexDigit upper (g zero mod 16))
              (hexDigit upper (b zero / 16)) (hexDigit upper (b zero mod 16))
              (hexDigit upper (r full / 16)) (hexDigit upper (r full mod 16))
              (hexDigit upper (g full / 16)) (hexDigit upper (g full mod 16))
              (hexDigit upper (b full / 16)) (hexDigit upper (b full mod 16)))
    as (L1 & L2 & L3).
  cbv zeta in P1, P2, P3, P5, P6, L1, L2, L3.
  unfold colourPayload in P1, P2, P3, P5, P6, L1, L2, L3.
  rewrite <- !toHex_six in P5, P6.
  destruct (processLine_colour K i d _ _ _ s Hw Hi Hdet Hbuf L1 L2 L3 P1 P2 P3 Hint P5 P6)
    as (s' & ev & Hrun & Hs').
  rewrite (proj1 (hexToColor_toHex upper zero (conj Z1 (conj Z2 Z3)))) in Hs'.
  rewrite (proj1 (hexToColor_toHex upper full (conj F1 (conj F2 F3)))) in Hs'.
  assert (Hlen : 0 <= i < Z.of_nat (List.length (encoders s)))
    by (rewrite (wired_length s Hw); exact Hi).
  exists s'. split; [exact Hrun |]. rewrite Hs'. split; [| split].
  - unfold encoder, update_encoder. cbn [encoders set_serialBuffer emit set_encoders].
    now rewrite at_index_update_at by exact Hlen.
  - intros j Hj0 Hj. unfold encoder, update_encoder.
    cbn [encoders set_serialBuffer emit set_encoders].
    now rewrite at_index_update_at_other by (exact Hj0 || exact Hj).
  - reflexivity.
Qed.

Lemma colour_command_sets_the_stops_witness :
  exists s',
    processLine ENCODER_VOLUME_PER_COUNT
      (set_serialBuffer "C:2:FF8000:0000FF" booted) = Ok s' /\
    EncoderInfo.zeroColor (encoder s' 2) = mkColor 255 128 0.
Proof.
  destruct (colour_command_sets_the_stops ENCODER_VOLUME_PER_COUNT true 2
              (mkColor 255 128 0) (mkColor 0 0 255)
              (set_serialBuffer "C:2:FF8000:0000FF" booted))
    as (s' & Hrun & Henc & _).
  - split; vm_compute; reflexivity.
  - vm_compute. split; [discriminate | reflexivity].
  - vm_compute. split; discriminate.
  - vm_compute. repeat split; discriminate.
  - vm_compute. repeat split; discriminate.
  - vm_compute. reflexivity.
  - exists s'. split; [exact Hrun |]. rewrite Henc. reflexivity.
Defined.

(** ** Muting and the displayed level *)

Lemma mapM_sameLevelDimmed (f g : Z -> result (Z * Color)) (l : list Z) :
  (forall x, match f x, g x with
             | Ok p, Ok q => fst p = fst q /\ snd p = MUTED_COLOR
             | Fault _, Fault _ => True
             | _, _ => False
             end) ->
  sameLevelDimmed (mapM f l) (mapM g l).
Proof.
  intros H. induction l as [| x l IH]; cbn [mapM].
  - cbn. auto.
  - specialize (H x). destruct (f x) as [p |], (g x) as [q |]; try contradiction;
      cbn [bind]; [| exact I].
    destruct (mapM f l) as [ps |], (mapM g l) as [qs |]; try contradiction;
      cbn [bind sameLevelDimmed] in *; [| exact I].
    destruct H as [H1 H2], IH as [IH1 IH2]. split.
    + cbn [List.map]. now rewrite H1, IH1.
    + now constructor.
Qed.

(** X23. Muting keeps the displayed level: a channel lights the same
    LEDs, in the same order, muted and unmuted; muted, all of them are in
    the mute colour. The two renderings also read past the wiring table
    together. *)
Theorem mute_keeps_the_level (enc : EncoderInfo.t) :
  sameLevelDimmed (litPixels (EncoderInfo.set_isMuted true enc))
                  (litPixels (EncoderInfo.set_isMuted false enc)).
Proof.
  unfold litPixels. cbn [EncoderInfo.isMuted EncoderInfo.set_isMuted].
  change (ledsToLight (EncoderInfo.set_isMuted true enc)) with (ledsToLight enc).
  change (ledsToLight (EncoderInfo.set_isMuted false enc)) with (ledsToLight enc).
  apply mapM_sameLevelDimmed. intros i.
  unfold mutedPixel, gradientPixel, localLedIndex.
  cbn [EncoderInfo.ledOrder EncoderInfo.startLed EncoderInfo.set_isMuted].
  destruct (EncoderInfo.ledOrder enc) as [order |]; cbn [bind fst snd]; [| auto].
  destruct (read_unchecked order i); cbn [bind fst snd]; auto.
Qed.
